(** * Hyperagent streaming-llm backend: task graph, agent runtime, event log
      and controller gate

    A shallow embedding of the Python modules
      - [backend/task_graph/store.py]
      - [backend/agents/base.py], [backend/agents/runtime.py]
      - [backend/log/query.py], [backend/log/summarize.py]
      - [backend/orchestrator/controller_runner.py]
    together with the properties their specification states about them.

    Python values are JSON values ([pyval], without floats); a [dict] keeps
    its insertion order, as in Python.  The three persistent stores (the task
    registry document, the per-conversation journals and the per-conversation
    summary artifacts) together with the two sources of non-determinism the
    code reads (the wall clock and [uuid4]) form the [World]; effectful
    functions are computations in a state-and-exception monad over it, and a
    raised exception keeps the effects that preceded it.

    Files are represented by their decoded content.  Which file a
    conversation id names in a data directory, if any, is the answer of the
    file system, which is part of the environment ([FileSystem]): an id is
    used as a path, so [./x] and [x] are one journal, and an id with a
    directory part that does not exist names none.  Other failures of the
    disk (no space, no permission on the data directories) are not
    represented, nor are directory creation and the alignment of the storage
    roots between modules.  File locks are not represented either: every
    store call is one step, and concurrent workers interleave whole store
    calls. *)

From Stdlib Require Import ZArith Lia Bool Sorted.
From stdpp Require Import base option list strings gmap.

Set Warnings "-register-all".

Local Open Scope string_scope.
Local Open Scope Z_scope.

(** The line feed. *)
Definition nl : string := String (Ascii.ascii_of_nat 10) EmptyString.

(** The path separator. *)
Definition slash : Ascii.ascii := Ascii.ascii_of_nat 47.

(** ** Python values *)

Inductive pyval : Type :=
  | PNone
  | PBool (b : bool)
  | PInt (n : Z)
  | PStr (s : string)
  | PList (l : list pyval)
  | PDict (d : list (string * pyval)).

Abbreviation pydict := (list (string * pyval)).

(** [bool(v)]. *)
Definition py_truthy (v : pyval) : bool :=
  match v with
  | PNone => false
  | PBool b => b
  | PInt n => negb (n =? 0)
  | PStr s => negb (String.eqb s "")
  | PList l => match l with [] => false | _ => true end
  | PDict d => match d with [] => false | _ => true end
  end.

(** ** Dictionaries *)

Module Dict.

(** [d.get(k)], as an option ([None] when the key is absent). *)
Fixpoint get (k : string) (d : pydict) : option pyval :=
  match d with
  | [] => None
  | (k', v) :: d' => if String.eqb k' k then Some v else get k d'
  end.

(** [k in d]. *)
Definition mem (k : string) (d : pydict) : bool :=
  match get k d with Some _ => true | None => false end.

(** [d[k] = v]: an existing key keeps its position. *)
Fixpoint set (k : string) (v : pyval) (d : pydict) : pydict :=
  match d with
  | [] => [(k, v)]
  | (k', v') :: d' =>
      if String.eqb k' k then (k', v) :: d' else (k', v') :: set k v d'
  end.

(** [d.update(patch)]. *)
Definition update (patch d : pydict) : pydict :=
  fold_left (fun acc kv => set kv.1 kv.2 acc) patch d.

(** [d.setdefault(k, v)] (the dictionary afterwards). *)
Definition setdefault (k : string) (v : pyval) (d : pydict) : pydict :=
  if mem k d then d else set k v d.

(** [d.pop(k, None)] (the dictionary afterwards). *)
Definition pop (k : string) (d : pydict) : pydict :=
  filter (fun kv => kv.1 ≠ k) d.

(** [d.get(k, dflt)]. *)
Definition get_or (k : string) (dflt : pyval) (d : pydict) : pyval :=
  default dflt (get k d).

End Dict.

(** [a == b] on JSON values.  [bool] is a subtype of [int] in Python, so
    [True == 1]; dictionaries compare by content, not by order. *)
Fixpoint py_eqb (a b : pyval) : bool :=
  match a, b with
  | PNone, PNone => true
  | PBool x, PBool y => Bool.eqb x y
  | PBool x, PInt n => Z.b2z x =? n
  | PInt n, PBool x => n =? Z.b2z x
  | PInt m, PInt n => m =? n
  | PStr s, PStr t => String.eqb s t
  | PList l, PList l' =>
      (fix go (l l' : list pyval) : bool :=
         match l, l' with
         | [], [] => true
         | x :: l, y :: l' => py_eqb x y && go l l'
         | _, _ => false
         end) l l'
  | PDict d, PDict d' =>
      Nat.eqb (length d) (length d') &&
      (fix go (d : pydict) : bool :=
         match d with
         | [] => true
         | (k, v) :: d =>
             match Dict.get k d' with
             | Some v' => py_eqb v v'
             | None => false
             end && go d
         end) d
  | _, _ => false
  end.

(** ** Python slices

    [l[i:]] and [l[:i]] for an integer [i]: a negative index counts from the
    end, and every index is clamped to the list.  The code writes [l[-n:]] and
    [l[:-n]]; at [n = 0] these are [l[0:]] (everything) and [l[:0]]
    (nothing). *)

Definition slice_index {A} (i : Z) (l : list A) : nat :=
  let n := Z.of_nat (length l) in
  Z.to_nat (Z.max 0 (Z.min n (if i <? 0 then i + n else i))).

Definition slice_from {A} (i : Z) (l : list A) : list A :=
  drop (slice_index i l) l.

Definition slice_to {A} (i : Z) (l : list A) : list A :=
  take (slice_index i l) l.

(** ** Exceptions and the world *)

Inductive exn : Type :=
  | KeyError (what : string)
  | ValueError (msg : string)
  | TypeError (msg : string)
  | AttributeError (msg : string)
  | PolicyViolation (msg : string)
  | OSError (msg : string).   (* also its subclasses, FileNotFoundError among them *)

Inductive result (A : Type) : Type :=
  | Ok (a : A)
  | Raise (e : exn).
Arguments Ok {A} a.
Arguments Raise {A} e.

(** The functions of Python's standard library that the code calls and that
    are not part of this repository. *)
Class PyLib : Type := {
  (* datetime.isoformat() of a UTC instant, given in microseconds since the
     epoch, with the suffix +00:00 replaced by Z *)
  isoformat_utc : Z → string;
  (* hashlib.sha256(s.encode("utf-8")).hexdigest() *)
  sha256_hexdigest : string → string;
  (* json.dumps(v, ensure_ascii=a, sort_keys=True) *)
  json_dumps_sorted : bool → pyval → string;
  (* str(v) for a value that is not itself a string *)
  py_repr : pyval → string;
  (* s.strip() *)
  py_strip : string → string;
}.

(** ** The file system

    The code builds the paths [LOG_ROOT / f"{id}.jsonl"] and
    [SUMMARIES_ROOT / f"{id}.md"] from a conversation id and opens them.
    What comes of that is the file system's answer:
    - [Opens file]: [open()] succeeds, creating the file when it is missing.
      [file] names the file: a file directly in the directory is named by
      its name without the suffix, a file anywhere else (the id is absolute
      or climbs with [..]) by a path, which contains a separator.  Two ids
      with the same answer are the same file.
    - [Missing e]: there is no such file and none can be made, [open()]
      raises [e] and [Path.exists()] is false ([FileNotFoundError] for a
      directory part that does not exist, [ValueError] for an embedded
      NUL).
    - [Unusable e]: [open()] and [Path.exists()] both raise [e] (a name
      longer than the file system allows). *)
Inductive resolved : Type :=
  | Opens (file : string)
  | Missing (e : exn)
  | Unusable (e : exn).

(** A character that a file name may hold: not the separator, not NUL. *)
Definition name_char (c : Ascii.ascii) : bool :=
  negb (Ascii.eqb c slash) && negb (Ascii.eqb c Ascii.zero).

Fixpoint name_chars (s : string) : bool :=
  match s with
  | EmptyString => true
  | String c rest => name_char c && name_chars rest
  end.

(** An id that is a plain file name: it has no separator and no NUL, and
    with the six bytes of [.jsonl] it is no longer than a name may be. *)
Definition plain_name (name_max : nat) (id : string) : bool :=
  name_chars id && (String.length id + 6 <=? name_max)%nat.

(** The answers do not change while the code runs, which creates files but
    no directory other than the two roots.  In both data directories a plain
    file name can be opened, and names itself: the directories are writable
    and hold no subdirectory of that name. *)
Class FileSystem : Type := {
  (* NAME_MAX, 255 on the usual file systems *)
  name_max : nat;
  (* LOG_ROOT / f"{id}.jsonl" *)
  log_file : string → resolved;
  (* SUMMARIES_ROOT / f"{id}.md" *)
  summary_file : string → resolved;
  log_file_plain : ∀ id, plain_name name_max id = true → log_file id = Opens id;
  summary_file_plain : ∀ id, plain_name name_max id = true → summary_file id = Opens id;
}.

(** [plain_name] on the file system at hand. *)
Definition plain_id `{!FileSystem} (id : string) : bool := plain_name name_max id.

(** A file directly in its data directory: its name holds no separator.
    These are the files that [LOG_ROOT.glob("*.jsonl")] finds. *)
Fixpoint in_directory (file : string) : bool :=
  match file with
  | EmptyString => true
  | String c rest => negb (Ascii.eqb c slash) && in_directory rest
  end.

(** ** The world

    A journal file is represented by the list of JSON objects its lines hold
    ([json.loads] after [json.dumps] is the identity on JSON values), under
    the name the file system gives it; a missing file by the absence of the
    key.  Summary artifacts likewise.  The registry document
    [tasks.graph.json] is represented by its ["tasks"] list; a missing
    document is created empty on first load. *)
Record World : Type := mkWorld {
  registry : list pydict;
  journals : gmap string (list pydict);
  summaries : gmap string string;
  clock : nat → Z;          (* the successive readings of the wall clock *)
  clock_reads : nat;
  uuid_hex : nat → string;  (* the successive values of uuid.uuid4().hex *)
  uuid_draws : nat;
}.

Definition set_registry (g : list pydict) (w : World) : World :=
  mkWorld g (journals w) (summaries w)
          (clock w) (clock_reads w) (uuid_hex w) (uuid_draws w).

Definition set_journals (j : gmap string (list pydict)) (w : World) : World :=
  mkWorld (registry w) j (summaries w)
          (clock w) (clock_reads w) (uuid_hex w) (uuid_draws w).

Definition set_summaries (s : gmap string string) (w : World) : World :=
  mkWorld (registry w) (journals w) s
          (clock w) (clock_reads w) (uuid_hex w) (uuid_draws w).

(** State and exceptions: a raised exception keeps the effects performed
    before it. *)
Definition M (A : Type) : Type := World → result A * World.

Definition ret {A} (a : A) : M A := fun w => (Ok a, w).

Definition raise {A} (e : exn) : M A := fun w => (Raise e, w).

Definition bind {A B} (m : M A) (k : A → M B) : M B :=
  fun w =>
    match m w with
    | (Ok a, w') => k a w'
    | (Raise e, w') => (Raise e, w')
    end.

Definition lift {A} (r : result A) : M A := fun w => (r, w).

Notation "x <- c1 ;; c2" := (bind c1 (fun x => c2))
  (at level 100, c1 at next level, right associativity).
Notation "c1 ;;; c2" := (bind c1 (fun _ => c2))
  (at level 100, right associativity).

Section WithPyLib.

Context `{!PyLib} {disk : FileSystem}.

(** [str(v)], also what an f-string substitutes for [{v}]. *)
Definition py_str (v : pyval) : string :=
  match v with
  | PStr s => s
  | _ => py_repr v
  end.

(** [time.time()] and [datetime.now(timezone.utc)]: read the clock. *)
Definition read_clock : M Z :=
  fun w =>
    (Ok (clock w (clock_reads w)),
     mkWorld (registry w) (journals w) (summaries w)
             (clock w) (S (clock_reads w)) (uuid_hex w) (uuid_draws w)).

(** [uuid.uuid4().hex] *)
Definition uuid4_hex : M string :=
  fun w =>
    (Ok (uuid_hex w (uuid_draws w)),
     mkWorld (registry w) (journals w) (summaries w)
             (clock w) (clock_reads w) (uuid_hex w) (S (uuid_draws w))).

(** [_now_iso()] of both [store.py] and [query.py] *)
Definition _now_iso : M string :=
  t <- read_clock ;; ret (isoformat_utc t).

(** ** [backend/task_graph/store.py] *)

(** [d[k]] *)
Definition subscript (d : pydict) (k : string) : result pyval :=
  match Dict.get k d with
  | Some v => Ok v
  | None => Raise (KeyError k)
  end.

(** [load_graph()]: the ["tasks"] list of the registry document. *)
Definition load_graph : M (list pydict) :=
  fun w => (Ok (registry w), w).

(** [save_graph(graph)] *)
Definition save_graph (tasks : list pydict) : M unit :=
  fun w => (Ok tt, set_registry tasks w).

(** [create_task(task)].  The dictionary literal evaluates its values in
    order: the default id (a fresh uuid, drawn whether or not it is used),
    then [task["type"]] and [task["status"]], which raise [KeyError] when the
    draft lacks them. *)
Definition create_task (task : pydict) : M pydict :=
  graph <- load_graph ;;
  now <- _now_iso ;;
  fresh <- uuid4_hex ;;
  ty <- lift (subscript task "type") ;;
  st <- lift (subscript task "status") ;;
  let node : pydict :=
    [ ("id", Dict.get_or "id" (PStr ("task-" ++ fresh)) task);
      ("type", ty);
      ("status", st);
      ("owner", Dict.get_or "owner" PNone task);
      ("inputs", Dict.get_or "inputs" (PDict []) task);
      ("outputs", Dict.get_or "outputs" (PDict []) task);
      ("context", Dict.get_or "context" (PDict []) task);
      ("metadata", Dict.get_or "metadata" (PDict []) task);
      ("priority", Dict.get_or "priority" (PInt 0) task);
      ("attempt", Dict.get_or "attempt" (PInt 0) task);
      ("created_at", Dict.get_or "created_at" (PStr now) task);
      ("updated_at", PStr now);
      ("parent_id", Dict.get_or "parent_id" PNone task);
      ("dependency_ids", Dict.get_or "dependency_ids" (PList []) task) ] in
  save_graph (graph ++ [node])%list ;;;
  ret node.

(** The loop of [update_task]: scan the registry in storage order for the
    first node whose id equals [task_id]; [node["id"]] raises [KeyError] on a
    node without id, and so does the end of the loop.  Returns the nodes
    before the match, the match, and the nodes after it. *)
Fixpoint find_task (task_id : pyval) (tasks : list pydict)
    : result (list pydict * pydict * list pydict) :=
  match tasks with
  | [] => Raise (KeyError ("task " ++ py_str task_id ++ " not found"))
  | node :: rest =>
      match subscript node "id" with
      | Raise e => Raise e
      | Ok i =>
          if py_eqb i task_id then Ok ([], node, rest)
          else
            match find_task task_id rest with
            | Ok (before, found, after) => Ok (node :: before, found, after)
            | Raise e => Raise e
            end
      end
  end.

(** [update_task(task_id, **patch)]: the matching node is patched in place,
    stamped and the whole registry saved; the clock is read only when the node
    is found, and nothing is saved when the scan raises. *)
Definition update_task (task_id : pyval) (patch : pydict) : M pydict :=
  graph <- load_graph ;;
  found <- lift (find_task task_id graph) ;;
  let '(before, node, after) := found in
  let node := Dict.update patch node in
  now <- _now_iso ;;
  let node := Dict.set "updated_at" (PStr now) node in
  save_graph (before ++ node :: after)%list ;;;
  ret node.

(** [v in tags] for a set of strings.  Status and type tags are strings; a
    value that is not a string is a member of no set of strings (a list or a
    dict in that position is unhashable and outside the data model). *)
Definition py_in (v : pyval) (tags : list string) : bool :=
  match v with
  | PStr s => bool_decide (s ∈ tags)
  | _ => false
  end.

(** [task.get("status") in wanted] *)
Definition status_in (wanted : list string) (task : pydict) : bool :=
  py_in (Dict.get_or "status" PNone task) wanted.

(** [list_active(statuses)]: an empty (or absent) filter keeps every task. *)
Definition list_active (statuses : list string) : M (list pydict) :=
  graph <- load_graph ;;
  match statuses with
  | [] => ret graph
  | _ => ret (List.filter (status_in statuses) graph)
  end.

(** ** [backend/agents/base.py] *)

Record AgentTask : Type := mkAgentTask {
  at_id : pyval;
  at_type : pyval;
  at_status : pyval;
  at_owner : pyval;
  at_priority : pyval;
  at_inputs : pyval;
  at_context : pyval;
  at_metadata : pyval;
  at_attempt : pyval;
}.

(** [v.get(k)] on a value that should be a dict. *)
Definition py_get (v : pyval) (k : string) : result pyval :=
  match v with
  | PDict d => Ok (Dict.get_or k PNone d)
  | _ => Raise (AttributeError "get")
  end.

(** [AgentTask.conversation_id()]: metadata, then inputs, then the task id. *)
Definition conversation_id (task : AgentTask) : result pyval :=
  match py_get (at_metadata task) "conversation_id" with
  | Raise e => Raise e
  | Ok m =>
      if py_truthy m then Ok m
      else
        match py_get (at_inputs task) "conversation_id" with
        | Raise e => Raise e
        | Ok i => if py_truthy i then Ok i else Ok (at_id task)
        end
  end.

Record AgentResult : Type := mkAgentResult {
  ar_task_id : string;
  ar_outcome : string;
  ar_artifacts : list pyval;
  ar_notes : option string;
  ar_next_actions : option (list pyval);
}.

Record AgentError : Type := mkAgentError {
  ae_task_id : string;
  ae_reason : string;
  ae_retryable : bool;
  ae_details : pydict;
}.

(** [AgentError.to_payload()] *)
Definition to_payload (error : AgentError) : pydict :=
  [ ("task_id", PStr (ae_task_id error));
    ("reason", PStr (ae_reason error));
    ("retryable", PBool (ae_retryable error));
    ("details", PDict (ae_details error)) ].

(** ** [backend/log/query.py] *)

(** Open [LOG_ROOT / f"{conversation_id}.jsonl"] in append mode (creating it
    when missing) and write one line. *)
Definition write_line (conversation_id : string) (entry : pydict) : M unit :=
  fun w =>
    match log_file conversation_id with
    | Opens file =>
        let lines : list pydict := default [] (journals w !! file) in
        (Ok tt, set_journals (<[file := (lines ++ [entry])%list]> (journals w)) w)
    | Missing e | Unusable e => (Raise e, w)
    end.

(** [append_event(event)].  The journal is the file named after
    [str(conversation_id)]; the default id is drawn before [setdefault]
    decides whether to use it, and the file is opened last, after the uuid
    and the clock have been read. *)
Definition append_event (event : pydict) : M pyval :=
  let conversation_id := Dict.get_or "conversation_id" PNone event in
  if negb (py_truthy conversation_id) then
    raise (ValueError "conversation_id is required")
  else
    let entry := Dict.setdefault "conversation_id" conversation_id event in
    fresh <- uuid4_hex ;;
    let entry := Dict.setdefault "id" (PStr ("evt-" ++ fresh)) entry in
    now <- _now_iso ;;
    let entry := Dict.set "timestamp" (PStr now) entry in
    write_line (py_str conversation_id) entry ;;;
    lift (subscript entry "id").

(** [tail(conversation_id, limit)] *)
Definition tail (conversation_id : string) (limit : Z) : M (list pydict) :=
  fun w =>
    match log_file conversation_id with
    | Opens file =>
        match journals w !! file with
        | None => (Ok [], w)
        | Some lines => (Ok (slice_from (- limit) lines), w)
        end
    | Missing _ => (Ok [], w)
    | Unusable e => (Raise e, w)
    end.

(** ** [backend/agents/runtime.py] *)

Record AgentRuntime : Type := mkAgentRuntime {
  agent_id : string;
  agent_type : string;
  heartbeat_interval : Z;
  last_heartbeat_at : option Z;
}.

(** [_to_agent_task(node)] *)
Definition _to_agent_task (node : pydict) : result AgentTask :=
  match subscript node "id" with
  | Raise e => Raise e
  | Ok i =>
      Ok (mkAgentTask i
            (Dict.get_or "type" (PStr "unknown") node)
            (Dict.get_or "status" (PStr "UNKNOWN") node)
            (Dict.get_or "owner" PNone node)
            (Dict.get_or "priority" (PInt 0) node)
            (Dict.get_or "inputs" (PDict []) node)
            (Dict.get_or "context" (PDict []) node)
            (Dict.get_or "metadata" (PDict []) node)
            (Dict.get_or "attempt" (PInt 0) node))
  end.

(** [v + 1] *)
Definition py_succ (v : pyval) : result pyval :=
  match v with
  | PInt n => Ok (PInt (n + 1))
  | PBool b => Ok (PInt (Z.b2z b + 1))
  | _ => Raise (TypeError "unsupported operand type(s) for +")
  end.

(** The loop of [poll_next_task] over the listing it was given: the first
    node of the agent's type is claimed by [update_task] and returned. *)
Fixpoint claim_first (rt : AgentRuntime) (tasks : list pydict) : M (option AgentTask) :=
  match tasks with
  | [] => ret None
  | node :: rest =>
      if negb (py_eqb (Dict.get_or "type" PNone node) (PStr (agent_type rt))) then
        claim_first rt rest
      else
        task_id <- lift (subscript node "id") ;;
        attempt <- lift (py_succ (Dict.get_or "attempt" (PInt 0) node)) ;;
        claimed <- update_task task_id
                     [ ("status", PStr "IN_PROGRESS");
                       ("owner", PStr (agent_id rt));
                       ("attempt", attempt) ] ;;
        task <- lift (_to_agent_task claimed) ;;
        ret (Some task)
  end.

(** [AgentRuntime.poll_next_task()]: two store calls, the listing and then the
    update. *)
Definition poll_next_task (rt : AgentRuntime) : M (option AgentTask) :=
  tasks <- list_active ["PENDING"] ;;
  claim_first rt tasks.

(** [_enforce_policy(payload)]: the payload afterwards, since the same
    dictionary is the one appended next. *)
Definition _enforce_policy (payload : pydict) : result pydict :=
  if py_truthy (Dict.get_or "render_to_user" PNone payload) then
    Raise (PolicyViolation "Agent events cannot add user-visible output; narrator only.")
  else
    Ok (Dict.pop "render_to_user" payload).

(** [_append_event(task, kind, payload)] *)
Definition _append_event (task : AgentTask) (kind : string) (payload : pydict) : M unit :=
  conv <- lift (conversation_id task) ;;
  append_event
    [ ("conversation_id", conv);
      ("type", PStr kind);
      ("payload", PDict payload);
      ("visibility", PStr "internal") ] ;;;
  ret tt.

(** The payload [emit_update] builds before the guard sees it. *)
Definition update_payload (rt : AgentRuntime) (task : AgentTask) (message : string)
    (progress extra : option pydict) : pydict :=
  let payload : pydict :=
    [ ("task_id", at_id task);
      ("agent_id", PStr (agent_id rt));
      ("agent_type", PStr (agent_type rt));
      ("message", PStr message) ] in
  let payload :=
    match progress with
    | Some p => Dict.set "progress" (PDict p) payload
    | None => payload
    end in
  match extra with
  | Some e => if py_truthy (PDict e) then Dict.update e payload else payload
  | None => payload
  end.

(** [emit_update(task, message, progress, extra)]; the runtime afterwards
    carries the refreshed heartbeat. *)
Definition emit_update (rt : AgentRuntime) (task : AgentTask) (message : string)
    (progress extra : option pydict) : M AgentRuntime :=
  payload <- lift (_enforce_policy (update_payload rt task message progress extra)) ;;
  _append_event task "AGENT_UPDATE" payload ;;;
  now <- read_clock ;;
  ret (mkAgentRuntime (agent_id rt) (agent_type rt) (heartbeat_interval rt) (Some now)).

Definition py_opt_str (o : option string) : pyval :=
  match o with Some s => PStr s | None => PNone end.

Definition py_opt_list (o : option (list pyval)) : pyval :=
  match o with Some l => PList l | None => PNone end.

(** The payload [complete_task] builds. *)
Definition result_payload (rt : AgentRuntime) (result : AgentResult) : pydict :=
  [ ("task_id", PStr (ar_task_id result));
    ("agent_id", PStr (agent_id rt));
    ("agent_type", PStr (agent_type rt));
    ("outcome", PStr (ar_outcome result));
    ("artifacts", PList (ar_artifacts result));
    ("notes", py_opt_str (ar_notes result));
    ("next_actions", py_opt_list (ar_next_actions result)) ].

(** [complete_task(task, result)] *)
Definition complete_task (rt : AgentRuntime) (task : AgentTask) (result : AgentResult)
    : M pydict :=
  payload <- lift (_enforce_policy (result_payload rt result)) ;;
  _append_event task "AGENT_RESULT" payload ;;;
  update_task (at_id task)
    [ ("status", PStr "COMPLETED");
      ("outputs", PDict [("result", PDict payload)]) ].

(** The payload [fail_task] builds. *)
Definition error_payload (rt : AgentRuntime) (error : AgentError) : pydict :=
  [ ("task_id", PStr (ae_task_id error));
    ("agent_id", PStr (agent_id rt));
    ("agent_type", PStr (agent_type rt));
    ("outcome", PStr "failed");
    ("error", PDict (to_payload error)) ].

(** [fail_task(task, error)] *)
Definition fail_task (rt : AgentRuntime) (task : AgentTask) (error : AgentError)
    : M pydict :=
  payload <- lift (_enforce_policy (error_payload rt error)) ;;
  _append_event task "AGENT_RESULT" payload ;;;
  update_task (at_id task)
    [ ("status", PStr "FAILED");
      ("outputs", PDict [("error", PDict (to_payload error))]) ].

(** ** [backend/log/summarize.py] *)

Record Summary : Type := mkSummary {
  summary_conversation_id : string;
  content : string;
  summary_ref : string;
}.

(** [_stringify_event(event)] *)
Definition _stringify_event (event : pydict) : string :=
  match Dict.get_or "payload" PNone event with
  | PStr s => s
  | PDict d => json_dumps_sorted true (PDict d)
  | _ =>
      let message := Dict.get_or "message" PNone event in
      if py_truthy message then py_str message else "(no payload)"
  end.

(** [groups[group].append(item)] on the [defaultdict(list)]: a new group is
    added after the existing ones. *)
Fixpoint group_append (group item : string) (groups : list (string * list string))
    : list (string * list string) :=
  match groups with
  | [] => [(group, [item])]
  | (g, items) :: rest =>
      if String.eqb g group then (g, (items ++ [item])%list) :: rest
      else (g, items) :: group_append group item rest
  end.

Fixpoint group_items (group : string) (groups : list (string * list string)) : list string :=
  match groups with
  | [] => []
  | (g, items) :: rest => if String.eqb g group then items else group_items group rest
  end.

(** [sorted(keys)] on strings: insertion into an ascending list. *)
Fixpoint insert_sorted (s : string) (l : list string) : list string :=
  match l with
  | [] => [s]
  | t :: l' => if String.leb s t then s :: l else t :: insert_sorted s l'
  end.

Definition sorted_strings (l : list string) : list string :=
  foldr insert_sorted [] l.

(** The group of an event: its type tag, a string (a tag of another type is
    taken by its [str]). *)
Definition event_group (event : pydict) : string :=
  py_str (Dict.get_or "type" (PStr "UNKNOWN") event).

Definition summary_lines (events : list pydict) : list string :=
  let groups :=
    fold_left (fun acc event => group_append (event_group event) (_stringify_event event) acc)
              events [] in
  flat_map (fun group =>
              ("### " ++ group) :: List.map (fun item => "- " ++ item) (group_items group groups))
           (sorted_strings (List.map fst groups)).

(** [rolling_summary(conversation_id, events)] *)
Definition rolling_summary (conversation_id : string) (events : list pydict) : Summary :=
  let content := py_strip (String.concat nl (summary_lines events)) in
  mkSummary conversation_id content (sha256_hexdigest content).

(** [persist_summary(conversation_id, summary)]: overwrite
    [SUMMARIES_ROOT / f"{conversation_id}.md"]. *)
Definition persist_summary (conversation_id : string) (summary : Summary) : M unit :=
  fun w =>
    let header := "<!-- summary_ref:" ++ summary_ref summary ++ " -->" ++ nl in
    match summary_file conversation_id with
    | Opens file =>
        (Ok tt, set_summaries (<[file := header ++ content summary ++ nl]> (summaries w)) w)
    | Missing e | Unusable e => (Raise e, w)
    end.

(** ** [backend/orchestrator/controller_runner.py] *)

Definition SPEAK_HINTS : list string := ["user_waiting"; "task_completed"; "agent_failed"].
Definition TRIGGER_EVENT_TYPES : list string := ["ERROR"; "AGENT_RESULT"].

(** The gate of [decide]: a speak hint, or else a trigger among the last five
    events, scanned from the most recent one. *)
Definition speak_gate (hints : list string) (recent_events : list pydict) : bool :=
  let speak := existsb (fun h => bool_decide (h ∈ SPEAK_HINTS)) hints in
  if negb speak then
    existsb (fun event => py_in (Dict.get_or "type" PNone event) TRIGGER_EVENT_TYPES)
            (rev (slice_from (-5) recent_events))
  else speak.

(** [ControllerRunner.decide(hints, recent_events)] *)
Definition decide (hints : option (list string)) (recent_events : list pydict) : pydict :=
  let hints := default [] hints in
  let speak := speak_gate hints recent_events in
  [ ("speak_now", PBool speak);
    ("actions",
     PList [ PDict [ ("kind", PStr "reflect");
                     ("attention_hints", PList (List.map PStr hints));
                     ("recent_event_types",
                      PList (List.map (Dict.get_or "type" PNone)
                                      (slice_from (-3) recent_events))) ] ]);
    ("notes", PStr "Auto-gated via ControllerRunner") ].

(** [_render_payload(payload)] *)
Definition _render_payload (payload : pyval) : string :=
  match payload with
  | PNone => "(no payload)"
  | PStr s => s
  | _ => json_dumps_sorted false payload
  end.

(** One rendered line of the context window. *)
Definition render_event (event : pydict) : string :=
  "- [" ++ py_str (Dict.get_or "type" (PStr "EVENT") event) ++ "] "
        ++ _render_payload (Dict.get_or "payload" PNone event).

(** The pointer to the summary that closes the rendered text. *)
Definition summary_section (conversation_id : string) (summary : Summary) : string :=
  nl ++ "### Summaries" ++ nl ++ "- Ref " ++ summary_ref summary
     ++ " (see summaries/" ++ conversation_id ++ ".md)".

(** [build_context_slice(conversation_id, events, max_events)] *)
Definition build_context_slice (conversation_id : string) (events : list pydict)
    (max_events : Z) : M string :=
  let kept := slice_from (- max_events) events in
  let trimmed := slice_to (- max_events) events in
  let lines := List.map render_event kept in
  section <-
    match trimmed with
    | [] => ret ""
    | _ =>
        let summary := rolling_summary conversation_id trimmed in
        persist_summary conversation_id summary ;;;
        append_event
          [ ("conversation_id", PStr conversation_id);
            ("type", PStr "SUMMARY_REFRESH");
            ("payload", PDict [("summary_ref", PStr (summary_ref summary))]);
            ("visibility", PStr "internal") ] ;;;
        ret (summary_section conversation_id summary)
    end ;;
  ret (String.concat nl lines ++ section).

(** ** Concurrent claimants

    Workers share nothing but the stores.  A worker inside [poll_next_task]
    is either before its listing, between the listing and the update (holding
    the listing it read), or done.  Each store call is taken as one atomic
    step, which is the most the file locks of [store.py] can provide: every
    lock is released when its call returns. *)

Inductive claim_pc : Type :=
  | Polling
  | Listed (tasks : list pydict)
  | Claimed (outcome : result (option AgentTask)).

Definition claim_step (rt : AgentRuntime) (pc : claim_pc) (w : World) : claim_pc * World :=
  match pc with
  | Polling =>
      match list_active ["PENDING"] w with
      | (Ok tasks, w') => (Listed tasks, w')
      | (Raise e, w') => (Claimed (Raise e), w')
      end
  | Listed tasks =>
      let (r, w') := claim_first rt tasks w in (Claimed r, w')
  | Claimed r => (Claimed r, w)
  end.

(** Run a schedule: each entry names the worker that takes its next step. *)
Fixpoint run_schedule (schedule : list nat) (workers : list (AgentRuntime * claim_pc))
    (w : World) : list (AgentRuntime * claim_pc) * World :=
  match schedule with
  | [] => (workers, w)
  | i :: schedule' =>
      match workers !! i with
      | None => run_schedule schedule' workers w
      | Some (rt, pc) =>
          let (pc', w') := claim_step rt pc w in
          run_schedule schedule' (<[i := (rt, pc')]> workers) w'
      end
  end.

End WithPyLib.

(** ** The three operations through which a worker writes events *)

Inductive agent_op : Type :=
  | EmitUpdate (message : string) (progress extra : option pydict)
  | CompleteTask (result : AgentResult)
  | FailTask (error : AgentError).

Section Operations.

Context `{!PyLib} {disk : FileSystem}.

(** The payload the operation hands to [_enforce_policy]. *)
Definition op_payload (rt : AgentRuntime) (task : AgentTask) (op : agent_op) : pydict :=
  match op with
  | EmitUpdate message progress extra => update_payload rt task message progress extra
  | CompleteTask result => result_payload rt result
  | FailTask error => error_payload rt error
  end.

Definition run_op (rt : AgentRuntime) (task : AgentTask) (op : agent_op) : M unit :=
  match op with
  | EmitUpdate message progress extra =>
      emit_update rt task message progress extra ;;; ret tt
  | CompleteTask result => complete_task rt task result ;;; ret tt
  | FailTask error => fail_task rt task error ;;; ret tt
  end.

End Operations.

(** The lines of a journal, [[]] when the file does not exist. *)
Definition journal (w : World) (file : string) : list pydict :=
  default [] (journals w !! file).

Definition is_internal (event : pydict) : Prop :=
  Dict.get "visibility" event = Some (PStr "internal").

(** ** Vocabulary of the properties *)

Section Vocabulary.

Context `{!PyLib} {disk : FileSystem}.

(** The ids of the registry, task by task. *)
Definition task_ids (tasks : list pydict) : list (option pyval) :=
  Dict.get "id" <$> tasks.

(** The patch of a claim. *)
Definition claim_patch (rt : AgentRuntime) (attempt : Z) : pydict :=
  [ ("status", PStr "IN_PROGRESS");
    ("owner", PStr (agent_id rt));
    ("attempt", PInt attempt) ].

(** The node a claim at instant [now] leaves in the registry. *)
Definition claimed_node (rt : AgentRuntime) (now : string) (attempt : Z) (node : pydict)
    : pydict :=
  Dict.set "updated_at" (PStr now) (Dict.update (claim_patch rt attempt) node).

(** The agent task read off a node. *)
Definition agent_task_of (id : pyval) (node : pydict) : AgentTask :=
  mkAgentTask id
    (Dict.get_or "type" (PStr "unknown") node)
    (Dict.get_or "status" (PStr "UNKNOWN") node)
    (Dict.get_or "owner" PNone node)
    (Dict.get_or "priority" (PInt 0) node)
    (Dict.get_or "inputs" (PDict []) node)
    (Dict.get_or "context" (PDict []) node)
    (Dict.get_or "metadata" (PDict []) node)
    (Dict.get_or "attempt" (PInt 0) node).

(** The entry [append_event] writes for a draft, given the uuid and the
    instant it draws. *)
Definition stamped_entry (event : pydict) (fresh : string) (instant : Z) : pydict :=
  Dict.set "timestamp" (PStr (isoformat_utc instant))
    (Dict.setdefault "id" (PStr ("evt-" ++ fresh))
       (Dict.setdefault "conversation_id" (Dict.get_or "conversation_id" PNone event) event)).


(** A computation that never writes to a journal. *)
Definition keeps_journals {A} (m : M A) : Prop :=
  ∀ w r w', m w = (r, w') → journals w' = journals w.

(** A computation that appends at most one entry, an internal one, and
    otherwise leaves every journal as it was. *)
Definition appends_internal {A} (m : M A) : Prop :=
  ∀ w r w', m w = (r, w') →
    ∀ file, ∃ new,
      journal w' file = (journal w file ++ new)%list
      ∧ Forall is_internal new
      ∧ (length new ≤ 1)%nat.

(** An event whose type is one of the trigger types. *)
Definition is_trigger (event : pydict) : Prop :=
  ∃ ty, Dict.get "type" event = Some (PStr ty) ∧ ty ∈ TRIGGER_EVENT_TYPES.

(** The artifact [persist_summary] writes for a summary. *)
Definition artifact (summary : Summary) : string :=
  let header := "<!-- summary_ref:" ++ summary_ref summary ++ " -->" ++ nl in
  header ++ content summary ++ nl.

(** The draft of the SUMMARY_REFRESH event. *)
Definition refresh_event (conv ref : string) : pydict :=
  [ ("conversation_id", PStr conv);
    ("type", PStr "SUMMARY_REFRESH");
    ("payload", PDict [("summary_ref", PStr ref)]);
    ("visibility", PStr "internal") ].

End Vocabulary.

(** ** The claim policy in the words of the specification

    "Among tasks with status PENDING and type equal to the agent's, the
    earliest-created one, ties broken by id": the least eligible task in the
    order of [created_at], then [id].  Used only to compare the code's choice
    with. *)

Definition str_field (k : string) (task : pydict) : string :=
  match Dict.get k task with
  | Some (PStr s) => s
  | _ => ""
  end.

Definition spec_earlier (a b : pydict) : bool :=
  match String.compare (str_field "created_at" a) (str_field "created_at" b) with
  | Lt => true
  | Gt => false
  | Eq => String.leb (str_field "id" a) (str_field "id" b)
  end.

Definition eligible (agent_type : string) (task : pydict) : bool :=
  status_in ["PENDING"] task
  && py_eqb (Dict.get_or "type" PNone task) (PStr agent_type).

Definition spec_choice (agent_type : string) (tasks : list pydict) : option pydict :=
  foldr (fun task best =>
           if eligible agent_type task then
             match best with
             | Some b => if spec_earlier task b then Some task else Some b
             | None => Some task
             end
           else best)
        None tasks.

(** Every task has a string id, no two tasks share one, and every attempt
    counter is an integer: the registries that [create_task] builds from
    drafts with distinct string ids and integer attempts. *)
Definition registry_ok (tasks : list pydict) : Prop :=
  (∃ ids : list string,
      Dict.get "id" <$> tasks = (fun s => Some (PStr s)) <$> ids
      ∧ NoDup ids)
  ∧ Forall (fun task => ∃ n, Dict.get_or "attempt" (PInt 0) task = PInt n) tasks.

(** ** More of [backend/log/query.py] *)

(** The journal files in the order of [sorted(LOG_ROOT.glob("*.jsonl"))]:
    by file name. *)
Fixpoint insert_file (file : string * list pydict) (files : list (string * list pydict))
    : list (string * list pydict) :=
  match files with
  | [] => [file]
  | f :: rest =>
      if String.leb (file.1 ++ ".jsonl") (f.1 ++ ".jsonl") then file :: files
      else f :: insert_file file rest
  end.

Definition journal_files (w : World) : list (string * list pydict) :=
  foldr insert_file []
        (List.filter (fun file => in_directory file.1) (map_to_list (journals w))).

(** [_iter_all_events()]: the entries of every journal directly in [logs/],
    file after file. *)
Definition _iter_all_events (w : World) : list pydict :=
  flat_map snd (journal_files w).

(** [item["timestamp"]], the key of [results.sort]: the keys of all entries
    are computed before any comparison, so a missing timestamp is a
    [KeyError] whatever the other keys are. *)
Definition timestamp_key (entry : pydict) : result pyval :=
  match Dict.get "timestamp" entry with
  | None => Raise (KeyError "timestamp")
  | Some key => Ok key
  end.

Fixpoint timestamp_keys (entries : list pydict) : result (list (pyval * pydict)) :=
  match entries with
  | [] => Ok []
  | entry :: rest =>
      match timestamp_key entry with
      | Raise e => Raise e
      | Ok key =>
          match timestamp_keys rest with
          | Raise e => Raise e
          | Ok keyed => Ok ((key, entry) :: keyed)
          end
      end
  end.

(** [a < b] on JSON values: numbers (booleans among them) by value, strings
    by code point, lists by their first differing element (found with [==])
    or else by length; any other pair is a [TypeError]. *)
Fixpoint py_lt (a b : pyval) : result bool :=
  match a, b with
  | PBool x, PBool y => Ok (Z.b2z x <? Z.b2z y)
  | PBool x, PInt n => Ok (Z.b2z x <? n)
  | PInt n, PBool y => Ok (n <? Z.b2z y)
  | PInt m, PInt n => Ok (m <? n)
  | PStr s, PStr t => Ok (String.ltb s t)
  | PList l, PList l' =>
      (fix go (l l' : list pyval) : result bool :=
         match l, l' with
         | [], [] => Ok false
         | [], _ :: _ => Ok true
         | _ :: _, [] => Ok false
         | x :: l, y :: l' => if py_eqb x y then go l l' else py_lt x y
         end) l l'
  | _, _ => Raise (TypeError "'<' not supported")
  end.

(** [list.sort(key=...)] compares keys with [<] only and is stable: an entry
    goes after the entries that followed it and have a smaller key, and
    before the others.  A list of at most one entry is sorted without any
    comparison.  (Python's merge sort makes other comparisons than this
    insertion sort; on keys that [<] orders, all strings or all numbers, the
    stable result is the same, and keys of two kinds, or [None] or a [dict]
    among two keys or more, make every sort raise [TypeError].) *)
Fixpoint insert_by_key (x : pyval * pydict) (sorted : list (pyval * pydict))
    : result (list (pyval * pydict)) :=
  match sorted with
  | [] => Ok [x]
  | y :: rest =>
      match py_lt y.1 x.1 with
      | Raise e => Raise e
      | Ok false => Ok (x :: sorted)
      | Ok true =>
          match insert_by_key x rest with
          | Raise e => Raise e
          | Ok placed => Ok (y :: placed)
          end
      end
  end.

Fixpoint sort_by_key (keyed : list (pyval * pydict)) : result (list (pyval * pydict)) :=
  match keyed with
  | [] => Ok []
  | x :: rest =>
      match sort_by_key rest with
      | Raise e => Raise e
      | Ok sorted => insert_by_key x sorted
      end
  end.

(** An entry keyed by a string. *)
Definition string_key (p : pyval * pydict) : Prop := ∃ s, p.1 = PStr s.

(** Two keyed entries with string keys, in the order of the strings. *)
Definition key_le (a b : pyval * pydict) : Prop :=
  ∃ s t, a.1 = PStr s ∧ b.1 = PStr t ∧ String.le s t.

(** The filter of [by_type]: the type is one of [event_types] and, when a
    visibility is asked for, the visibility is that one. *)
Definition type_matches (event_types : list string) (visibility : option string)
    (entry : pydict) : bool :=
  py_in (Dict.get_or "type" PNone entry) event_types
  && match visibility with
     | Some v =>
         if py_truthy (PStr v) then py_eqb (Dict.get_or "visibility" PNone entry) (PStr v)
         else true
     | None => true
     end.

(** [by_type(event_types, visibility)] *)
Definition by_type (event_types : list string) (visibility : option string)
    : M (list pydict) :=
  fun w =>
    let results := List.filter (type_matches event_types visibility) (_iter_all_events w) in
    match timestamp_keys results with
    | Raise e => (Raise e, w)
    | Ok keyed =>
        match sort_by_key keyed with
        | Raise e => (Raise e, w)
        | Ok sorted => (Ok (List.map snd sorted), w)
        end
    end.

(** Two entries in the order of their timestamp strings.  This is the order
    of the text, not always that of the instants: [isoformat] leaves out the
    fraction of a whole second, and ["...:20Z"] sorts after
    ["...:20.500000Z"]. *)
Definition timestamp_le (a b : pydict) : Prop :=
  ∃ s t, Dict.get "timestamp" a = Some (PStr s)
         ∧ Dict.get "timestamp" b = Some (PStr t)
         ∧ String.le s t.

(** ** More of [backend/agents/runtime.py] *)

(** The draft [_append_event] hands to the log. *)
Definition agent_event (conv : pyval) (kind : string) (payload : pydict) : pydict :=
  [ ("conversation_id", conv);
    ("type", PStr kind);
    ("payload", PDict payload);
    ("visibility", PStr "internal") ].

(** ** [BaseAgent] of [backend/agents/base.py] *)

(** How [handle_task] ends: it returns a result or raises [AgentError]. *)
Inductive handled : Type :=
  | Returned (result : AgentResult)
  | Refused (error : AgentError).

(** An agent is its [handle_task] and its four hooks.  Each is handed the
    runtime, an object whose attributes it may change ([emit_update] sets the
    heartbeat), and so each hands the runtime on; the task is read, not
    changed.  An exception other than the [AgentError] of [handle_task] is a
    [Raise] of the computation. *)
Record BaseAgent : Type := mkBaseAgent {
  handle_task : AgentTask → AgentRuntime → M (handled * AgentRuntime);
  on_assign : AgentTask → AgentRuntime → M AgentRuntime;
  on_complete : AgentTask → AgentResult → AgentRuntime → M AgentRuntime;
  on_progress : AgentTask → AgentRuntime → M AgentRuntime;
  on_error : AgentTask → AgentError → AgentRuntime → M AgentRuntime;
}.

(** The hooks as [BaseAgent] defines them: they do nothing. *)
Definition default_agent
    (handle : AgentTask → AgentRuntime → M (handled * AgentRuntime)) : BaseAgent :=
  mkBaseAgent handle
    (fun _ runtime => ret runtime)
    (fun _ _ runtime => ret runtime)
    (fun _ runtime => ret runtime)
    (fun _ _ runtime => ret runtime).

Section Agents.

Context `{!PyLib} {disk : FileSystem}.

(** The common shape of [complete_task] and [fail_task]: the event, then the
    update of the task. *)
Definition log_then_update (task : AgentTask) (payload patch : pydict) : M pydict :=
  _append_event task "AGENT_RESULT" payload ;;; update_task (at_id task) patch.

(** [BaseAgent.execute_once(runtime)]: the result, and the runtime as the
    call leaves it. *)
Definition execute_once (agent : BaseAgent) (runtime : AgentRuntime)
    : M (option AgentResult * AgentRuntime) :=
  task <- poll_next_task runtime ;;
  match task with
  | None => ret (None, runtime)
  | Some task =>
      runtime <- on_assign agent task runtime ;;
      runtime <- on_progress agent task runtime ;;
      outcome <- handle_task agent task runtime ;;
      match outcome with
      | (Refused error, runtime) =>
          runtime <- on_error agent task error runtime ;;
          fail_task runtime task error ;;;
          ret (None, runtime)
      | (Returned result, runtime) =>
          runtime <- on_complete agent task result runtime ;;
          complete_task runtime task result ;;;
          ret (Some result, runtime)
      end
  end.

End Agents.

(** A computation that leaves the tasks of the registry as they are; it may
    add tasks after them. *)
Definition keeps_tasks {A} (m : M A) : Prop :=
  ∀ w r w', m w = (r, w') → ∃ new, registry w' = (registry w ++ new)%list.

(** An agent whose handler and hooks update no task: they may log, and
    create tasks. *)
Definition updates_no_task (agent : BaseAgent) : Prop :=
  (∀ task runtime, keeps_tasks (handle_task agent task runtime))
  ∧ (∀ task runtime, keeps_tasks (on_assign agent task runtime))
  ∧ (∀ task runtime, keeps_tasks (on_progress agent task runtime))
  ∧ (∀ task result runtime, keeps_tasks (on_complete agent task result runtime))
  ∧ (∀ task error runtime, keeps_tasks (on_error agent task error runtime)).

(** ** More of [backend/orchestrator/controller_runner.py] *)

(** [s.replace(token, value)] for a token that is not empty: the occurrences
    are replaced from left to right, no two of them overlapping.  [skip]
    counts the characters of the occurrence just replaced that are still to
    be dropped. *)
Fixpoint replace_from (token value : string) (skip : nat) (s : string) : string :=
  match s with
  | EmptyString => EmptyString
  | String c rest =>
      match skip with
      | S n => replace_from token value n rest
      | O =>
          if String.prefix token s then
            value ++ replace_from token value (String.length token - 1) rest
          else String c (replace_from token value 0 rest)
      end
  end.

(** With an empty token, [value] goes before every character and at the
    end. *)
Fixpoint interleave (value s : string) : string :=
  match s with
  | EmptyString => value
  | String c rest => value ++ String c (interleave value rest)
  end.

Definition str_replace (token value s : string) : string :=
  match token with
  | EmptyString => interleave value s
  | _ => replace_from token value 0 s
  end.

Record ControllerRunner : Type := mkControllerRunner {
  max_events : Z;
  controller_template : string;
  narrator_template : string;
}.

(** The draft of the event that records a suppressed narration. *)
Definition suppressed_event (conversation_id : string) (actions : list pyval) : pydict :=
  [ ("conversation_id", PStr conversation_id);
    ("type", PStr "NARRATION_SUPPRESSED");
    ("payload", PDict [("reason", PStr "speak_now=false"); ("actions", PList actions)]);
    ("visibility", PStr "internal") ].

Section Narrator.

Context `{!PyLib} {disk : FileSystem}.

(** [json.dumps(v, ensure_ascii=False)], keys in insertion order. *)
Variable json_dumps : pyval → string.

(** [ControllerRunner.build_narrator_prompt(actions, context_markdown,
    speak_now, conversation_id)]: the placeholders are replaced one after the
    other, in the order of the dictionary literal. *)
Definition build_narrator_prompt (self : ControllerRunner) (actions : list pyval)
    (context_markdown : string) (speak_now : bool) (conversation_id : string)
    : M (option string) :=
  if negb speak_now then
    append_event (suppressed_event conversation_id actions) ;;;
    ret None
  else
    let narration_context :=
      if py_truthy (PStr (py_strip context_markdown)) then py_strip context_markdown
      else "No recent context." in
    let placeholder_values :=
      [ ("{{NARRATION_CONTEXT}}", narration_context);
        ("{{USER_CONTEXT}}", json_dumps (PList actions));
        ("{{SPEAK_INSTRUCTIONS}}",
         "Respond concisely and acknowledge prior context before sharing new insights.") ] in
    ret (Some (fold_left (fun prompt tv => str_replace tv.1 tv.2 prompt)
                         placeholder_values (narrator_template self))).

End Narrator.

(** ** A concrete library and concrete worlds for the examples *)

Fixpoint pad_dec (width : nat) (n : Z) : string :=
  match width with
  | O => ""
  | S k => pad_dec k (n / 10)
           ++ String (Ascii.ascii_of_nat (48 + Z.to_nat (n mod 10))) EmptyString
  end.

Fixpoint dec_digits (fuel : nat) (n : Z) : string :=
  match fuel with
  | O => ""
  | S k => (if n <? 10 then "" else dec_digits k (n / 10))
           ++ String (Ascii.ascii_of_nat (48 + Z.to_nat (n mod 10))) EmptyString
  end.

Definition dec (n : Z) : string :=
  if n <? 0 then "-" ++ dec_digits 40 (- n) else dec_digits 40 n.

(** The proleptic Gregorian date of a day count since 1970-01-01. *)
Definition civil_from_days (days : Z) : Z * Z * Z :=
  let z := days + 719468 in
  let era := z / 146097 in
  let doe := z - era * 146097 in
  let yoe := (doe - doe / 1460 + doe / 36524 - doe / 146096) / 365 in
  let doy := doe - (365 * yoe + yoe / 4 - yoe / 100) in
  let mp := (5 * doy + 2) / 153 in
  let d := doy - (153 * mp + 2) / 5 + 1 in
  let m := if mp <? 10 then mp + 3 else mp - 9 in
  let y := yoe + era * 400 + (if m <=? 2 then 1 else 0) in
  (y, m, d).

Definition demo_isoformat (micros : Z) : string :=
  let secs := micros / 1000000 in
  let frac := micros mod 1000000 in
  let '(y, m, d) := civil_from_days (secs / 86400) in
  let s := secs mod 86400 in
  pad_dec 4 y ++ "-" ++ pad_dec 2 m ++ "-" ++ pad_dec 2 d ++ "T"
    ++ pad_dec 2 (s / 3600) ++ ":" ++ pad_dec 2 (s mod 3600 / 60) ++ ":" ++ pad_dec 2 (s mod 60)
    ++ (if frac =? 0 then "" else "." ++ pad_dec 6 frac) ++ "Z".

Definition is_space (c : Ascii.ascii) : bool :=
  let n := Ascii.nat_of_ascii c in
  ((9 <=? n) && (n <=? 13))%nat || (n =? 32)%nat.

Fixpoint lstrip (s : string) : string :=
  match s with
  | String c s' => if is_space c then lstrip s' else s
  | EmptyString => EmptyString
  end.

Fixpoint rstrip (s : string) : string :=
  match s with
  | String c s' =>
      match rstrip s' with
      | EmptyString => if is_space c then EmptyString else String c EmptyString
      | r => String c r
      end
  | EmptyString => EmptyString
  end.

(** A plain rendering of JSON values (keys in the order given, no escapes):
    enough for the values of the examples. *)
Fixpoint demo_json (v : pyval) : string :=
  match v with
  | PNone => "null"
  | PBool b => if b then "true" else "false"
  | PInt n => dec n
  | PStr s => String (Ascii.ascii_of_nat 34) s ++ String (Ascii.ascii_of_nat 34) ""
  | PList l =>
      "[" ++ String.concat ", " (List.map demo_json l) ++ "]"
  | PDict d =>
      "{" ++ String.concat ", "
               (List.map (fun kv => String (Ascii.ascii_of_nat 34) (fst kv)
                                    ++ String (Ascii.ascii_of_nat 34) ": "
                                    ++ demo_json (snd kv)) d)
          ++ "}"
  end.

(** The examples run with the real [isoformat] and [strip]; the digest is a
    stand-in that only marks what was hashed. *)
Definition demo_lib : PyLib := {|
  isoformat_utc := demo_isoformat;
  sha256_hexdigest := fun s => "sha256:" ++ dec (Z.of_nat (String.length s));
  json_dumps_sorted := fun _ v => demo_json v;
  py_repr := demo_json;
  py_strip := fun s => lstrip (rstrip s);
|}.

(** A file system for the examples: data directories that hold no
    subdirectory, under a root that cannot be written, with names of up to
    255 bytes.  A path is split at its separators; empty components and [.]
    are dropped, as [pathlib] does. *)
Fixpoint path_components (s : string) : list string :=
  match s with
  | EmptyString => [EmptyString]
  | String c rest =>
      if Ascii.eqb c slash then EmptyString :: path_components rest
      else
        match path_components rest with
        | [] => [String c EmptyString]
        | component :: components => String c component :: components
        end
  end.

Fixpoint no_nul (s : string) : bool :=
  match s with
  | EmptyString => true
  | String c rest => negb (Ascii.eqb c Ascii.zero) && no_nul rest
  end.

Definition demo_open (suffix id : string) : resolved :=
  let name := id ++ suffix in
  if negb (no_nul name) then Missing (ValueError "embedded null byte")
  else
    let components :=
      List.filter (fun c => negb (String.eqb c "" || String.eqb c "."))
                  (path_components name) in
    if String.prefix "/" name || existsb (String.eqb "..") components then
      Missing (OSError "[Errno 13] Permission denied")
    else
      match components with
      | [file] =>
          if (String.length file <=? 255)%nat then
            Opens (String.substring 0 (String.length file - String.length suffix) file)
          else Unusable (OSError "[Errno 36] File name too long")
      | _ => Missing (OSError "[Errno 2] No such file or directory")
      end.

Definition demo_fs : FileSystem.
Proof.
  assert (Hplain : ∀ suffix id,
             name_chars suffix = true →
             (3 ≤ String.length suffix ≤ 6)%nat →
             plain_name 255 id = true →
             demo_open suffix id = Opens id).
  { intros suffix id Hsuffix Hlen Hid.
    apply andb_prop in Hid as [Hchars Hmax]. apply Nat.leb_le in Hmax.
    assert (Hname : name_chars (id ++ suffix) = true).
    { clear Hmax. induction id as [|c id IH]; [done|].
      change (String c id ++ suffix) with (String c (id ++ suffix)).
      cbn [name_chars] in *.
      apply andb_prop in Hchars as [Hc Hchars]. by rewrite Hc, IH. }
    assert (Hlength : String.length (id ++ suffix)
                      = (String.length id + String.length suffix)%nat).
    { clear. induction id as [|c id IH]; [done|].
      change (String c id ++ suffix) with (String c (id ++ suffix)).
      cbn [String.length]. by rewrite IH. }
    assert (Hnul : ∀ s, name_chars s = true → no_nul s = true).
    { clear. induction s as [|c s IH]; [done|]. cbn [name_chars no_nul]. unfold name_char.
      intros Hs. apply andb_prop in Hs as [Hc Hs]. apply andb_prop in Hc as [_ Hc].
      by rewrite Hc, IH. }
    assert (Hone : ∀ s, name_chars s = true → path_components s = [s]).
    { clear. induction s as [|c s IH]; [done|]. cbn [name_chars path_components].
      unfold name_char.
      intros Hs. apply andb_prop in Hs as [Hc Hs]. apply andb_prop in Hc as [Hc _].
      apply negb_true_iff in Hc. by rewrite Hc, IH. }
    assert (Hfirst : ∀ s, name_chars s = true → String.prefix "/" s = false).
    { clear. intros [|c s]; [done|]. cbn [name_chars]. unfold name_char.
      intros Hs. apply andb_prop in Hs as [Hc _]. apply andb_prop in Hc as [Hc _].
      apply negb_true_iff, Ascii.eqb_neq in Hc.
      change (String.prefix "/" (String c s))
        with (if Ascii.ascii_dec slash c then String.prefix "" s else false).
      by destruct (Ascii.ascii_dec slash c) as [<-|_]. }
    assert (Hcut : String.substring 0 (String.length id) (id ++ suffix) = id).
    { clear. induction id as [|c id IH]; [by destruct suffix|].
      change (String c id ++ suffix) with (String c (id ++ suffix)).
      cbn [String.length String.substring]. by rewrite IH. }
    unfold demo_open. cbv zeta.
    rewrite (Hnul _ Hname), (Hone _ Hname), (Hfirst _ Hname). cbn [negb List.filter].
    assert (Hdistinct : ∀ short, (String.length short < 3)%nat →
                                 String.eqb (id ++ suffix) short = false).
    { intros short Hshort. apply String.eqb_neq. intros Heq.
      rewrite <- Heq, Hlength in Hshort. lia. }
    assert (Hdots : String.eqb ".." (id ++ suffix) = false).
    { rewrite String.eqb_sym. apply Hdistinct. cbn. lia. }
    rewrite (Hdistinct "") by (cbn; lia). rewrite (Hdistinct ".") by (cbn; lia).
    cbn [orb negb existsb]. rewrite Hdots. cbn [orb].
    rewrite Hlength.
    replace (String.length id + String.length suffix <=? 255)%nat with true
      by (symmetry; apply Nat.leb_le; lia).
    replace (String.length id + String.length suffix - String.length suffix)%nat
      with (String.length id) by lia.
    by rewrite Hcut. }
  exact {| name_max := 255;
           log_file := demo_open ".jsonl";
           summary_file := demo_open ".md";
           log_file_plain := fun id => Hplain ".jsonl" id eq_refl ltac:(cbn; lia);
           summary_file_plain := fun id => Hplain ".md" id eq_refl ltac:(cbn; lia) |}.
Defined.

(** A clock that advances one second per reading, then stops. *)
Definition demo_clock (n : nat) : Z :=
  nth n [ 1700000000000000; 1700000001000000; 1700000002000000;
          1700000003000000; 1700000004000000; 1700000005000000 ]
        1700000006000000.

Definition demo_uuid (n : nat) : string :=
  nth n [ "9f1c2b7e4a6d4c3f8e5a0b1d2c3e4f50";
          "0d4e8a1b6c2f4b7a9e3d5c7f1a2b3c4d";
          "5b7a9c1e3f2d4a6b8c0e2f4a6b8d0c1e";
          "c3e5a7b9d1f24b6d8a0c2e4f6a8b0d2f" ]
        "e1d3c5b7a9f04e2d8c6b4a2f0e1d3c5b".

Definition empty_world : World :=
  mkWorld [] ∅ ∅ demo_clock 0 demo_uuid 0.

Definition coder_1 : AgentRuntime := mkAgentRuntime "coder-1" "coder" 15 None.
Definition coder_2 : AgentRuntime := mkAgentRuntime "coder-2" "coder" 15 None.

(** A PENDING task of type "coder", as the tests create it. *)
Definition coder_draft (id : string) : pydict :=
  [ ("id", PStr id);
    ("type", PStr "coder");
    ("status", PStr "PENDING");
    ("owner", PNone);
    ("inputs", PDict [("input", PStr "build")]);
    ("outputs", PDict []);
    ("context", PDict [("summary_ids", PList [])]);
    ("metadata", PDict [("conversation_id", PStr "conv-1")]);
    ("priority", PInt 5) ].

Section Examples.

#[local] Existing Instance demo_lib.
#[local] Existing Instance demo_fs.

(** One PENDING coder task, created in the empty world. *)
Definition one_task_world : World :=
  (create_task (coder_draft "task-1") empty_world).2.

(** A search task followed by two coder tasks. *)
Definition three_task_world : World :=
  let w1 := (create_task (Dict.set "type" (PStr "search") (coder_draft "task-1"))
                         empty_world).2 in
  let w2 := (create_task (coder_draft "task-2") w1).2 in
  (create_task (coder_draft "task-3") w2).2.

(** Two coder tasks recorded with the same creation instant, [task-b] stored
    before [task-a]; and the same two stored the other way round. *)
Definition same_instant (id : string) : pydict :=
  Dict.set "created_at" (PStr "2023-11-14T22:13:20Z") (coder_draft id).

Definition tie_world : World :=
  (create_task (same_instant "task-a") (create_task (same_instant "task-b") empty_world).2).2.

Definition tie_world_swapped : World :=
  (create_task (same_instant "task-b") (create_task (same_instant "task-a") empty_world).2).2.

(** The task a worker holds after claiming [task-1]. *)
Definition held_task : AgentTask :=
  mkAgentTask (PStr "task-1") (PStr "coder") (PStr "IN_PROGRESS") (PStr "coder-1")
              (PInt 5) (PDict [("input", PStr "build")]) (PDict [("summary_ids", PList [])])
              (PDict [("conversation_id", PStr "conv-1")]) (PInt 1).

(** The same two tasks with different creation instants, the later one
    stored first. *)
Definition created_on (id day : string) : pydict :=
  Dict.set "created_at" (PStr (day ++ "T00:00:00Z")) (coder_draft id).

Definition late_first_world : World :=
  (create_task (created_on "task-early" "2023-01-01")
               (create_task (created_on "task-late" "2023-02-01") empty_world).2).2.

(** The id of the task a claim returned. *)
Definition claimed_id (outcome : result (option AgentTask) * World) : option pyval :=
  match outcome.1 with
  | Ok (Some task) => Some (at_id task)
  | _ => None
  end.

(** A field of the node a store call returned. *)
Definition returned_field (k : string) (outcome : result pydict * World) : option pyval :=
  match outcome.1 with
  | Ok node => Dict.get k node
  | Raise _ => None
  end.

(** The draft of the store's own test: no id, no creation instant. *)
Definition analysis_draft : pydict :=
  [ ("type", PStr "analysis");
    ("status", PStr "PENDING");
    ("owner", PStr "planner");
    ("inputs", PDict [("question", PStr "status")]);
    ("outputs", PDict []);
    ("dependency_ids", PList []) ].

Definition backdated_draft : pydict :=
  Dict.set "created_at" (PStr "2020-01-01T00:00:00Z") analysis_draft.

(** Forty TASK_STATUS events, as in the test of the context window. *)
Definition status_event (i : nat) : pydict :=
  [ ("type", PStr "TASK_STATUS");
    ("payload", PDict [("message", PStr ("#" ++ dec (Z.of_nat i)))]) ].

Definition forty_events : list pydict := List.map status_event (seq 0 40).

Definition user_message (text : string) : pydict :=
  [ ("conversation_id", PStr "alpha");
    ("type", PStr "USER_MESSAGE");
    ("payload", PDict [("text", PStr text)]);
    ("visibility", PStr "user") ].





End Examples.

(** ** Further worlds and agents for the examples *)

Section MoreExamples.

#[local] Existing Instance demo_lib.
#[local] Existing Instance demo_fs.

(** The registry after [coder-1] has claimed [task-1]. *)
Definition claimed_world : World :=
  (poll_next_task coder_1 one_task_world).2.

(** A task that no registry holds. *)
Definition ghost_task : AgentTask :=
  mkAgentTask (PStr "ghost") (PStr "coder") (PStr "IN_PROGRESS") (PStr "coder-1")
              (PInt 0) (PDict []) (PDict [])
              (PDict [("conversation_id", PStr "conv-1")]) (PInt 1).

Definition note_result (task_id : string) : AgentResult :=
  mkAgentResult task_id "success"
    [PDict [("type", PStr "note"); ("value", PStr "done")]] (Some "complete") (Some []).

Definition timeout_error : AgentError :=
  mkAgentError "task-1" "timeout" true [("after_seconds", PInt 30)].

(** The agent of the runtime's own test: it reports progress once and
    succeeds. *)
Definition echo_agent : BaseAgent :=
  default_agent
    (fun task runtime =>
       runtime <- emit_update runtime task "working" (Some [("step", PInt 1)]) None ;;
       ret (Returned (note_result (py_str (at_id task))), runtime)).

(** An agent that gives up on every task. *)
Definition refusing_agent : BaseAgent :=
  default_agent (fun task runtime => ret (Refused timeout_error, runtime)).

Definition searcher : AgentRuntime := mkAgentRuntime "search-1" "search" 15 None.

(** A draft that brings its own id and timestamp. *)
Definition labelled_message : pydict :=
  [ ("conversation_id", PStr "alpha");
    ("id", PStr "evt-mine");
    ("timestamp", PStr "1999-12-31T23:59:59Z");
    ("type", PStr "USER_MESSAGE") ].

Definition beta_result : pydict :=
  [ ("conversation_id", PStr "beta");
    ("type", PStr "AGENT_RESULT");
    ("payload", PDict [("outcome", PStr "success")]);
    ("visibility", PStr "internal") ].

(** Three messages in the journal [alpha]. *)
Definition alpha_world : World :=
  (append_event (user_message "three")
     (append_event (user_message "two")
        (append_event (user_message "one") empty_world).2).2).2.

(** Two journals: a result logged to [beta] first, then a message to
    [alpha], then another result to [beta]. *)
Definition two_journal_world : World :=
  (append_event beta_result
     (append_event (user_message "one")
        (append_event beta_result empty_world).2).2).2.

(** The result of a query, [[]] when it raised. *)
Definition found_entries (outcome : result (list pydict) * World) : list pydict :=
  match outcome.1 with
  | Ok entries => entries
  | Raise _ => []
  end.

End MoreExamples.

(** * Properties *)

(** ** Dictionaries, equality, slices *)

Lemma get_set_eq k v d : Dict.get k (Dict.set k v d) = Some v.
Proof.
  induction d as [|[k' v'] d IH]; simpl.
  - by rewrite String.eqb_refl.
  - destruct (String.eqb k' k) eqn:E; simpl; rewrite E; auto.
Qed.

Lemma get_set_ne k k' v d : k ≠ k' → Dict.get k' (Dict.set k v d) = Dict.get k' d.
Proof.
  intros Hne. induction d as [|[k0 v0] d IH]; simpl.
  - destruct (String.eqb k k') eqn:E; [|done].
    apply String.eqb_eq in E. contradiction.
  - destruct (String.eqb k0 k) eqn:E; simpl.
    + apply String.eqb_eq in E. subst k0.
      destruct (String.eqb k k') eqn:E'; [|done].
      apply String.eqb_eq in E'. contradiction.
    + by rewrite IH.
Qed.

Lemma get_update_None k patch d :
  Dict.get k patch = None → Dict.get k (Dict.update patch d) = Dict.get k d.
Proof.
  unfold Dict.update. revert d.
  induction patch as [|[k0 v0] patch IH]; intros d Hk; simpl in *; [done|].
  destruct (String.eqb k0 k) eqn:E; [done|].
  rewrite IH by done. apply get_set_ne.
  intros ->. by rewrite String.eqb_refl in E.
Qed.

Lemma get_setdefault_ne k k' v d :
  k ≠ k' → Dict.get k' (Dict.setdefault k v d) = Dict.get k' d.
Proof.
  intros Hne. unfold Dict.setdefault. destruct (Dict.mem k d); [done|].
  by apply get_set_ne.
Qed.

Lemma get_setdefault_eq k v d :
  Dict.get k (Dict.setdefault k v d) = Some (Dict.get_or k v d).
Proof.
  unfold Dict.setdefault, Dict.mem, Dict.get_or.
  destruct (Dict.get k d) eqn:E; simpl; [done|]. apply get_set_eq.
Qed.

Lemma get_pop_eq k d : Dict.get k (Dict.pop k d) = None.
Proof.
  unfold Dict.pop. induction d as [|[k' v'] d IH]; [done|].
  destruct (String.eqb_spec k' k) as [->|Hne].
  - by rewrite filter_cons_False by (simpl; auto).
  - rewrite filter_cons_True by done. simpl.
    by destruct (String.eqb_spec k' k).
Qed.

Lemma get_pop_ne k k' d : k ≠ k' → Dict.get k' (Dict.pop k d) = Dict.get k' d.
Proof.
  intros Hne. unfold Dict.pop. induction d as [|[k0 v0] d IH]; [done|].
  destruct (String.eqb_spec k0 k) as [->|H0].
  - rewrite filter_cons_False by (simpl; auto). simpl.
    by destruct (String.eqb_spec k k').
  - rewrite filter_cons_True by done. simpl. by rewrite IH.
Qed.

Lemma string_app_nil_r (s : string) : s ++ "" = s.
Proof.
  induction s as [|c s IH]; [done|].
  change (String c s ++ "") with (String c (s ++ "")). by rewrite IH.
Qed.

(** Reading a key back through a chain of assignments. *)
Ltac dict_simpl :=
  repeat first [ rewrite get_set_eq | rewrite get_set_ne by done ].

(** [l[-n:]] for a positive [n] is the last [n] elements of [l]. *)
Lemma slice_from_neg {A} (n : Z) (l : list A) :
  0 < n → slice_from (- n) l = drop (length l - Z.to_nat n) l.
Proof.
  intros Hn. unfold slice_from, slice_index. f_equal.
  destruct (- n <? 0) eqn:E; [|apply Z.ltb_ge in E; lia]. lia.
Qed.

(** [l[:-n]] for a positive [n] is [l] without its last [n] elements. *)
Lemma slice_to_neg {A} (n : Z) (l : list A) :
  0 < n → slice_to (- n) l = take (length l - Z.to_nat n) l.
Proof.
  intros Hn. unfold slice_to, slice_index. f_equal.
  destruct (- n <? 0) eqn:E; [|apply Z.ltb_ge in E; lia]. lia.
Qed.

Lemma slice_from_zero {A} (l : list A) : slice_from 0 l = l.
Proof. unfold slice_from, slice_index. simpl. by replace (Z.to_nat _) with 0%nat by lia. Qed.

Lemma slice_to_zero {A} (l : list A) : slice_to 0 l = [].
Proof. unfold slice_to, slice_index. simpl. by replace (Z.to_nat _) with 0%nat by lia. Qed.

(** ** The task registry *)

Section StoreProperties.

Context `{!PyLib} {disk : FileSystem}.

Lemma find_task_split task_id tasks before node after :
  find_task task_id tasks = Ok (before, node, after) →
  tasks = (before ++ node :: after)%list.
Proof.
  revert before. induction tasks as [|t tasks IH]; intros before Hfind; simpl in Hfind.
  - discriminate.
  - destruct (subscript t "id") as [i|e]; [|discriminate].
    destruct (py_eqb i task_id).
    + by injection Hfind as <- <- <-.
    + destruct (find_task task_id tasks) as [[[b n] a]|e] eqn:Hrest; [|discriminate].
      injection Hfind as <- <- <-. simpl. f_equal. by apply IH.
Qed.

Lemma update_task_unfold task_id patch w :
  update_task task_id patch w =
    match find_task task_id (registry w) with
    | Ok (before, node, after) =>
        let node' := Dict.set "updated_at" (PStr (isoformat_utc (clock w (clock_reads w))))
                              (Dict.update patch node) in
        (Ok node',
         mkWorld (before ++ node' :: after) (journals w) (summaries w)
                 (clock w) (S (clock_reads w)) (uuid_hex w) (uuid_draws w))
    | Raise e => (Raise e, w)
    end.
Proof.
  unfold update_task, bind, load_graph, lift.
  by destruct (find_task task_id (registry w)) as [[[before node] after]|e].
Qed.

Lemma update_task_ids (task_id : pyval) (patch : pydict) (w w' : World)
    (r : result pydict) :
  Dict.get "id" patch = None →
  update_task task_id patch w = (r, w') →
  task_ids (registry w') = task_ids (registry w).
Proof.
  intros Hpatch Hrun. rewrite update_task_unfold in Hrun.
  destruct (find_task task_id (registry w)) as [[[before node] after]|e] eqn:Hfind.
  - injection Hrun as _ <-. apply find_task_split in Hfind. rewrite Hfind.
    unfold task_ids. cbn [registry]. rewrite !fmap_app, !fmap_cons. do 2 f_equal.
    rewrite get_set_ne by done. by apply get_update_None.
  - by injection Hrun as _ <-.
Qed.

Lemma create_task_ids (task : pydict) (w w' : World) (r : result pydict) :
  create_task task w = (r, w') →
  ∃ new, task_ids (registry w') = (task_ids (registry w) ++ new)%list
         ∧ (length new ≤ 1)%nat.
Proof.
  unfold create_task, bind, load_graph, _now_iso, bind, read_clock, uuid4_hex,
    lift, subscript, save_graph, ret. cbn [registry].
  destruct (Dict.get "type" task) as [ty|].
  - destruct (Dict.get "status" task) as [st|]; intros Hrun; injection Hrun as _ <-.
    + eexists [_]. unfold task_ids. cbn [registry set_registry].
      rewrite fmap_app. split; [reflexivity|simpl; lia].
    + exists []. rewrite app_nil_r. split; [reflexivity|simpl; lia].
  - intros Hrun. injection Hrun as _ <-.
    exists []. rewrite app_nil_r. split; [reflexivity|simpl; lia].
Qed.

(** C9, as amended: an [update_task] whose patch does not assign the key
    ["id"] leaves the id of every task of the registry as it was, whether the
    call succeeds or raises, and the registry keeps its tasks in their places;
    [create_task] keeps the ids already there and adds at most one at the end;
    [list_active] changes nothing. *)
Theorem store_keeps_ids (w : World) :
  (∀ (task_id : pyval) (patch : pydict) (r : result pydict) (w' : World),
      Dict.get "id" patch = None →
      update_task task_id patch w = (r, w') →
      task_ids (registry w') = task_ids (registry w))
  ∧ (∀ (task : pydict) (r : result pydict) (w' : World),
       create_task task w = (r, w') →
       ∃ new, task_ids (registry w') = (task_ids (registry w) ++ new)%list
              ∧ (length new ≤ 1)%nat)
  ∧ (∀ statuses, (list_active statuses w).2 = w).
Proof.
  split; [|split].
  - intros task_id patch r w'. apply update_task_ids.
  - intros task r w'. apply create_task_ids.
  - intros statuses. unfold list_active, bind, load_graph, ret. by destruct statuses.
Qed.

(** C8, as amended: a draft that carries ["type"] and ["status"] is created;
    the task's id is the draft's when the draft has one and ["task-"] followed
    by a new uuid otherwise; [updated_at] is the creation instant and
    [created_at] is the draft's when the draft has one, the creation instant
    otherwise, so the two are equal for a draft without [created_at]; the task
    is appended to the registry. *)
Theorem create_task_id_and_timestamps (task : pydict) (w : World) (ty st : pyval) :
  Dict.get "type" task = Some ty →
  Dict.get "status" task = Some st →
  let now := PStr (isoformat_utc (clock w (clock_reads w))) in
  ∃ node w',
    create_task task w = (Ok node, w')
    ∧ Dict.get "id" node
      = Some (Dict.get_or "id" (PStr ("task-" ++ uuid_hex w (uuid_draws w))) task)
    ∧ Dict.get "updated_at" node = Some now
    ∧ Dict.get "created_at" node = Some (Dict.get_or "created_at" now task)
    ∧ (Dict.get "created_at" task = None →
       Dict.get "created_at" node = Dict.get "updated_at" node)
    ∧ registry w' = (registry w ++ [node])%list.
Proof.
  intros Hty Hst now.
  unfold create_task, bind, load_graph, _now_iso, bind, read_clock, uuid4_hex,
    lift, subscript, save_graph, ret. simpl.
  rewrite Hty, Hst. simpl.
  eexists _, _. split; [reflexivity|].
  repeat split; try reflexivity.
  intros Hnone. simpl. unfold Dict.get_or. by rewrite Hnone.
Qed.

End StoreProperties.

(** ** Claiming *)

Section ClaimProperties.

Context `{!PyLib} {disk : FileSystem}.

Lemma registry_ok_split before node after :
  registry_ok (before ++ node :: after)%list →
  ∃ (s : string) (n : Z),
    Dict.get "id" node = Some (PStr s)
    ∧ Dict.get_or "attempt" (PInt 0) node = PInt n
    ∧ Forall (fun t => ∃ s', Dict.get "id" t = Some (PStr s') ∧ s' ≠ s) before
    ∧ Forall (fun t => ∃ s', Dict.get "id" t = Some (PStr s') ∧ s' ≠ s) after.
Proof.
  intros [(ids & Hids & Hnodup) Hatt].
  rewrite fmap_app, fmap_cons in Hids. symmetry in Hids.
  apply fmap_app_inv in Hids as (ids1 & ids' & Hb & Hrest & ->).
  destruct ids' as [|s ids2]; [done|]. rewrite fmap_cons in Hrest.
  injection Hrest as Hs Ha.
  apply NoDup_app in Hnodup as (Hn1 & Hcross & Hn2).
  apply NoDup_cons in Hn2 as [Hs2 Hn2].
  apply Forall_app in Hatt as [_ Hatt]. apply Forall_cons in Hatt as [[n Hn] _].
  exists s, n. repeat split; [done|done| |].
  - apply Forall_forall. intros t Ht.
    apply (list_elem_of_fmap_2 (Dict.get "id")) in Ht. rewrite Hb in Ht.
    apply list_elem_of_fmap in Ht as (s' & Hs' & Hin).
    exists s'. split; [done|]. intros ->. apply (Hcross s Hin). left.
  - apply Forall_forall. intros t Ht.
    apply (list_elem_of_fmap_2 (Dict.get "id")) in Ht. rewrite Ha in Ht.
    apply list_elem_of_fmap in Ht as (s' & Hs' & Hin).
    exists s'. split; [done|]. by intros ->.
Qed.

Lemma find_task_hit (s : string) before node after :
  Dict.get "id" node = Some (PStr s) →
  Forall (fun t => ∃ s', Dict.get "id" t = Some (PStr s') ∧ s' ≠ s) before →
  find_task (PStr s) (before ++ node :: after) = Ok (before, node, after).
Proof.
  intros Hid Hbefore. induction Hbefore as [|t before (s' & Hs' & Hne) _ IH]; simpl.
  - unfold subscript. rewrite Hid. simpl. by rewrite String.eqb_refl.
  - unfold subscript. rewrite Hs'. simpl.
    destruct (String.eqb_spec s' s) as [->|_]; [done|]. by rewrite IH.
Qed.

Lemma claim_first_skip rt (skipped tasks : list pydict) w :
  Forall (fun t => py_eqb (Dict.get_or "type" PNone t) (PStr (agent_type rt)) = false) skipped →
  claim_first rt (skipped ++ tasks) w = claim_first rt tasks w.
Proof.
  induction 1 as [|t skipped Ht _ IH]; simpl; [done|]. by rewrite Ht.
Qed.

Lemma filter_not_eligible rt (tasks : list pydict) :
  Forall (fun t => eligible (agent_type rt) t = false) tasks →
  Forall (fun t => py_eqb (Dict.get_or "type" PNone t) (PStr (agent_type rt)) = false)
         (List.filter (status_in ["PENDING"]) tasks).
Proof.
  intros Hall. apply Forall_forall. intros t Ht.
  apply list_elem_of_In, filter_In in Ht as [Hin Hst].
  apply list_elem_of_In in Hin.
  rewrite Forall_forall in Hall. specialize (Hall t Hin).
  unfold eligible in Hall. by rewrite Hst in Hall.
Qed.

Lemma poll_next_task_unfold rt w :
  poll_next_task rt w = claim_first rt (List.filter (status_in ["PENDING"]) (registry w)) w.
Proof. reflexivity. Qed.

Lemma poll_none (rt : AgentRuntime) (w : World) :
  Forall (fun t => eligible (agent_type rt) t = false) (registry w) →
  poll_next_task rt w = (Ok None, w).
Proof.
  intros Hnone. rewrite poll_next_task_unfold.
  rewrite <- (app_nil_r (List.filter _ _)).
  rewrite claim_first_skip by by apply filter_not_eligible.
  reflexivity.
Qed.

Lemma claimed_node_id rt now attempt node :
  Dict.get "id" (claimed_node rt now attempt node) = Dict.get "id" node.
Proof.
  unfold claimed_node. rewrite get_set_ne by done. by rewrite get_update_None.
Qed.

Lemma claimed_node_fields rt now attempt node :
  Dict.get "status" (claimed_node rt now attempt node) = Some (PStr "IN_PROGRESS")
  ∧ Dict.get "owner" (claimed_node rt now attempt node) = Some (PStr (agent_id rt))
  ∧ Dict.get "attempt" (claimed_node rt now attempt node) = Some (PInt attempt).
Proof.
  unfold claimed_node, claim_patch, Dict.update. simpl. by dict_simpl.
Qed.

(** The update half of a claim, run on a listing that may be older than the
    registry: the first listed node of the agent's type names the id, the
    registry node with that id is the one patched, and the attempt written is
    the listed one plus one. *)
Lemma claim_first_hit (rt : AgentRuntime) (w : World) skipped listed rest
    before node after (s : string) (n : Z) :
  Forall (fun t => py_eqb (Dict.get_or "type" PNone t) (PStr (agent_type rt)) = false) skipped →
  py_eqb (Dict.get_or "type" PNone listed) (PStr (agent_type rt)) = true →
  Dict.get "id" listed = Some (PStr s) →
  Dict.get_or "attempt" (PInt 0) listed = PInt n →
  registry w = (before ++ node :: after)%list →
  Dict.get "id" node = Some (PStr s) →
  Forall (fun t => ∃ s', Dict.get "id" t = Some (PStr s') ∧ s' ≠ s) before →
  let node' := claimed_node rt (isoformat_utc (clock w (clock_reads w))) (n + 1) node in
  claim_first rt (skipped ++ listed :: rest) w
  = (Ok (Some (agent_task_of (PStr s) node')),
     mkWorld (before ++ node' :: after) (journals w) (summaries w)
             (clock w) (S (clock_reads w)) (uuid_hex w) (uuid_draws w)).
Proof.
  intros Hskip Hty Hlid Hatt Hsplit Hid Hids node'.
  rewrite claim_first_skip by done. simpl. rewrite Hty. simpl.
  unfold bind at 1. unfold lift at 1, subscript. rewrite Hlid.
  unfold bind at 1. unfold lift at 1. rewrite Hatt. simpl.
  unfold bind at 1. rewrite update_task_unfold, Hsplit.
  rewrite (find_task_hit s before node after Hid Hids).
  cbv zeta. change (Dict.set "updated_at" _ _) with node'.
  unfold bind, lift, _to_agent_task, subscript.
  unfold node' at 1. rewrite claimed_node_id, Hid. reflexivity.
Qed.

Lemma poll_claims_first (rt : AgentRuntime) (w : World) before node after :
  registry_ok (registry w) →
  registry w = (before ++ node :: after)%list →
  Forall (fun t => eligible (agent_type rt) t = false) before →
  eligible (agent_type rt) node = true →
  ∃ (n : Z) (task : AgentTask),
    let now := isoformat_utc (clock w (clock_reads w)) in
    let node' := claimed_node rt now (n + 1) node in
    Dict.get_or "attempt" (PInt 0) node = PInt n
    ∧ poll_next_task rt w
      = (Ok (Some task),
         mkWorld (before ++ node' :: after) (journals w) (summaries w)
                 (clock w) (S (clock_reads w)) (uuid_hex w) (uuid_draws w))
    ∧ _to_agent_task node' = Ok task
    ∧ Some (at_id task) = Dict.get "id" node
    ∧ at_status task = PStr "IN_PROGRESS"
    ∧ at_owner task = PStr (agent_id rt)
    ∧ at_attempt task = PInt (n + 1).
Proof.
  intros Hok Hsplit Hbefore Helig.
  rewrite Hsplit in Hok.
  destruct (registry_ok_split _ _ _ Hok) as (s & n & Hid & Hatt & Hids & _).
  unfold eligible in Helig. apply andb_prop in Helig as [Hst Hty].
  exists n, (agent_task_of (PStr s)
               (claimed_node rt (isoformat_utc (clock w (clock_reads w))) (n + 1) node)).
  destruct (claimed_node_fields rt (isoformat_utc (clock w (clock_reads w))) (n + 1) node)
    as (Fst & Fow & Fat).
  cbv zeta. repeat split.
  - done.
  - rewrite poll_next_task_unfold, Hsplit, List.filter_app. simpl. rewrite Hst.
    by apply claim_first_hit; [apply filter_not_eligible| | | | | |].
  - unfold _to_agent_task, subscript. by rewrite claimed_node_id, Hid.
  - by rewrite Hid.
  - simpl. unfold Dict.get_or. by rewrite Fst.
  - simpl. unfold Dict.get_or. by rewrite Fow.
  - simpl. unfold Dict.get_or. by rewrite Fat.
Qed.

(** C3, as amended: [poll_next_task] claims the first task in storage order
    among those with status PENDING and the agent's type.  With no such task
    it returns none and changes nothing.  Otherwise, in a registry whose ids
    are distinct strings and whose attempt counters are integers, that task
    becomes IN_PROGRESS, owned by the claiming agent, its attempt counter one
    higher and its [updated_at] refreshed; it is returned and nothing else in
    the registry changes. *)
Theorem claim_next_storage_order (rt : AgentRuntime) (w : World) :
  (Forall (fun t => eligible (agent_type rt) t = false) (registry w) →
   poll_next_task rt w = (Ok None, w))
  ∧ (∀ before node after,
       registry_ok (registry w) →
       registry w = (before ++ node :: after)%list →
       Forall (fun t => eligible (agent_type rt) t = false) before →
       eligible (agent_type rt) node = true →
       ∃ (n : Z) (task : AgentTask),
         let now := isoformat_utc (clock w (clock_reads w)) in
         let node' := claimed_node rt now (n + 1) node in
         Dict.get_or "attempt" (PInt 0) node = PInt n
         ∧ poll_next_task rt w
           = (Ok (Some task),
              mkWorld (before ++ node' :: after) (journals w) (summaries w)
                      (clock w) (S (clock_reads w)) (uuid_hex w) (uuid_draws w))
         ∧ _to_agent_task node' = Ok task
         ∧ Some (at_id task) = Dict.get "id" node
         ∧ at_status task = PStr "IN_PROGRESS"
         ∧ at_owner task = PStr (agent_id rt)
         ∧ at_attempt task = PInt (n + 1)).
Proof.
  split; [apply poll_none | apply poll_claims_first].
Qed.

Lemma first_eligible_split (ty : string) (tasks : list pydict) :
  Forall (fun t => eligible ty t = false) tasks
  ∨ ∃ before node after,
      tasks = (before ++ node :: after)%list
      ∧ Forall (fun t => eligible ty t = false) before
      ∧ eligible ty node = true.
Proof.
  induction tasks as [|t tasks IH]; [by left|].
  destruct (eligible ty t) eqn:Ht.
  - right. by exists [], t, tasks.
  - destruct IH as [Hnone|(before & node & after & -> & Hb & Hn)].
    + left. by constructor.
    + right. exists (t :: before), node, after. repeat split; [|done]. by constructor.
Qed.

Lemma registry_ok_claimed rt now attempt before node after :
  registry_ok (before ++ node :: after)%list →
  registry_ok (before ++ claimed_node rt now attempt node :: after)%list.
Proof.
  intros [(ids & Hids & Hnodup) Hatt]. split.
  - exists ids. split; [|done].
    rewrite fmap_app, fmap_cons, claimed_node_id.
    by rewrite fmap_app, fmap_cons in Hids.
  - apply Forall_app in Hatt as [Hb Ha]. apply Forall_cons in Ha as [_ Ha].
    apply Forall_app. split; [done|]. constructor; [|done].
    exists attempt. unfold Dict.get_or.
    by destruct (claimed_node_fields rt now attempt node) as (_ & _ & ->).
Qed.

Lemma claimed_node_not_eligible rt now attempt ty node :
  eligible ty (claimed_node rt now attempt node) = false.
Proof.
  unfold eligible, status_in, Dict.get_or.
  by destruct (claimed_node_fields rt now attempt node) as (-> & _ & _).
Qed.

(** Run one after the other, two claims never return the same task: the first
    leaves its task IN_PROGRESS, so the listing of the second no longer holds
    it. *)
Lemma sequential_claims_differ (rt1 rt2 : AgentRuntime) (w w1 w2 : World)
    (t1 t2 : AgentTask) :
  registry_ok (registry w) →
  poll_next_task rt1 w = (Ok (Some t1), w1) →
  poll_next_task rt2 w1 = (Ok (Some t2), w2) →
  at_id t1 ≠ at_id t2.
Proof.
  intros Hok Hp1 Hp2.
  destruct (first_eligible_split (agent_type rt1) (registry w))
    as [Hnone|(before & node & after & Hsplit & Hb & Hn)].
  { rewrite poll_none in Hp1 by done. congruence. }
  destruct (poll_claims_first rt1 w before node after Hok Hsplit Hb Hn)
    as (n & task & _ & Hrun & _ & Hid1 & _).
  rewrite Hrun in Hp1. injection Hp1 as <- Hw1. symmetry in Hw1.
  rewrite Hsplit in Hok.
  destruct (registry_ok_split _ _ _ Hok) as (s & _ & Hs & _ & Hbefore & Hafter).
  set (node' := claimed_node rt1 (isoformat_utc (clock w (clock_reads w))) (n + 1) node) in *.
  assert (Hreg1 : registry w1 = (before ++ node' :: after)%list) by by rewrite Hw1.
  assert (Hok1 : registry_ok (registry w1))
    by (rewrite Hreg1; by apply registry_ok_claimed).
  destruct (first_eligible_split (agent_type rt2) (registry w1))
    as [Hnone|(before2 & node2 & after2 & Hsplit2 & Hb2 & Hn2)].
  { rewrite poll_none in Hp2 by done. congruence. }
  destruct (poll_claims_first rt2 w1 before2 node2 after2 Hok1 Hsplit2 Hb2 Hn2)
    as (n2 & task2 & _ & Hrun2 & _ & Hid2 & _).
  rewrite Hrun2 in Hp2. injection Hp2 as <- _.
  assert (Hin : node2 ∈ (before ++ node' :: after)%list).
  { rewrite <- Hreg1, Hsplit2. apply elem_of_app. right. left. }
  rewrite Hs in Hid1. injection Hid1 as Hid1. rewrite Hid1.
  apply elem_of_app in Hin as [Hin|Hin].
  - rewrite Forall_forall in Hbefore. destruct (Hbefore _ Hin) as (s' & Hs' & Hne).
    rewrite Hs' in Hid2. injection Hid2 as ->. congruence.
  - apply elem_of_cons in Hin as [->|Hin].
    + unfold node' in Hn2. by rewrite claimed_node_not_eligible in Hn2.
    + rewrite Forall_forall in Hafter. destruct (Hafter _ Hin) as (s' & Hs' & Hne).
      rewrite Hs' in Hid2. injection Hid2 as ->. congruence.
Qed.

(** C1 fails on the code: when two workers of the same type both list the
    registry before either updates it, both claims succeed on the same task.
    The first eligible task of the registry is returned to both; the second
    update overwrites the owner written by the first. *)
Theorem interleaved_claims_collide (rt1 rt2 : AgentRuntime) (w : World) before node after :
  agent_type rt1 = agent_type rt2 →
  registry_ok (registry w) →
  registry w = (before ++ node :: after)%list →
  Forall (fun t => eligible (agent_type rt1) t = false) before →
  eligible (agent_type rt1) node = true →
  ∃ (t1 t2 : AgentTask) (w' : World),
    run_schedule [0; 1; 0; 1]%nat [(rt1, Polling); (rt2, Polling)] w
    = ([(rt1, Claimed (Ok (Some t1))); (rt2, Claimed (Ok (Some t2)))], w')
    ∧ Some (at_id t1) = Dict.get "id" node
    ∧ at_id t2 = at_id t1
    ∧ at_owner t1 = PStr (agent_id rt1)
    ∧ at_owner t2 = PStr (agent_id rt2).
Proof.
  intros Hty Hok Hsplit Hb Hn.
  pose proof Hok as Hok'. rewrite Hsplit in Hok'.
  destruct (registry_ok_split _ _ _ Hok') as (s & n & Hid & Hatt & Hids & _).
  unfold eligible in Hn. apply andb_prop in Hn as [Hst Htyp].
  set (now := isoformat_utc (clock w (clock_reads w))).
  set (node1 := claimed_node rt1 now (n + 1) node).
  set (w1 := mkWorld (before ++ node1 :: after) (journals w) (summaries w)
                     (clock w) (S (clock_reads w)) (uuid_hex w) (uuid_draws w)).
  set (node2 := claimed_node rt2 (isoformat_utc (clock w (S (clock_reads w)))) (n + 1) node1).
  assert (Hlist : List.filter (status_in ["PENDING"]) (registry w)
                  = (List.filter (status_in ["PENDING"]) before
                     ++ node :: List.filter (status_in ["PENDING"]) after)%list).
  { rewrite Hsplit, List.filter_app. simpl. by rewrite Hst. }
  assert (H1 : claim_first rt1 (List.filter (status_in ["PENDING"]) (registry w)) w
               = (Ok (Some (agent_task_of (PStr s) node1)), w1)).
  { rewrite Hlist.
    by apply claim_first_hit; [apply filter_not_eligible| | | | | |]. }
  assert (H2 : claim_first rt2 (List.filter (status_in ["PENDING"]) (registry w)) w1
               = (Ok (Some (agent_task_of (PStr s) node2)),
                  mkWorld (before ++ node2 :: after) (journals w) (summaries w)
                          (clock w) (S (S (clock_reads w))) (uuid_hex w) (uuid_draws w))).
  { rewrite Hlist.
    apply (claim_first_hit rt2 w1 _ node _ before node1 after s n);
      [rewrite <- Hty; by apply filter_not_eligible|by rewrite <- Hty|done|done|done| |done].
    unfold node1. by rewrite claimed_node_id. }
  exists (agent_task_of (PStr s) node1), (agent_task_of (PStr s) node2).
  eexists. split.
  - simpl. unfold list_active, bind, load_graph, ret. simpl.
    fold (List.filter (status_in ["PENDING"]) (registry w)).
    rewrite H1. simpl. rewrite H2. reflexivity.
  - rewrite Hid. simpl. repeat split; unfold Dict.get_or.
    + unfold node1. by destruct (claimed_node_fields rt1 now (n + 1) node) as (_ & -> & _).
    + unfold node2.
      by destruct (claimed_node_fields rt2 (isoformat_utc (clock w (S (clock_reads w))))
                     (n + 1) node1) as (_ & -> & _).
Qed.

End ClaimProperties.

(** ** The event log *)

Section LogProperties.

Context `{!PyLib} {disk : FileSystem}.

Lemma stamped_entry_get event fresh instant k :
  k ≠ "id" → k ≠ "timestamp" → k ≠ "conversation_id" →
  Dict.get k (stamped_entry event fresh instant) = Dict.get k event.
Proof.
  intros Hid Hts Hconv. unfold stamped_entry.
  rewrite get_set_ne by done. by rewrite !get_setdefault_ne by done.
Qed.

Lemma stamped_entry_conversation event fresh instant v :
  Dict.get "conversation_id" event = Some v →
  Dict.get "conversation_id" (stamped_entry event fresh instant) = Some v.
Proof.
  intros Hv. unfold stamped_entry.
  rewrite get_set_ne by done. rewrite get_setdefault_ne by done.
  rewrite get_setdefault_eq. unfold Dict.get_or. by rewrite Hv.
Qed.

Lemma stamped_entry_id event fresh instant :
  ∃ id, Dict.get "id" (stamped_entry event fresh instant) = Some id.
Proof.
  unfold stamped_entry. rewrite get_set_ne by done.
  rewrite get_setdefault_eq. eauto.
Qed.


Lemma append_event_unfold event w :
  append_event event w =
    let conv := Dict.get_or "conversation_id" PNone event in
    if py_truthy conv then
      let entry := stamped_entry event (uuid_hex w (uuid_draws w))
                                 (clock w (clock_reads w)) in
      match log_file (py_str conv) with
      | Opens file =>
          (match Dict.get "id" entry with
           | Some id => Ok id
           | None => Raise (KeyError "id")
           end,
           mkWorld (registry w)
                   (<[file := (journal w file ++ [entry])%list]> (journals w))
                   (summaries w) (clock w) (S (clock_reads w)) (uuid_hex w) (S (uuid_draws w)))
      | Missing e | Unusable e =>
          (Raise e,
           mkWorld (registry w) (journals w) (summaries w)
                   (clock w) (S (clock_reads w)) (uuid_hex w) (S (uuid_draws w)))
      end
    else (Raise (ValueError "conversation_id is required"), w).
Proof.
  unfold append_event. cbv zeta.
  destruct (py_truthy (Dict.get_or "conversation_id" PNone event)); simpl; [|done].
  unfold bind, uuid4_hex, _now_iso, bind, read_clock, ret, write_line, lift, subscript.
  simpl. fold (stamped_entry event (uuid_hex w (uuid_draws w)) (clock w (clock_reads w))).
  destruct (log_file _) as [file|e|e]; [|done|done].
  by destruct (Dict.get "id" _).
Qed.


(** A plain id that is not empty is truthy and names its own journal. *)
Lemma plain_id_opens (conv : string) :
  plain_id conv = true → log_file conv = Opens conv ∧ summary_file conv = Opens conv.
Proof.
  intros Hplain. split; [by apply log_file_plain|by apply summary_file_plain].
Qed.





End LogProperties.

(** ** The agent runtime *)

Section RuntimeProperties.

Context `{!PyLib} {disk : FileSystem}.

Lemma keeps_appends {A} (m : M A) : keeps_journals m → appends_internal m.
Proof.
  intros Hk w r w' Hrun file. exists []. unfold journal.
  rewrite (Hk _ _ _ Hrun), app_nil_r. repeat split; [constructor|simpl; lia].
Qed.

Lemma keeps_lift {A} (r : result A) : keeps_journals (lift r).
Proof. intros w r' w' Hrun. by injection Hrun as _ <-. Qed.

Lemma keeps_ret {A} (a : A) : keeps_journals (ret a).
Proof. intros w r' w' Hrun. by injection Hrun as _ <-. Qed.

Lemma keeps_read_clock : keeps_journals read_clock.
Proof. intros w r' w' Hrun. by injection Hrun as _ <-. Qed.

Lemma keeps_update_task task_id patch : keeps_journals (update_task task_id patch).
Proof.
  intros w r w' Hrun. rewrite update_task_unfold in Hrun.
  destruct (find_task _ _) as [[[before node] after]|e]; by injection Hrun as _ <-.
Qed.

Lemma keeps_bind {A B} (m : M A) (k : A → M B) :
  keeps_journals m → (∀ a, keeps_journals (k a)) → keeps_journals (bind m k).
Proof.
  intros Hm Hk w r w' Hrun. unfold bind in Hrun.
  destruct (m w) as [[a|e] w1] eqn:Em.
  - rewrite (Hk _ _ _ _ Hrun). by eapply Hm.
  - injection Hrun as _ <-. by eapply Hm.
Qed.

Lemma appends_bind_l {A B} (m : M A) (k : A → M B) :
  appends_internal m → (∀ a, keeps_journals (k a)) → appends_internal (bind m k).
Proof.
  intros Hm Hk w r w' Hrun file. unfold bind in Hrun.
  destruct (m w) as [[a|e] w1] eqn:Em.
  - unfold journal at 1. rewrite (Hk _ _ _ _ Hrun). by eapply Hm.
  - injection Hrun as _ <-. by eapply Hm.
Qed.

Lemma appends_bind_r {A B} (m : M A) (k : A → M B) :
  keeps_journals m → (∀ a, appends_internal (k a)) → appends_internal (bind m k).
Proof.
  intros Hm Hk w r w' Hrun file. unfold bind in Hrun.
  destruct (m w) as [[a|e] w1] eqn:Em.
  - destruct (Hk _ _ _ _ Hrun file) as (new & Hj & Hnew).
    exists new. split; [|done]. rewrite Hj. unfold journal.
    by rewrite (Hm _ _ _ Em).
  - injection Hrun as _ <-. by eapply (keeps_appends m).
Qed.

Lemma appends_append_event event :
  is_internal event → appends_internal (append_event event).
Proof.
  intros Hint w r w' Hrun file. rewrite append_event_unfold in Hrun. cbv zeta in Hrun.
  destruct (py_truthy _).
  - destruct (log_file _) as [opened|e|e].
    + injection Hrun as _ <-. unfold journal at 1. simpl.
      destruct (String.eqb_spec opened file) as [->|Hne].
      * rewrite lookup_insert_eq. simpl. eexists [_]. split; [reflexivity|].
        split; [|simpl; lia]. constructor; [|constructor].
        unfold is_internal. by rewrite stamped_entry_get.
      * rewrite lookup_insert_ne by done. exists []. rewrite app_nil_r.
        repeat split; [constructor|simpl; lia].
    + injection Hrun as _ <-. exists []. rewrite app_nil_r.
      repeat split; [constructor|simpl; lia].
    + injection Hrun as _ <-. exists []. rewrite app_nil_r.
      repeat split; [constructor|simpl; lia].
  - injection Hrun as _ <-. exists []. rewrite app_nil_r.
    repeat split; [constructor|simpl; lia].
Qed.

Lemma appends__append_event task kind payload :
  appends_internal (_append_event task kind payload).
Proof.
  unfold _append_event. apply appends_bind_r; [apply keeps_lift|]. intros conv.
  apply appends_bind_l; [|intros; apply keeps_ret].
  by apply appends_append_event.
Qed.

Lemma appends_run_op rt task op : appends_internal (run_op rt task op).
Proof.
  destruct op as [message progress extra|result|error]; simpl;
    (apply appends_bind_l; [|intros; apply keeps_ret]).
  - unfold emit_update. apply appends_bind_r; [apply keeps_lift|]. intros payload.
    apply appends_bind_l; [apply appends__append_event|]. intros _.
    apply keeps_bind; [apply keeps_read_clock|intros; apply keeps_ret].
  - unfold complete_task. apply appends_bind_r; [apply keeps_lift|]. intros payload.
    apply appends_bind_l; [apply appends__append_event|]. intros _.
    apply keeps_update_task.
  - unfold fail_task. apply appends_bind_r; [apply keeps_lift|]. intros payload.
    apply appends_bind_l; [apply appends__append_event|]. intros _.
    apply keeps_update_task.
Qed.

(** C10: whatever the task and the payload, [emit_update], [complete_task]
    and [fail_task] leave every journal as it was up to at most one appended
    entry, and an appended entry has visibility ["internal"]. *)
Theorem agent_events_internal (rt : AgentRuntime) (task : AgentTask) (op : agent_op)
    (w : World) (file : string) :
  ∃ new : list pydict,
    journal (run_op rt task op w).2 file = (journal w file ++ new)%list
    ∧ Forall (fun entry => Dict.get "visibility" entry = Some (PStr "internal")) new
    ∧ (length new ≤ 1)%nat.
Proof.
  destruct (run_op rt task op w) as [r w'] eqn:Hrun.
  exact (appends_run_op rt task op w r w' Hrun file).
Qed.

(** When the guard lets a payload through, the flag was not set; the payload
    that goes on to the log is the same without the key. *)
Lemma enforce_policy_passes (payload payload' : pydict) :
  _enforce_policy payload = Ok payload' →
  py_truthy (Dict.get_or "render_to_user" PNone payload) = false
  ∧ Dict.get "render_to_user" payload' = None
  ∧ ∀ k, k ≠ "render_to_user" → Dict.get k payload' = Dict.get k payload.
Proof.
  unfold _enforce_policy.
  destruct (py_truthy (Dict.get_or "render_to_user" PNone payload)); [discriminate|].
  intros Hok. injection Hok as <-. split; [done|]. split; [apply get_pop_eq|].
  intros k Hk. apply get_pop_ne. congruence.
Qed.

(** The payloads of [complete_task] and [fail_task] have fixed keys, none of
    them ["render_to_user"]: there the guard can never fire. *)
Lemma result_payloads_unflagged rt result error :
  Dict.get "render_to_user" (result_payload rt result) = None
  ∧ Dict.get "render_to_user" (error_payload rt error) = None.
Proof. split; reflexivity. Qed.

(** C2: when the payload an operation builds has a true ["render_to_user"]
    flag, the operation raises [PolicyViolation] and the world, its journals
    included, is exactly as before: nothing is appended, and the flagged
    payload is rejected, not stripped and logged. *)
Theorem policy_guard_rejects (rt : AgentRuntime) (task : AgentTask) (op : agent_op)
    (w : World) :
  py_truthy (Dict.get_or "render_to_user" PNone (op_payload rt task op)) = true →
  run_op rt task op w
  = (Raise (PolicyViolation "Agent events cannot add user-visible output; narrator only."), w).
Proof.
  intros Hflag.
  destruct op as [message progress extra|result|error]; simpl in *;
    unfold emit_update, complete_task, fail_task, bind, lift, _enforce_policy;
    by rewrite Hflag.
Qed.

End RuntimeProperties.

(** ** The controller gate *)

Section GateProperties.

Context `{!PyLib} {disk : FileSystem}.

Lemma py_in_trigger event :
  py_in (Dict.get_or "type" PNone event) TRIGGER_EVENT_TYPES = true ↔ is_trigger event.
Proof.
  unfold is_trigger, Dict.get_or, py_in.
  destruct (Dict.get "type" event) as [[| | |s| |]|]; simpl;
    try (split; [discriminate|intros (ty & Hty & _); discriminate]).
  rewrite bool_decide_eq_true. split.
  - intros Hs. by exists s.
  - intros (ty & Hty & Hin). by injection Hty as ->.
Qed.

Lemma elem_of_last (n : nat) (events : list pydict) (e : pydict) :
  e ∈ drop (length events - n) events
  ↔ ∃ i, events !! i = Some e ∧ (length events ≤ i + n)%nat.
Proof.
  rewrite list_elem_of_lookup. split.
  - intros [j Hj]. rewrite lookup_drop in Hj. eexists. split; [exact Hj|lia].
  - intros (i & Hi & Hlen). exists (i - (length events - n))%nat.
    rewrite lookup_drop. rewrite <- Hi. f_equal. lia.
Qed.

Lemma speak_gate_spec (hints : list string) (events : list pydict) :
  speak_gate hints events = true
  ↔ (∃ h, h ∈ hints ∧ h ∈ SPEAK_HINTS)
    ∨ (∃ i e, events !! i = Some e ∧ (length events ≤ i + 5)%nat ∧ is_trigger e).
Proof.
  unfold speak_gate.
  destruct (existsb (fun h => bool_decide (h ∈ SPEAK_HINTS)) hints) eqn:Hh; simpl.
  - split; [intros _|done]. left.
    apply existsb_exists in Hh as (h & Hin & Hsp).
    exists h. split; [by apply list_elem_of_In|by apply bool_decide_eq_true in Hsp].
  - rewrite existsb_exists. rewrite (slice_from_neg 5) by lia. split.
    + intros (e & Hin & Htr). right.
      apply in_rev, list_elem_of_In, (elem_of_last 5) in Hin as (i & Hi & Hlen).
      exists i, e. by rewrite <- py_in_trigger.
    + intros [(h & Hin & Hsp)|(i & e & Hi & Hlen & Htr)].
      * assert (existsb (fun h => bool_decide (h ∈ SPEAK_HINTS)) hints = true); [|congruence].
        apply existsb_exists. exists h.
        split; [by apply list_elem_of_In|by apply bool_decide_eq_true].
      * exists e. split; [|by apply py_in_trigger].
        apply in_rev. rewrite rev_involutive. apply list_elem_of_In, (elem_of_last 5). eauto.
Qed.

Lemma decide_speak_now (hints : option (list string)) (events : list pydict) :
  Dict.get "speak_now" (decide hints events)
  = Some (PBool (speak_gate (default [] hints) events)).
Proof. reflexivity. Qed.

(** C5: [decide] answers [speak_now = true] exactly when some hint is one of
    [user_waiting], [task_completed], [agent_failed], or one of the last five
    events has type [ERROR] or [AGENT_RESULT].  So no hint with the events
    [USER_MESSAGE, AGENT_UPDATE] gives false, the hint [user_waiting] gives
    true, and events ending in an [AGENT_RESULT] give true without any
    hint. *)
Theorem decide_gate (hints : option (list string)) (events : list pydict) :
  (∃ speak : bool,
      Dict.get "speak_now" (decide hints events) = Some (PBool speak)
      ∧ (speak = true
         ↔ (∃ h, h ∈ default [] hints
                 ∧ h ∈ ["user_waiting"; "task_completed"; "agent_failed"])
           ∨ (∃ i e ty,
                 events !! i = Some e
                 ∧ (length events ≤ i + 5)%nat
                 ∧ Dict.get "type" e = Some (PStr ty)
                 ∧ ty ∈ ["ERROR"; "AGENT_RESULT"])))
  ∧ (∀ e1 e2,
       Dict.get "type" e1 = Some (PStr "USER_MESSAGE") →
       Dict.get "type" e2 = Some (PStr "AGENT_UPDATE") →
       Dict.get "speak_now" (decide (Some []) [e1; e2]) = Some (PBool false))
  ∧ Dict.get "speak_now" (decide (Some ["user_waiting"]) events) = Some (PBool true)
  ∧ (∀ e,
       Dict.get "type" e = Some (PStr "AGENT_RESULT") →
       Dict.get "speak_now" (decide hints (events ++ [e])) = Some (PBool true)).
Proof.
  split; [|split; [|split]].
  - exists (speak_gate (default [] hints) events). split; [apply decide_speak_now|].
    rewrite speak_gate_spec. unfold is_trigger, SPEAK_HINTS, TRIGGER_EVENT_TYPES.
    split; (intros [Hh|(i & e & Hrest)]; [by left|right]).
    + destruct Hrest as (Hi & Hlen & ty & Hty & Hin). by exists i, e, ty.
    + destruct Hrest as (ty & Hi & Hlen & Hty & Hin). exists i, e.
      split; [done|]. split; [done|]. by exists ty.
  - intros e1 e2 H1 H2. rewrite decide_speak_now.
    unfold speak_gate, Dict.get_or. simpl. by rewrite H1, H2.
  - reflexivity.
  - intros e He. rewrite decide_speak_now. do 2 f_equal. apply speak_gate_spec. right.
    exists (length events), e. split; [|split; [rewrite length_app; simpl; lia|]].
    + rewrite lookup_app_r by lia. by rewrite Nat.sub_diag.
    + exists "AGENT_RESULT". split; [done|].
      unfold TRIGGER_EVENT_TYPES. apply list_elem_of_further, list_elem_of_here.
Qed.

End GateProperties.

(** ** Summaries and the context window *)

Section WindowProperties.

Context `{!PyLib} {disk : FileSystem}.

Lemma persist_summary_lookup conv summary w file :
  summary_file conv = Opens file →
  summaries (persist_summary conv summary w).2 !! file = Some (artifact summary).
Proof.
  intros Hfile. unfold persist_summary, set_summaries. rewrite Hfile.
  cbn [snd summaries]. apply lookup_insert_eq.
Qed.

(** What [rolling_summary] reads of an event: its group and its rendering. *)
Lemma summary_groups_fold (events : list pydict) (acc : list (string * list string)) :
  fold_left (fun acc event => group_append (event_group event) (_stringify_event event) acc)
            events acc
  = fold_left (fun acc item => group_append item.1 item.2 acc)
              (List.map (fun event => (event_group event, _stringify_event event)) events) acc.
Proof.
  revert acc. induction events as [|event events IH]; intros acc; simpl; [done|].
  apply IH.
Qed.

Lemma summary_lines_ext (events events' : list pydict) :
  List.map (fun event => (event_group event, _stringify_event event)) events
  = List.map (fun event => (event_group event, _stringify_event event)) events' →
  summary_lines events = summary_lines events'.
Proof.
  intros Hsame. unfold summary_lines. by rewrite !summary_groups_fold, Hsame.
Qed.

(** C4: [rolling_summary] depends on nothing but its arguments.  Its
    [summary_ref] is the digest of its [content]; two calls on the same events
    give the same content and the same [summary_ref], whatever the
    conversation they are made for, and so do two calls on event lists that
    agree, event by event, on type and rendered payload; the artifact
    persisted for a conversation, in the file its id names, is the same in
    whatever world it is written. *)
Theorem rolling_summary_pure (conv conv' : string) (events : list pydict) (w w' : World) :
  summary_ref (rolling_summary conv events)
  = sha256_hexdigest (content (rolling_summary conv events))
  ∧ content (rolling_summary conv events) = content (rolling_summary conv' events)
  ∧ summary_ref (rolling_summary conv events) = summary_ref (rolling_summary conv' events)
  ∧ (∀ events',
       List.map (fun event => (event_group event, _stringify_event event)) events'
       = List.map (fun event => (event_group event, _stringify_event event)) events →
       summary_ref (rolling_summary conv events') = summary_ref (rolling_summary conv events))
  ∧ (∀ file,
       summary_file conv = Opens file →
       summaries (persist_summary conv (rolling_summary conv events) w).2 !! file
       = summaries (persist_summary conv (rolling_summary conv events) w').2 !! file)
  ∧ (plain_id conv = true →
     summaries (persist_summary conv (rolling_summary conv events) w).2 !! conv
     = summaries (persist_summary conv (rolling_summary conv events) w').2 !! conv).
Proof.
  split; [reflexivity|]. split; [reflexivity|]. split; [reflexivity|]. split; [|split].
  - intros events' Hsame. unfold rolling_summary. cbn [summary_ref].
    by rewrite (summary_lines_ext events' events Hsame).
  - intros file Hfile. by rewrite !(persist_summary_lookup _ _ _ file Hfile).
  - intros Hplain.
    by rewrite !(persist_summary_lookup _ _ _ conv (summary_file_plain conv Hplain)).
Qed.

Lemma context_slice_fits conv (events : list pydict) (max_events : Z) w :
  Z.of_nat (length events) ≤ max_events →
  build_context_slice conv events max_events w
  = (Ok (String.concat nl (List.map render_event events)), w).
Proof.
  intros Hlen. unfold build_context_slice.
  assert (Hkept : slice_from (- max_events) events = events).
  { destruct (Z.eq_dec max_events 0) as [->|Hne].
    - apply slice_from_zero.
    - rewrite slice_from_neg by lia.
      replace (length events - Z.to_nat max_events)%nat with 0%nat by lia.
      apply drop_0. }
  assert (Htrim : slice_to (- max_events) events = []).
  { destruct (Z.eq_dec max_events 0) as [->|Hne].
    - apply slice_to_zero.
    - rewrite slice_to_neg by lia.
      replace (length events - Z.to_nat max_events)%nat with 0%nat by lia.
      apply take_0. }
  rewrite Hkept, Htrim. unfold bind, ret. by rewrite string_app_nil_r.
Qed.

Lemma context_slice_overflow conv (events : list pydict) (max_events : Z) w :
  plain_id conv = true →
  conv ≠ "" →
  0 < max_events →
  max_events < Z.of_nat (length events) →
  let k := (length events - Z.to_nat max_events)%nat in
  let summary := rolling_summary conv (take k events) in
  let entry := stamped_entry (refresh_event conv (summary_ref summary))
                             (uuid_hex w (uuid_draws w)) (clock w (clock_reads w)) in
  build_context_slice conv events max_events w
  = (Ok (String.concat nl (List.map render_event (drop k events))
         ++ summary_section conv summary),
     mkWorld (registry w)
             (<[conv := (journal w conv ++ [entry])%list]> (journals w))
             (<[conv := artifact summary]> (summaries w))
             (clock w) (S (clock_reads w)) (uuid_hex w) (S (uuid_draws w))).
Proof.
  intros Hplain Hconv Hpos Hlen k summary entry.
  unfold build_context_slice.
  rewrite slice_from_neg, slice_to_neg by lia. fold k.
  destruct (take k events) as [|e0 rest] eqn:Etake.
  { apply (f_equal length) in Etake. rewrite length_take in Etake.
    simpl in Etake. lia. }
  subst summary entry. cbv beta iota zeta. rewrite <- Etake.
  set (summary := rolling_summary conv (take k events)).
  fold (refresh_event conv (summary_ref summary)).
  unfold bind, persist_summary, ret. rewrite (summary_file_plain conv Hplain).
  cbv beta iota.
  rewrite append_event_unfold.
  change (Dict.get_or "conversation_id" PNone (refresh_event conv (summary_ref summary)))
    with (PStr conv).
  cbv zeta. cbn [py_truthy py_str].
  destruct (String.eqb_spec conv "") as [->|_]; [done|]. cbn [negb].
  rewrite (log_file_plain conv Hplain).
  destruct (stamped_entry_id (refresh_event conv (summary_ref summary))
              (uuid_hex (set_summaries (<[conv:=artifact summary]> (summaries w)) w)
                        (uuid_draws (set_summaries (<[conv:=artifact summary]> (summaries w)) w)))
              (clock (set_summaries (<[conv:=artifact summary]> (summaries w)) w)
                     (clock_reads (set_summaries (<[conv:=artifact summary]> (summaries w)) w))))
    as [id Hid].
  unfold artifact in *. cbv zeta in *. rewrite Hid. reflexivity.
Qed.

(** C6, as amended: when the events are no more than [max_events], the text
    is the rendering of all of them, one item per event, and the world is
    untouched: no summary, no event.  When there are more than [max_events],
    for a positive [max_events] and a conversation id that is not empty and
    is a plain file name (no separator, no NUL, not too long for the file
    system), the text renders exactly the last [max_events] events and ends
    with the pointer to the summary; the summary of exactly the overflow
    prefix is written as the conversation's artifact; and the conversation's
    journal gains exactly one SUMMARY_REFRESH event whose payload is the new
    [summary_ref].  Nothing else changes but the clock and uuid draws. *)
Theorem context_window (conv : string) (events : list pydict) (max_events : Z) (w : World) :
  (Z.of_nat (length events) ≤ max_events →
   build_context_slice conv events max_events w
   = (Ok (String.concat nl (List.map render_event events)), w))
  ∧ (plain_id conv = true → conv ≠ "" →
     0 < max_events → max_events < Z.of_nat (length events) →
     let k := (length events - Z.to_nat max_events)%nat in
     let summary := rolling_summary conv (take k events) in
     let entry := stamped_entry (refresh_event conv (summary_ref summary))
                                (uuid_hex w (uuid_draws w)) (clock w (clock_reads w)) in
     length (drop k events) = Z.to_nat max_events
     ∧ (take k events ++ drop k events)%list = events
     ∧ build_context_slice conv events max_events w
       = (Ok (String.concat nl (List.map render_event (drop k events))
              ++ summary_section conv summary),
          mkWorld (registry w)
                  (<[conv := (journal w conv ++ [entry])%list]> (journals w))
                  (<[conv := artifact summary]> (summaries w))
                  (clock w) (S (clock_reads w)) (uuid_hex w) (S (uuid_draws w)))
     ∧ Dict.get "type" entry = Some (PStr "SUMMARY_REFRESH")
     ∧ Dict.get "payload" entry = Some (PDict [("summary_ref", PStr (summary_ref summary))])).
Proof.
  split; [apply context_slice_fits|].
  intros Hplain Hconv Hpos Hlen k summary entry.
  split; [rewrite length_drop; lia|].
  split; [apply take_drop|].
  split; [by apply context_slice_overflow|].
  unfold entry. by rewrite !stamped_entry_get.
Qed.

End WindowProperties.

(** * Further properties of the code *)

(** ** The task registry: errors, frames and read-back *)

Section StoreBehaviour.

Context `{!PyLib} {disk : FileSystem}.

Lemma get_not_in (k : string) (d : pydict) : k ∉ d.*1 → Dict.get k d = None.
Proof.
  induction d as [|[k' v'] d IH]; [done|]. simpl. intros Hnot.
  apply not_elem_of_cons in Hnot as [Hne Hnot].
  destruct (String.eqb_spec k' k) as [->|_]; [done|]. by apply IH.
Qed.

Lemma get_update_Some (k : string) (v : pyval) (patch d : pydict) :
  NoDup patch.*1 →
  Dict.get k patch = Some v →
  Dict.get k (Dict.update patch d) = Some v.
Proof.
  unfold Dict.update. revert d.
  induction patch as [|[k0 v0] patch IH]; intros d Hnodup Hget; [done|].
  simpl in *. apply NoDup_cons in Hnodup as [Hfresh Hnodup].
  destruct (String.eqb_spec k0 k) as [->|Hne].
  - injection Hget as ->.
    change (fold_left _ patch ?d) with (Dict.update patch d).
    rewrite get_update_None by by apply get_not_in. apply get_set_eq.
  - by apply IH.
Qed.

Lemma find_task_found task_id tasks before node after :
  find_task task_id tasks = Ok (before, node, after) →
  ∃ i, Dict.get "id" node = Some i ∧ py_eqb i task_id = true.
Proof.
  revert before. induction tasks as [|t tasks IH]; intros before Hfind; simpl in Hfind.
  - discriminate.
  - unfold subscript in Hfind. destruct (Dict.get "id" t) as [i|] eqn:Hid; [|discriminate].
    destruct (py_eqb i task_id) eqn:Heq.
    + injection Hfind as <- <- <-. eauto.
    + destruct (find_task task_id tasks) as [[[b n] a]|e] eqn:Hrest; [|discriminate].
      injection Hfind as <- <- <-. by eapply IH.
Qed.

Lemma find_task_first task_id before node after (i : pyval) :
  Forall (fun t => ∃ j, Dict.get "id" t = Some j ∧ py_eqb j task_id = false) before →
  Dict.get "id" node = Some i →
  py_eqb i task_id = true →
  find_task task_id (before ++ node :: after) = Ok (before, node, after).
Proof.
  intros Hbefore Hid Heq.
  induction Hbefore as [|t before (j & Hj & Hne) _ IH]; simpl; unfold subscript.
  - by rewrite Hid, Heq.
  - rewrite Hj, Hne. by rewrite IH.
Qed.

Lemma find_task_missing task_id tasks :
  Forall (fun t => ∃ j, Dict.get "id" t = Some j ∧ py_eqb j task_id = false) tasks →
  find_task task_id tasks = Raise (KeyError ("task " ++ py_str task_id ++ " not found")).
Proof.
  induction 1 as [|t tasks (j & Hj & Hne) _ IH]; simpl; [done|].
  unfold subscript. by rewrite Hj, Hne, IH.
Qed.

Lemma find_task_raises task_id tasks e :
  find_task task_id tasks = Raise e → ∃ what, e = KeyError what.
Proof.
  induction tasks as [|t tasks IH]; simpl; intros Hfind.
  - injection Hfind as <-. eauto.
  - unfold subscript in Hfind. destruct (Dict.get "id" t) as [i|].
    + destruct (py_eqb i task_id); [discriminate|].
      destruct (find_task task_id tasks) as [[[b n] a]|e']; [discriminate|].
      injection Hfind as <-. by apply IH.
    + injection Hfind as <-. eauto.
Qed.

(** X1.  An [update_task] that raises has raised [KeyError] and has changed
    nothing: not the registry, not even the clock.  It raises in particular
    when every task has an id and none equals [task_id]. *)
Theorem update_task_failure_is_clean (task_id : pyval) (patch : pydict) (w : World) :
  (∀ e w', update_task task_id patch w = (Raise e, w') →
           w' = w ∧ ∃ what, e = KeyError what)
  ∧ (Forall (fun t => ∃ j, Dict.get "id" t = Some j ∧ py_eqb j task_id = false)
            (registry w) →
     update_task task_id patch w
     = (Raise (KeyError ("task " ++ py_str task_id ++ " not found")), w)).
Proof.
  split.
  - intros e w' Hrun. rewrite update_task_unfold in Hrun.
    destruct (find_task task_id (registry w)) as [[[before node] after]|e'] eqn:Hfind.
    + discriminate.
    + injection Hrun as <- <-. split; [done|]. by eapply find_task_raises.
  - intros Hnone. rewrite update_task_unfold. by rewrite find_task_missing.
Qed.

(** X2.  [update_task] patches the first task in storage order whose id equals
    [task_id], and only that one: the tasks before and after it, a later task
    with the same id included, are left as they were.  The patched task is
    returned as stored; it carries the patch's values, its [updated_at] is the
    instant of the call even when the patch sets that key, and every other
    key is as before. *)
Theorem update_task_patches_first_match (task_id : pyval) (patch : pydict) (w : World)
    before node after (i : pyval) :
  registry w = (before ++ node :: after)%list →
  Forall (fun t => ∃ j, Dict.get "id" t = Some j ∧ py_eqb j task_id = false) before →
  Dict.get "id" node = Some i →
  py_eqb i task_id = true →
  NoDup patch.*1 →
  ∃ node',
    update_task task_id patch w
    = (Ok node',
       mkWorld (before ++ node' :: after) (journals w) (summaries w)
               (clock w) (S (clock_reads w)) (uuid_hex w) (uuid_draws w))
    ∧ Dict.get "updated_at" node' = Some (PStr (isoformat_utc (clock w (clock_reads w))))
    ∧ (∀ k v, k ≠ "updated_at" → Dict.get k patch = Some v → Dict.get k node' = Some v)
    ∧ (∀ k, k ≠ "updated_at" → Dict.get k patch = None → Dict.get k node' = Dict.get k node).
Proof.
  intros Hsplit Hbefore Hid Heq Hnodup. eexists.
  rewrite update_task_unfold, Hsplit, (find_task_first _ _ _ _ i) by done.
  cbv zeta. split; [reflexivity|]. split; [apply get_set_eq|]. split.
  - intros k v Hk Hget. rewrite get_set_ne by done. by apply get_update_Some.
  - intros k Hk Hget. rewrite get_set_ne by done. by apply get_update_None.
Qed.

(** X3.  A draft without ["type"] or without ["status"] raises [KeyError] naming
    the first missing key; nothing is saved, although the call has already
    read the clock and drawn a uuid. *)
Theorem create_task_rejects_incomplete_draft (task : pydict) (w : World) :
  Dict.get "type" task = None ∨ Dict.get "status" task = None →
  ∃ missing w',
    create_task task w = (Raise (KeyError missing), w')
    ∧ missing = (if Dict.mem "type" task then "status" else "type")
    ∧ registry w' = registry w
    ∧ journals w' = journals w
    ∧ summaries w' = summaries w.
Proof.
  intros Hmissing.
  unfold create_task, bind, load_graph, _now_iso, bind, read_clock, uuid4_hex,
    lift, subscript, save_graph, ret, Dict.mem. cbn [registry].
  destruct (Dict.get "type" task) as [ty|].
  - destruct Hmissing as [Hm|Hm]; [done|]. rewrite Hm. by eexists _, _.
  - by eexists _, _.
Qed.

(** X4.  [list_active] never changes the world.  With no filter it returns the
    whole registry.  With a filter it returns the registry with the tasks
    that fail the test left out, nothing else: order and repetitions are
    kept; and a task passes the test exactly when its status is a string of
    the filter. *)
Theorem list_active_selects (statuses : list string) (w : World) :
  ∃ listed,
    list_active statuses w = (Ok listed, w)
    ∧ (statuses = [] → listed = registry w)
    ∧ (statuses ≠ [] →
       listed = List.filter (status_in statuses) (registry w))
    ∧ (∀ task, status_in statuses task = true
               ↔ ∃ s, Dict.get "status" task = Some (PStr s) ∧ s ∈ statuses).
Proof.
  assert (Htest : ∀ task, status_in statuses task = true
                          ↔ ∃ s, Dict.get "status" task = Some (PStr s) ∧ s ∈ statuses).
  { intros task. unfold status_in, py_in, Dict.get_or. split.
    - intros Hst.
      destruct (Dict.get "status" task) as [[| | |s| |]|]; simpl in Hst; try done.
      exists s. split; [done|]. by apply bool_decide_eq_true in Hst.
    - intros (s & Hs & Hmem). rewrite Hs. simpl. by apply bool_decide_eq_true. }
  unfold list_active, bind, load_graph, ret.
  destruct statuses as [|s0 statuses]; eexists; (split; [reflexivity|]).
  - split; [done|]. split; [by intros []|exact Htest].
  - split; [done|]. split; [done|exact Htest].
Qed.

(** X5.  What is created is listed: after [create_task] of a draft whose status
    is the string [s], [list_active({s})] returns what it returned before
    followed by the new task, and the unfiltered listing ends with it too. *)
Theorem create_task_then_list_active (task : pydict) (w : World) (ty : pyval) (s : string) :
  Dict.get "type" task = Some ty →
  Dict.get "status" task = Some (PStr s) →
  ∃ node w' listed,
    create_task task w = (Ok node, w')
    ∧ list_active [s] w = (Ok listed, w)
    ∧ list_active [s] w' = (Ok (listed ++ [node])%list, w')
    ∧ list_active [] w' = (Ok (registry w ++ [node])%list, w').
Proof.
  intros Hty Hst.
  unfold create_task, bind, load_graph, _now_iso, bind, read_clock, uuid4_hex,
    lift, subscript, save_graph, ret. cbn [registry].
  rewrite Hty, Hst. eexists _, _, _. split; [reflexivity|].
  unfold list_active, bind, load_graph, ret. cbn [registry set_registry].
  split; [reflexivity|]. split; [|reflexivity].
  rewrite List.filter_app. cbn [List.filter].
  match goal with |- context [status_in [s] ?n] =>
    assert (Hin : status_in [s] n = true)
      by (unfold status_in, Dict.get_or; cbn; apply bool_decide_eq_true, list_elem_of_here)
  end.
  by rewrite Hin.
Qed.

End StoreBehaviour.

(** ** The event log: validation, append-only journals, reading back *)

Section LogBehaviour.

Context `{!PyLib} {disk : FileSystem}.

(** X6.  [append_event] refuses a draft whose conversation id is missing or falsy
    (absent, [None], empty) with [ValueError] and touches nothing.  Otherwise
    the file that the id names decides.  When the path opens, the call
    succeeds: the journal in that file gains exactly one entry at its end,
    every other journal is what it was, and neither the registry nor the
    summaries change.  When it does not (an id with a directory part that
    does not exist), the call raises the error of [open()]: no journal, no
    task and no summary has changed, though a uuid and the clock have been
    read.  A plain file name always opens, and opens its own journal. *)
Theorem append_event_is_append_only (event : pydict) (w : World) :
  let conv := Dict.get_or "conversation_id" PNone event in
  (py_truthy conv = false →
   append_event event w = (Raise (ValueError "conversation_id is required"), w))
  ∧ (py_truthy conv = true →
     match log_file (py_str conv) with
     | Opens file =>
         ∃ id entry w',
           append_event event w = (Ok id, w')
           ∧ journal w' file = (journal w file ++ [entry])%list
           ∧ (∀ other, other ≠ file → journals w' !! other = journals w !! other)
           ∧ registry w' = registry w
           ∧ summaries w' = summaries w
     | Missing e | Unusable e =>
         ∃ w',
           append_event event w = (Raise e, w')
           ∧ journals w' = journals w
           ∧ registry w' = registry w
           ∧ summaries w' = summaries w
           ∧ clock_reads w' = S (clock_reads w)
           ∧ uuid_draws w' = S (uuid_draws w)
     end)
  ∧ (plain_id (py_str conv) = true → log_file (py_str conv) = Opens (py_str conv)).
Proof.
  intros conv. split; [|split].
  - intros Hconv. rewrite append_event_unfold. cbv zeta. fold conv. by rewrite Hconv.
  - intros Hconv. rewrite append_event_unfold. cbv zeta. fold conv. rewrite Hconv.
    destruct (log_file (py_str conv)) as [file|e|e]; [|by eexists|by eexists].
    destruct (stamped_entry_id event (uuid_hex w (uuid_draws w)) (clock w (clock_reads w)))
      as [id Hid].
    rewrite Hid. eexists id, _, _. split; [reflexivity|].
    split; [unfold journal at 1; cbn [journals]; by rewrite lookup_insert_eq|].
    split; [|done]. intros other Hother. cbn [journals]. by rewrite lookup_insert_ne.
  - apply log_file_plain.
Qed.

(** X7.  The entry [append_event] stores keeps an id the draft brings, and that
    id is what the call returns: ids are only generated, as ["evt-"] and a
    uuid, for drafts without one, and nothing checks that an id is new.  A
    timestamp the draft brings is replaced by the instant of the call; every
    other key of the draft is stored as given.  The entry is the last one of
    the journal that the conversation id names. *)
Theorem append_event_stamps (event : pydict) (w : World) (id : pyval) (w' : World) :
  append_event event w = (Ok id, w') →
  ∃ entry before file,
    log_file (py_str (Dict.get_or "conversation_id" PNone event)) = Opens file
    ∧ journal w' file = (before ++ [entry])%list
    ∧ Dict.get "id" entry = Some id
    ∧ id = Dict.get_or "id" (PStr ("evt-" ++ uuid_hex w (uuid_draws w))) event
    ∧ Dict.get "timestamp" entry
      = Some (PStr (isoformat_utc (clock w (clock_reads w))))
    ∧ ∀ k, k ≠ "id" → k ≠ "timestamp" → Dict.get k entry = Dict.get k event.
Proof.
  rewrite append_event_unfold. cbv zeta.
  destruct (py_truthy (Dict.get_or "conversation_id" PNone event)) eqn:Hconv; [|done].
  destruct (log_file _) as [file|e|e] eqn:Hfile; [|done|done].
  set (entry := stamped_entry event (uuid_hex w (uuid_draws w)) (clock w (clock_reads w))).
  assert (Hid : Dict.get "id" entry
                = Some (Dict.get_or "id" (PStr ("evt-" ++ uuid_hex w (uuid_draws w))) event)).
  { unfold entry, stamped_entry. rewrite get_set_ne by done.
    rewrite get_setdefault_eq. unfold Dict.get_or at 1 3.
    by rewrite get_setdefault_ne by done. }
  rewrite Hid. intros Hrun. injection Hrun as <- <-.
  exists entry, (journal w file), file.
  split; [done|].
  split; [unfold journal at 1; cbn [journals]; by rewrite lookup_insert_eq|].
  split; [done|]. split; [done|].
  split; [unfold entry, stamped_entry; apply get_set_eq|].
  intros k Hk1 Hk2. unfold entry, stamped_entry.
  rewrite get_set_ne by done. rewrite get_setdefault_ne by done.
  unfold Dict.setdefault, Dict.mem.
  destruct (Dict.get "conversation_id" event) as [c|] eqn:Hc; [done|].
  unfold Dict.get_or in Hconv. rewrite Hc in Hconv. discriminate.
Qed.

(** X8.  [tail] only reads.  On the journal that the conversation id names:
    with a positive limit it returns the last [limit] entries, all of them
    when there are fewer; with [limit = 0] it returns the whole journal, not
    the empty list, since [lines[-0:]] is [lines]; with a negative limit
    [-k] it returns the journal without its first [k] entries. *)
Theorem tail_limits (conv : string) (limit : Z) (w : World) (file : string)
    (lines : list pydict) :
  log_file conv = Opens file →
  journals w !! file = Some lines →
  ∃ entries,
    tail conv limit w = (Ok entries, w)
    ∧ (0 < limit →
       entries = drop (length lines - Z.to_nat limit) lines
       ∧ length entries = Nat.min (Z.to_nat limit) (length lines))
    ∧ (limit = 0 → entries = lines)
    ∧ (limit < 0 → entries = drop (Z.to_nat (- limit)) lines).
Proof.
  intros Hfile Hlines. unfold tail. rewrite Hfile, Hlines. eexists. split; [reflexivity|].
  split; [|split].
  - intros Hpos. rewrite slice_from_neg by done. split; [done|].
    rewrite length_drop. lia.
  - intros ->. apply slice_from_zero.
  - intros Hneg. unfold slice_from, slice_index.
    destruct (- limit <? 0) eqn:E; [apply Z.ltb_lt in E; lia|].
    destruct (Nat.le_gt_cases (Z.to_nat (- limit)) (length lines)) as [Hle|Hgt].
    + f_equal. lia.
    + rewrite !drop_ge by lia. done.
Qed.

End LogBehaviour.

(** ** [by_type]: a sorted selection over the journals *)

Section ByType.

Context `{!PyLib} {disk : FileSystem}.

Lemma insert_file_perm (file : string * list pydict) files :
  insert_file file files ≡ₚ file :: files.
Proof.
  induction files as [|f rest IH]; cbn; [done|].
  destruct (String.leb _ _); [done|].
  rewrite IH. apply Permutation_swap.
Qed.

Lemma journal_files_perm (w : World) :
  journal_files w
  ≡ₚ List.filter (fun file => in_directory file.1) (map_to_list (journals w)).
Proof.
  unfold journal_files.
  induction (List.filter _ (map_to_list (journals w))) as [|f rest IH]; cbn; [done|].
  by rewrite insert_file_perm, IH.
Qed.

Lemma iter_all_events_elem (w : World) (entry : pydict) :
  entry ∈ _iter_all_events w
  ↔ ∃ file lines,
      in_directory file = true ∧ journals w !! file = Some lines ∧ entry ∈ lines.
Proof.
  unfold _iter_all_events. rewrite list_elem_of_In, in_flat_map. split.
  - intros ([file lines] & Hin & Hentry). exists file, lines.
    apply list_elem_of_In in Hin. rewrite journal_files_perm in Hin.
    apply list_elem_of_In, filter_In in Hin as [Hin Hdir].
    apply list_elem_of_In, elem_of_map_to_list in Hin.
    split; [done|]. split; [done|]. by apply list_elem_of_In.
  - intros (file & lines & Hdir & Hfile & Hentry). exists (file, lines).
    split; [|by apply list_elem_of_In].
    apply list_elem_of_In. rewrite journal_files_perm.
    apply list_elem_of_In, filter_In. split; [|done].
    by apply list_elem_of_In, elem_of_map_to_list.
Qed.

Lemma insert_by_key_perm (x : pyval * pydict) l placed :
  insert_by_key x l = Ok placed → placed ≡ₚ x :: l.
Proof.
  revert placed. induction l as [|y rest IH]; intros placed; cbn [insert_by_key].
  - by intros [= <-].
  - destruct (py_lt y.1 x.1) as [[|]|e]; [|by intros [= <-]|done].
    destruct (insert_by_key x rest) as [placed'|e]; [|done].
    intros [= <-]. rewrite (IH _ eq_refl). apply Permutation_swap.
Qed.

Lemma sort_by_key_perm (l sorted : list (pyval * pydict)) :
  sort_by_key l = Ok sorted → sorted ≡ₚ l.
Proof.
  revert sorted. induction l as [|x rest IH]; intros sorted; cbn [sort_by_key].
  - by intros [= <-].
  - destruct (sort_by_key rest) as [sorted'|e]; [|done].
    intros Hins. rewrite (insert_by_key_perm _ _ _ Hins). by rewrite (IH _ eq_refl).
Qed.

Lemma string_ltb_false (s t : string) : String.ltb t s = false → String.le s t.
Proof.
  unfold String.ltb, String.le, String.leb. rewrite (String.compare_antisym s t).
  by destruct (String.compare t s).
Qed.

Lemma string_ltb_true (s t : string) : String.ltb t s = true → String.le t s.
Proof.
  unfold String.ltb, String.le, String.leb. by destruct (String.compare t s).
Qed.

Lemma insert_by_key_strings (x : pyval * pydict) l :
  string_key x → Forall string_key l → StronglySorted key_le l →
  ∃ placed, insert_by_key x l = Ok placed ∧ StronglySorted key_le placed.
Proof.
  intros [s Hs] Hkeys Hsorted. revert Hkeys.
  induction Hsorted as [|y rest Hsorted IH Hall]; intros Hkeys; cbn [insert_by_key].
  - eexists. split; [done|]. repeat constructor.
  - apply Forall_cons in Hkeys as [[t Ht] Hkeys].
    rewrite Hs, Ht. cbn [py_lt].
    destruct (String.ltb t s) eqn:Hlt.
    + destruct (IH Hkeys) as (placed & Hplaced & Hsorted').
      rewrite Hplaced. eexists. split; [done|].
      constructor; [done|].
      rewrite (insert_by_key_perm _ _ _ Hplaced).
      constructor; [|done].
      exists t, s. split; [done|]. split; [done|]. by apply string_ltb_true.
    + eexists. split; [done|].
      assert (Hle : key_le x y).
      { exists s, t. split; [done|]. split; [done|]. by apply string_ltb_false. }
      constructor; [by constructor|]. constructor; [done|].
      eapply Forall_impl; [exact Hall|]. intros z (t' & u & Ht' & Hu & Hle').
      rewrite Ht in Ht'. injection Ht' as <-.
      exists s, u. split; [done|]. split; [done|].
      etransitivity; [by apply string_ltb_false|done].
Qed.

Lemma sort_by_key_strings (l : list (pyval * pydict)) :
  Forall string_key l →
  ∃ sorted, sort_by_key l = Ok sorted ∧ StronglySorted key_le sorted.
Proof.
  induction 1 as [|x rest Hx Hrest (sorted & Hsort & Hsorted)]; cbn [sort_by_key].
  - eexists. split; [done|]. constructor.
  - rewrite Hsort. apply insert_by_key_strings; [done| |done].
    rewrite Forall_forall in Hrest. apply Forall_forall. intros p Hp.
    apply Hrest. by rewrite <- (sort_by_key_perm _ _ Hsort).
Qed.

Lemma timestamp_keys_ok entries keyed :
  timestamp_keys entries = Ok keyed →
  keyed.*2 = entries ∧ Forall (λ p, Dict.get "timestamp" p.2 = Some p.1) keyed.
Proof.
  revert keyed. induction entries as [|entry rest IH]; intros keyed; cbn.
  - intros [= <-]. by split.
  - unfold timestamp_key. destruct (Dict.get "timestamp" entry) as [key|] eqn:Hkey; [|done].
    destruct (timestamp_keys rest) as [keyed'|e]; [|done].
    intros [= <-]. destruct (IH _ eq_refl) as [Hsnd Hall].
    split; [cbn; by rewrite Hsnd|by constructor].
Qed.

Lemma timestamp_keys_raise entries e :
  timestamp_keys entries = Raise e →
  e = KeyError "timestamp" ∧ ∃ entry, entry ∈ entries ∧ Dict.get "timestamp" entry = None.
Proof.
  induction entries as [|entry rest IH]; cbn; [done|].
  unfold timestamp_key. destruct (Dict.get "timestamp" entry) as [key|] eqn:Hkey.
  - destruct (timestamp_keys rest) as [keyed'|e']; [done|].
    intros [= <-]. destruct (IH eq_refl) as [-> (entry' & Hin & Hnone)].
    split; [done|]. exists entry'. split; [by right|done].
  - intros [= <-]. split; [done|]. exists entry. split; [by left|done].
Qed.

Lemma timestamp_keys_missing entries entry :
  entry ∈ entries → Dict.get "timestamp" entry = None →
  timestamp_keys entries = Raise (KeyError "timestamp").
Proof.
  intros Hin Hnone. destruct (timestamp_keys entries) as [keyed|e] eqn:Hkeys.
  - destruct (timestamp_keys_ok _ _ Hkeys) as [<- Hall].
    apply list_elem_of_fmap in Hin as (p & -> & Hp).
    rewrite Forall_forall in Hall. specialize (Hall _ Hp). congruence.
  - by destruct (timestamp_keys_raise _ _ Hkeys) as [-> _].
Qed.

Lemma timestamp_keys_total entries :
  Forall (λ entry, is_Some (Dict.get "timestamp" entry)) entries →
  ∃ keyed, timestamp_keys entries = Ok keyed.
Proof.
  induction 1 as [|entry rest [key Hkey] _ [keyed IH]]; cbn; [by eexists|].
  unfold timestamp_key. rewrite Hkey, IH. by eexists.
Qed.

Lemma sorted_by_timestamp (keyed : list (pyval * pydict)) :
  Forall (λ p, Dict.get "timestamp" p.2 = Some p.1) keyed →
  StronglySorted key_le keyed →
  StronglySorted timestamp_le keyed.*2.
Proof.
  intros Hkeys Hsorted. induction Hsorted as [|p rest Hsorted IH Hall]; cbn; [constructor|].
  apply Forall_cons in Hkeys as [Hp Hrest].
  constructor; [by apply IH|].
  apply Forall_fmap. rewrite Forall_forall in Hall. rewrite Forall_forall in Hrest.
  rewrite Forall_forall. intros q Hq.
  destruct (Hall _ Hq) as (s & t & Hs & Ht & Hle).
  exists s, t. split; [by rewrite Hp, Hs|]. split; [|done].
  cbn. by rewrite (Hrest _ Hq), Ht.
Qed.

(** X9.  What [by_type] returns is the selection it was asked for: the world is
    unchanged, and the result is a rearrangement of the entries, of any
    journal directly in [logs/], whose type is one of [event_types] and whose
    visibility is the one asked for (if any), each as often as it is stored.
    When the timestamps of the result are strings, as those written by
    [append_event] are, the result is in ascending order of the timestamp
    strings. *)
Theorem by_type_selects_sorted (event_types : list string) (visibility : option string)
    (w : World) (found : list pydict) (w' : World) :
  by_type event_types visibility w = (Ok found, w') →
  w' = w
  ∧ found ≡ₚ List.filter (type_matches event_types visibility) (_iter_all_events w)
  ∧ (∀ entry, entry ∈ found ↔
       type_matches event_types visibility entry = true
       ∧ ∃ file lines,
           in_directory file = true ∧ journals w !! file = Some lines ∧ entry ∈ lines)
  ∧ (Forall (λ entry, ∃ s, Dict.get "timestamp" entry = Some (PStr s)) found →
     StronglySorted timestamp_le found).
Proof.
  unfold by_type. cbv zeta.
  destruct (timestamp_keys _) as [keyed|e] eqn:Hkeys; [|done].
  destruct (sort_by_key keyed) as [sorted|e] eqn:Hsort; [|done].
  intros [= <- <-].
  destruct (timestamp_keys_ok _ _ Hkeys) as [Hsnd Hall].
  pose proof (sort_by_key_perm _ _ Hsort) as Hperm.
  assert (Hfound : List.map snd sorted
                   ≡ₚ List.filter (type_matches event_types visibility) (_iter_all_events w)).
  { rewrite <- Hsnd. change (List.map snd sorted) with sorted.*2. by rewrite Hperm. }
  split; [done|]. split; [done|]. split.
  - intros entry. rewrite Hfound, list_elem_of_In, filter_In, <- list_elem_of_In.
    rewrite iter_all_events_elem. tauto.
  - intros Hstrings.
    assert (Hkeyed : Forall string_key keyed).
    { rewrite Forall_forall in Hstrings. rewrite Forall_forall in Hall.
      apply Forall_forall. intros p Hp.
      destruct (Hstrings p.2) as [s Hs].
      { change (List.map snd sorted) with sorted.*2. rewrite Hperm.
        by apply list_elem_of_fmap_2. }
      exists s. specialize (Hall _ Hp). cbn in Hall. congruence. }
    destruct (sort_by_key_strings keyed Hkeyed) as (sorted' & Hsort' & Hsorted).
    rewrite Hsort in Hsort'. injection Hsort' as <-.
    apply sorted_by_timestamp; [|done].
    rewrite Forall_forall in Hall. apply Forall_forall. intros p Hp.
    apply Hall. by rewrite <- Hperm.
Qed.

(** X10.  [by_type] sorts on [item["timestamp"]] with no default: one selected
    entry without a timestamp makes the whole query raise [KeyError], while
    entries that are not selected may lack one.  When every selected entry
    has a string timestamp, as the entries written by [append_event] have,
    the query succeeds.  In neither case is anything written. *)
Theorem by_type_needs_timestamps (event_types : list string) (visibility : option string)
    (w : World) :
  let selected := List.filter (type_matches event_types visibility) (_iter_all_events w) in
  ((∃ entry, entry ∈ selected ∧ Dict.get "timestamp" entry = None) →
   by_type event_types visibility w = (Raise (KeyError "timestamp"), w))
  ∧ (Forall (λ entry, ∃ s, Dict.get "timestamp" entry = Some (PStr s)) selected →
     ∃ found, by_type event_types visibility w = (Ok found, w)).
Proof.
  intros selected. unfold by_type. cbv zeta. fold selected. split.
  - intros (entry & Hin & Hnone). by rewrite (timestamp_keys_missing _ _ Hin Hnone).
  - intros Hall.
    destruct (timestamp_keys_total selected) as [keyed Hkeys].
    { eapply Forall_impl; [exact Hall|]. intros entry [s ->]. by eexists. }
    rewrite Hkeys. destruct (timestamp_keys_ok _ _ Hkeys) as [Hsnd Hget].
    destruct (sort_by_key_strings keyed) as (sorted & Hsort & _).
    { rewrite Forall_forall in Hall. rewrite Forall_forall in Hget.
      rewrite Forall_forall. intros p Hp.
      destruct (Hall p.2) as [s Hs]; [rewrite <- Hsnd; by apply list_elem_of_fmap_2|].
      exists s. specialize (Hget _ Hp). cbn in Hget. congruence. }
    rewrite Hsort. by eexists.
Qed.

End ByType.

(** ** The worker runtime: what its operations write, and what they leave *)

Section RuntimeBehaviour.

Context `{!PyLib} {disk : FileSystem}.

Lemma _append_event_unfold (task : AgentTask) (kind : string) (payload : pydict) (w : World) :
  _append_event task kind payload w =
    match conversation_id task with
    | Raise e => (Raise e, w)
    | Ok conv =>
        if py_truthy conv then
          match log_file (py_str conv) with
          | Opens file =>
              (Ok tt,
               mkWorld (registry w)
                 (<[file :=
                      (journal w file
                       ++ [stamped_entry (agent_event conv kind payload)
                             (uuid_hex w (uuid_draws w)) (clock w (clock_reads w))])%list]>
                    (journals w))
                 (summaries w) (clock w) (S (clock_reads w)) (uuid_hex w) (S (uuid_draws w)))
          | Missing e | Unusable e =>
              (Raise e,
               mkWorld (registry w) (journals w) (summaries w)
                       (clock w) (S (clock_reads w)) (uuid_hex w) (S (uuid_draws w)))
          end
        else (Raise (ValueError "conversation_id is required"), w)
    end.
Proof.
  unfold _append_event, bind at 1, lift.
  destruct (conversation_id task) as [conv|e]; [|done].
  unfold bind. fold (agent_event conv kind payload). rewrite append_event_unfold.
  change (Dict.get_or "conversation_id" PNone (agent_event conv kind payload)) with conv.
  cbv zeta. destruct (py_truthy conv); [|done].
  destruct (log_file (py_str conv)) as [file|e|e]; [|done|done].
  by destruct (stamped_entry_id (agent_event conv kind payload)
                 (uuid_hex w (uuid_draws w)) (clock w (clock_reads w))) as [id ->].
Qed.

Lemma _append_event_opens (task : AgentTask) (kind : string) (payload : pydict) (w : World)
    (conv : pyval) (file : string) :
  conversation_id task = Ok conv →
  py_truthy conv = true →
  log_file (py_str conv) = Opens file →
  _append_event task kind payload w
  = (Ok tt,
     mkWorld (registry w)
       (<[file :=
            (journal w file
             ++ [stamped_entry (agent_event conv kind payload)
                   (uuid_hex w (uuid_draws w)) (clock w (clock_reads w))])%list]>
          (journals w))
       (summaries w) (clock w) (S (clock_reads w)) (uuid_hex w) (S (uuid_draws w))).
Proof.
  intros Hconv Htruthy Hfile. by rewrite _append_event_unfold, Hconv, Htruthy, Hfile.
Qed.

Lemma _append_event_raises (task : AgentTask) (kind : string) (payload : pydict) w e w' :
  _append_event task kind payload w = (Raise e, w') →
  registry w' = registry w ∧ journals w' = journals w ∧ summaries w' = summaries w.
Proof.
  rewrite _append_event_unfold.
  destruct (conversation_id task) as [conv|e']; [|by intros [= _ <-]].
  destruct (py_truthy conv); [|by intros [= _ <-]].
  destruct (log_file (py_str conv)) as [file|e'|e']; [done| |]; by intros [= _ <-].
Qed.

Lemma _append_event_returns (task : AgentTask) (kind : string) (payload : pydict) w u w' :
  _append_event task kind payload w = (Ok u, w') →
  ∃ conv file,
    conversation_id task = Ok conv
    ∧ py_truthy conv = true
    ∧ log_file (py_str conv) = Opens file.
Proof.
  rewrite _append_event_unfold.
  destruct (conversation_id task) as [conv|e'] eqn:Hconv; [|done].
  destruct (py_truthy conv) eqn:Htruthy; [|done].
  destruct (log_file (py_str conv)) as [file|e'|e'] eqn:Hfile; [|done|done].
  intros _. by exists conv, file.
Qed.

Lemma agent_event_entry conv kind payload fresh instant :
  let entry := stamped_entry (agent_event conv kind payload) fresh instant in
  Dict.get "type" entry = Some (PStr kind)
  ∧ Dict.get "payload" entry = Some (PDict payload)
  ∧ Dict.get "visibility" entry = Some (PStr "internal")
  ∧ Dict.get "conversation_id" entry = Some conv
  ∧ Dict.get "timestamp" entry = Some (PStr (isoformat_utc instant)).
Proof.
  cbv zeta. rewrite !stamped_entry_get by done.
  rewrite (stamped_entry_conversation _ _ _ conv) by done.
  split; [done|]. split; [done|]. split; [done|]. split; [done|].
  unfold stamped_entry. apply get_set_eq.
Qed.

(** X11.  [emit_update] appends one entry or none.  When it raises, whatever the
    reason (the policy guard, a task whose metadata is not a dictionary, a
    conversation id that is empty or whose journal cannot be opened), no
    journal, no task and no summary has changed.  When the conversation id
    of the task opens a journal, as every plain file name does, and the
    payload is not flagged, it succeeds: that journal gains one AGENT_UPDATE
    entry carrying the payload, the registry is untouched, and the heartbeat
    is the clock reading that follows the one stamped on the entry. *)
Theorem emit_update_one_entry_or_none (rt : AgentRuntime) (task : AgentTask)
    (message : string) (progress extra : option pydict) (w : World) :
  let payload := update_payload rt task message progress extra in
  (∀ e w', emit_update rt task message progress extra w = (Raise e, w') →
           registry w' = registry w ∧ journals w' = journals w
           ∧ summaries w' = summaries w)
  ∧ (∀ conv file,
       conversation_id task = Ok conv →
       py_truthy conv = true →
       log_file (py_str conv) = Opens file →
       py_truthy (Dict.get_or "render_to_user" PNone payload) = false →
       ∃ rt' entry w',
         emit_update rt task message progress extra w = (Ok rt', w')
         ∧ journal w' file = (journal w file ++ [entry])%list
         ∧ Dict.get "type" entry = Some (PStr "AGENT_UPDATE")
         ∧ Dict.get "payload" entry = Some (PDict (Dict.pop "render_to_user" payload))
         ∧ Dict.get "timestamp" entry = Some (PStr (isoformat_utc (clock w (clock_reads w))))
         ∧ registry w' = registry w
         ∧ last_heartbeat_at rt' = Some (clock w (S (clock_reads w)))
         ∧ agent_id rt' = agent_id rt ∧ agent_type rt' = agent_type rt)
  ∧ (∀ conv, plain_id (py_str conv) = true → log_file (py_str conv) = Opens (py_str conv)).
Proof.
  intros payload. split; [|split].
  - intros e w'. unfold emit_update. fold payload. unfold bind at 1, lift.
    destruct (_enforce_policy payload) as [payload'|e']; [|by intros [= _ <-]].
    unfold bind at 1.
    destruct (_append_event task "AGENT_UPDATE" payload' w) as [[[]|e'] w1] eqn:Happ.
    + unfold bind, read_clock, ret. discriminate.
    + intros [= _ <-]. by eapply _append_event_raises.
  - intros conv file Hconv Htruthy Hfile Hflag.
    unfold emit_update. fold payload. unfold bind at 1, lift, _enforce_policy.
    rewrite Hflag. unfold bind at 1.
    rewrite (_append_event_opens _ _ _ _ conv file) by done.
    unfold bind, read_clock, ret. cbn [clock clock_reads].
    eexists _, _, _. split; [reflexivity|].
    split; [unfold journal at 1; cbn [journals]; by rewrite lookup_insert_eq|].
    pose proof (agent_event_entry conv "AGENT_UPDATE" (Dict.pop "render_to_user" payload)
                  (uuid_hex w (uuid_draws w)) (clock w (clock_reads w))) as (Ht & Hp & _ & _ & Hts).
    done.
  - intros conv. apply log_file_plain.
Qed.

(** X12.  The keys of [extra] win over the fields [emit_update] fills in itself:
    an [extra] that sets ["task_id"], ["agent_id"], ["agent_type"],
    ["message"] or ["progress"] replaces the value in the logged payload.
    Without [extra] (or with an empty one) the payload names the task and
    the agent. *)
Theorem emit_update_extra_overrides (rt : AgentRuntime) (task : AgentTask) (message : string)
    (progress : option pydict) (extra : pydict) :
  NoDup extra.*1 →
  (∀ k v, Dict.get k extra = Some v →
          Dict.get k (update_payload rt task message progress (Some extra)) = Some v)
  ∧ (∀ k, Dict.get k extra = None →
          Dict.get k (update_payload rt task message progress (Some extra))
          = Dict.get k (update_payload rt task message progress None))
  ∧ Dict.get "task_id" (update_payload rt task message progress None) = Some (at_id task)
  ∧ Dict.get "agent_id" (update_payload rt task message progress None)
    = Some (PStr (agent_id rt)).
Proof.
  intros Hnodup. split; [|split; [|split]].
  - intros k v Hget. unfold update_payload.
    destruct extra as [|kv extra]; [done|]. cbn [py_truthy].
    by apply get_update_Some.
  - intros k Hget. unfold update_payload.
    destruct extra as [|kv extra]; [done|]. cbn [py_truthy].
    by apply get_update_None.
  - unfold update_payload. destruct progress; [by rewrite get_set_ne|done].
  - unfold update_payload. destruct progress; [by rewrite get_set_ne|done].
Qed.

Lemma enforce_result_payload (rt : AgentRuntime) (result : AgentResult) :
  _enforce_policy (result_payload rt result) = Ok (result_payload rt result).
Proof. reflexivity. Qed.

Lemma enforce_error_payload (rt : AgentRuntime) (error : AgentError) :
  _enforce_policy (error_payload rt error) = Ok (error_payload rt error).
Proof. reflexivity. Qed.

Lemma complete_task_shape rt task result :
  complete_task rt task result
  = log_then_update task (result_payload rt result)
      [ ("status", PStr "COMPLETED");
        ("outputs", PDict [("result", PDict (result_payload rt result))]) ].
Proof. reflexivity. Qed.

Lemma fail_task_shape rt task error :
  fail_task rt task error
  = log_then_update task (error_payload rt error)
      [ ("status", PStr "FAILED");
        ("outputs", PDict [("error", PDict (to_payload error))]) ].
Proof. reflexivity. Qed.

Lemma log_then_update_found (task : AgentTask) (payload patch : pydict) (w : World)
    conv file before node after (i : pyval) :
  conversation_id task = Ok conv →
  py_truthy conv = true →
  log_file (py_str conv) = Opens file →
  registry w = (before ++ node :: after)%list →
  Forall (fun t => ∃ j, Dict.get "id" t = Some j ∧ py_eqb j (at_id task) = false) before →
  Dict.get "id" node = Some i →
  py_eqb i (at_id task) = true →
  let entry := stamped_entry (agent_event conv "AGENT_RESULT" payload)
                             (uuid_hex w (uuid_draws w)) (clock w (clock_reads w)) in
  let node' := Dict.set "updated_at" (PStr (isoformat_utc (clock w (S (clock_reads w)))))
                        (Dict.update patch node) in
  log_then_update task payload patch w
  = (Ok node',
     mkWorld (before ++ node' :: after)
             (<[file := (journal w file ++ [entry])%list]> (journals w))
             (summaries w) (clock w) (S (S (clock_reads w))) (uuid_hex w) (S (uuid_draws w))).
Proof.
  intros Hconv Htruthy Hfile Hsplit Hbefore Hid Heq entry node'.
  unfold log_then_update, bind. rewrite (_append_event_opens _ _ _ _ conv file) by done.
  rewrite update_task_unfold. cbn [registry clock clock_reads journals summaries uuid_hex uuid_draws].
  rewrite Hsplit, (find_task_first _ _ _ _ i) by done. reflexivity.
Qed.

Lemma log_then_update_missing (task : AgentTask) (payload patch : pydict) (w : World)
    conv file :
  conversation_id task = Ok conv →
  py_truthy conv = true →
  log_file (py_str conv) = Opens file →
  Forall (fun t => ∃ j, Dict.get "id" t = Some j ∧ py_eqb j (at_id task) = false)
         (registry w) →
  let entry := stamped_entry (agent_event conv "AGENT_RESULT" payload)
                             (uuid_hex w (uuid_draws w)) (clock w (clock_reads w)) in
  log_then_update task payload patch w
  = (Raise (KeyError ("task " ++ py_str (at_id task) ++ " not found")),
     mkWorld (registry w)
             (<[file := (journal w file ++ [entry])%list]> (journals w))
             (summaries w) (clock w) (S (clock_reads w)) (uuid_hex w) (S (uuid_draws w))).
Proof.
  intros Hconv Htruthy Hfile Hnone entry.
  unfold log_then_update, bind. rewrite (_append_event_opens _ _ _ _ conv file) by done.
  rewrite update_task_unfold. cbn [registry].
  by rewrite find_task_missing.
Qed.

Lemma patched_node_fields (patch node : pydict) (now : pyval) :
  NoDup patch.*1 →
  let node' := Dict.set "updated_at" now (Dict.update patch node) in
  Dict.get "updated_at" node' = Some now
  ∧ (∀ k v, k ≠ "updated_at" → Dict.get k patch = Some v → Dict.get k node' = Some v)
  ∧ (∀ k, k ≠ "updated_at" → Dict.get k patch = None → Dict.get k node' = Dict.get k node).
Proof.
  intros Hnodup node'. split; [apply get_set_eq|]. split.
  - intros k v Hk Hget. unfold node'. rewrite get_set_ne by done. by apply get_update_Some.
  - intros k Hk Hget. unfold node'. rewrite get_set_ne by done. by apply get_update_None.
Qed.

Lemma status_outputs_nodup (status outputs : pyval) :
  NoDup [("status", status); ("outputs", outputs)].*1.
Proof.
  cbn. apply NoDup_cons. split; [|apply NoDup_singleton].
  rewrite list_elem_of_singleton. done.
Qed.

Lemma status_outputs_other (status outputs : pyval) (k : string) :
  k ≠ "status" → k ≠ "outputs" →
  Dict.get k [("status", status); ("outputs", outputs)] = None.
Proof.
  intros Hk1 Hk2. cbn [Dict.get].
  destruct (String.eqb_spec "status" k) as [<-|_]; [done|].
  by destruct (String.eqb_spec "outputs" k) as [<-|_].
Qed.

(** X13.  [complete_task] on a task that is in the registry and whose
    conversation id opens a journal (as every plain file name does): that
    journal gains one internal AGENT_RESULT
    entry whose payload is the result's, and then the task (the first one in
    storage order with the id of [task]) becomes COMPLETED with that same
    payload under [outputs.result]; its other fields, owner and attempt
    included, are kept, the rest of the registry is untouched, and the task
    as stored is returned.  The payload's ["task_id"] is the one the result
    names, which nothing compares with the id of the task that is closed. *)
Theorem complete_task_logs_then_closes (rt : AgentRuntime) (task : AgentTask)
    (result : AgentResult) (w : World) conv file before node after (i : pyval) :
  conversation_id task = Ok conv →
  py_truthy conv = true →
  log_file (py_str conv) = Opens file →
  registry w = (before ++ node :: after)%list →
  Forall (fun t => ∃ j, Dict.get "id" t = Some j ∧ py_eqb j (at_id task) = false) before →
  Dict.get "id" node = Some i →
  py_eqb i (at_id task) = true →
  ∃ node' entry w',
    complete_task rt task result w = (Ok node', w')
    ∧ registry w' = (before ++ node' :: after)%list
    ∧ Dict.get "status" node' = Some (PStr "COMPLETED")
    ∧ Dict.get "outputs" node' = Some (PDict [("result", PDict (result_payload rt result))])
    ∧ Dict.get "updated_at" node'
      = Some (PStr (isoformat_utc (clock w (S (clock_reads w)))))
    ∧ (∀ k, k ≠ "status" → k ≠ "outputs" → k ≠ "updated_at" →
            Dict.get k node' = Dict.get k node)
    ∧ journal w' file = (journal w file ++ [entry])%list
    ∧ (∀ other, other ≠ file → journals w' !! other = journals w !! other)
    ∧ Dict.get "type" entry = Some (PStr "AGENT_RESULT")
    ∧ Dict.get "payload" entry = Some (PDict (result_payload rt result))
    ∧ Dict.get "visibility" entry = Some (PStr "internal")
    ∧ Dict.get "task_id" (result_payload rt result) = Some (PStr (ar_task_id result)).
Proof.
  intros Hconv Htruthy Hfile Hsplit Hbefore Hid Heq.
  rewrite complete_task_shape.
  rewrite (log_then_update_found _ _ _ _ conv file before node after i) by done.
  cbv zeta. eexists _, _, _. split; [reflexivity|]. cbn [registry journals].
  match goal with |- context [Dict.set "updated_at" ?now (Dict.update ?patch node)] =>
    destruct (patched_node_fields patch node now (status_outputs_nodup _ _))
      as (Hnow & Hpatched & Hkept)
  end.
  split; [done|]. split; [by apply Hpatched|]. split; [by apply Hpatched|].
  split; [done|].
  split; [intros k Hk1 Hk2 Hk3; apply Hkept; [done|by apply status_outputs_other]|].
  split; [unfold journal at 1; cbn [journals]; by rewrite lookup_insert_eq|].
  split; [intros other Hother; by rewrite lookup_insert_ne|].
  pose proof (agent_event_entry conv "AGENT_RESULT" (result_payload rt result)
                (uuid_hex w (uuid_draws w)) (clock w (clock_reads w))) as (Ht & Hp & Hv & _).
  done.
Qed.

(** X14.  [fail_task] on a task that is in the registry and whose conversation
    id opens a journal (as every plain file name does):
    one internal AGENT_RESULT entry with outcome ["failed"] and the error's
    payload is appended, and then the task becomes FAILED with the error's
    payload under [outputs.error]; owner, attempt and the other fields are
    kept, so a failed task stays attributed to the worker that held it. *)
Theorem fail_task_logs_then_fails (rt : AgentRuntime) (task : AgentTask)
    (error : AgentError) (w : World) conv file before node after (i : pyval) :
  conversation_id task = Ok conv →
  py_truthy conv = true →
  log_file (py_str conv) = Opens file →
  registry w = (before ++ node :: after)%list →
  Forall (fun t => ∃ j, Dict.get "id" t = Some j ∧ py_eqb j (at_id task) = false) before →
  Dict.get "id" node = Some i →
  py_eqb i (at_id task) = true →
  ∃ node' entry w',
    fail_task rt task error w = (Ok node', w')
    ∧ registry w' = (before ++ node' :: after)%list
    ∧ Dict.get "status" node' = Some (PStr "FAILED")
    ∧ Dict.get "outputs" node' = Some (PDict [("error", PDict (to_payload error))])
    ∧ (∀ k, k ≠ "status" → k ≠ "outputs" → k ≠ "updated_at" →
            Dict.get k node' = Dict.get k node)
    ∧ journal w' file = (journal w file ++ [entry])%list
    ∧ Dict.get "type" entry = Some (PStr "AGENT_RESULT")
    ∧ Dict.get "visibility" entry = Some (PStr "internal")
    ∧ (∃ payload, Dict.get "payload" entry = Some (PDict payload)
                  ∧ Dict.get "outcome" payload = Some (PStr "failed")
                  ∧ Dict.get "error" payload = Some (PDict (to_payload error))
                  ∧ Dict.get "retryable" (to_payload error)
                    = Some (PBool (ae_retryable error))).
Proof.
  intros Hconv Htruthy Hfile Hsplit Hbefore Hid Heq.
  rewrite fail_task_shape.
  rewrite (log_then_update_found _ _ _ _ conv file before node after i) by done.
  cbv zeta. eexists _, _, _. split; [reflexivity|]. cbn [registry journals].
  match goal with |- context [Dict.set "updated_at" ?now (Dict.update ?patch node)] =>
    destruct (patched_node_fields patch node now (status_outputs_nodup _ _))
      as (Hnow & Hpatched & Hkept)
  end.
  split; [done|]. split; [by apply Hpatched|]. split; [by apply Hpatched|].
  split; [intros k Hk1 Hk2 Hk3; apply Hkept; [done|by apply status_outputs_other]|].
  split; [unfold journal at 1; cbn [journals]; by rewrite lookup_insert_eq|].
  pose proof (agent_event_entry conv "AGENT_RESULT" (error_payload rt error)
                (uuid_hex w (uuid_draws w)) (clock w (clock_reads w))) as (Ht & Hp & Hv & _).
  split; [done|]. split; [done|]. by exists (error_payload rt error).
Qed.

(** X15.  [complete_task] and [fail_task] are not all or nothing: the event is
    appended before the task is looked up.  For a task whose conversation
    id opens a journal (as every plain file name does) but whose id is not
    in the registry, both raise [KeyError] and still leave their
    AGENT_RESULT entry in the journal; the registry is unchanged. *)
Theorem result_logged_for_unknown_task (rt : AgentRuntime) (task : AgentTask) (w : World)
    (conv : pyval) (file : string) :
  conversation_id task = Ok conv →
  py_truthy conv = true →
  log_file (py_str conv) = Opens file →
  Forall (fun t => ∃ j, Dict.get "id" t = Some j ∧ py_eqb j (at_id task) = false)
         (registry w) →
  (∀ result, ∃ entry w',
      complete_task rt task result w
      = (Raise (KeyError ("task " ++ py_str (at_id task) ++ " not found")), w')
      ∧ registry w' = registry w
      ∧ journal w' file = (journal w file ++ [entry])%list
      ∧ Dict.get "type" entry = Some (PStr "AGENT_RESULT")
      ∧ Dict.get "payload" entry = Some (PDict (result_payload rt result)))
  ∧ (∀ error, ∃ entry w',
      fail_task rt task error w
      = (Raise (KeyError ("task " ++ py_str (at_id task) ++ " not found")), w')
      ∧ registry w' = registry w
      ∧ journal w' file = (journal w file ++ [entry])%list
      ∧ Dict.get "type" entry = Some (PStr "AGENT_RESULT")
      ∧ Dict.get "payload" entry = Some (PDict (error_payload rt error))).
Proof.
  intros Hconv Htruthy Hfile Hnone. split.
  - intros result. rewrite complete_task_shape.
    rewrite (log_then_update_missing _ _ _ _ conv file) by done.
    cbv zeta. eexists _, _. split; [reflexivity|]. split; [done|].
    split; [unfold journal at 1; cbn [journals]; by rewrite lookup_insert_eq|].
    pose proof (agent_event_entry conv "AGENT_RESULT" (result_payload rt result)
                  (uuid_hex w (uuid_draws w)) (clock w (clock_reads w))) as (Ht & Hp & _).
    done.
  - intros error. rewrite fail_task_shape.
    rewrite (log_then_update_missing _ _ _ _ conv file) by done.
    cbv zeta. eexists _, _. split; [reflexivity|]. split; [done|].
    split; [unfold journal at 1; cbn [journals]; by rewrite lookup_insert_eq|].
    pose proof (agent_event_entry conv "AGENT_RESULT" (error_payload rt error)
                  (uuid_hex w (uuid_draws w)) (clock w (clock_reads w))) as (Ht & Hp & _).
    done.
Qed.

Lemma claim_keys_nodup (status owner attempt : pyval) :
  NoDup [("status", status); ("owner", owner); ("attempt", attempt)].*1.
Proof.
  cbn. apply NoDup_cons. split.
  { rewrite !not_elem_of_cons. split; [done|]. split; [done|]. apply not_elem_of_nil. }
  apply NoDup_cons. split; [|apply NoDup_singleton].
  rewrite list_elem_of_singleton. done.
Qed.

Lemma find_task_before task_id tasks before node after :
  find_task task_id tasks = Ok (before, node, after) →
  Forall (fun t => ∃ j, Dict.get "id" t = Some j ∧ py_eqb j task_id = false) before.
Proof.
  revert before. induction tasks as [|t tasks IH]; intros before Hfind; simpl in Hfind.
  - discriminate.
  - unfold subscript in Hfind. destruct (Dict.get "id" t) as [j|] eqn:Hj; [|discriminate].
    destruct (py_eqb j task_id) eqn:Hne.
    + injection Hfind as <- <- <-. constructor.
    + destruct (find_task task_id tasks) as [[[b n] a]|e] eqn:Hrest; [|discriminate].
      injection Hfind as <- <- <-. constructor; [by exists j|by eapply IH].
Qed.

Lemma py_eqb_string (s : string) (v : pyval) : py_eqb (PStr s) v = true → v = PStr s.
Proof.
  destruct v; cbn; try done. intros Heq. by apply String.eqb_eq in Heq as ->.
Qed.

Lemma claim_first_outcome (rt : AgentRuntime) (tasks : list pydict) (w : World)
    (r : result (option AgentTask)) (w' : World) :
  claim_first rt tasks w = (r, w') →
  match r with
  | Ok (Some task) =>
      ∃ listed looked_up before node after node',
        listed ∈ tasks
        ∧ py_eqb (Dict.get_or "type" PNone listed) (PStr (agent_type rt)) = true
        ∧ Dict.get "id" listed = Some looked_up
        ∧ registry w = (before ++ node :: after)%list
        ∧ Forall (fun t => ∃ j, Dict.get "id" t = Some j ∧ py_eqb j looked_up = false) before
        ∧ py_eqb (at_id task) looked_up = true
        ∧ w' = mkWorld (before ++ node' :: after) (journals w) (summaries w)
                       (clock w) (S (clock_reads w)) (uuid_hex w) (uuid_draws w)
        ∧ _to_agent_task node' = Ok task
        ∧ Dict.get "id" node = Some (at_id task)
        ∧ Dict.get "id" node' = Some (at_id task)
        ∧ Dict.get "status" node' = Some (PStr "IN_PROGRESS")
        ∧ Dict.get "owner" node' = Some (PStr (agent_id rt))
        ∧ (∀ k, k ≠ "status" → k ≠ "owner" → k ≠ "attempt" → k ≠ "updated_at" →
                Dict.get k node' = Dict.get k node)
  | _ => w' = w
  end.
Proof.
  induction tasks as [|listed tasks IH]; cbn [claim_first].
  { by intros [= <- <-]. }
  destruct (py_eqb (Dict.get_or "type" PNone listed) (PStr (agent_type rt))) eqn:Hty;
    cbn [negb].
  2:{ intros Hrun. specialize (IH Hrun). destruct r as [[task|]|e]; [|done|done].
      destruct IH as (l & u & IH). exists l, u.
      destruct IH as (before & node & after & node' & Hin & Hrest).
      exists before, node, after, node'. split; [by right|done]. }
  unfold bind at 1. unfold lift at 1, subscript.
  destruct (Dict.get "id" listed) as [task_id|] eqn:Hlisted; [|by intros [= <- <-]].
  unfold bind at 1. unfold lift at 1.
  destruct (py_succ (Dict.get_or "attempt" (PInt 0) listed)) as [attempt|e];
    [|by intros [= <- <-]].
  unfold bind at 1. rewrite update_task_unfold.
  destruct (find_task task_id (registry w)) as [[[before node] after]|e] eqn:Hfind;
    [|by intros [= <- <-]].
  cbv zeta.
  destruct (find_task_found _ _ _ _ _ Hfind) as (i & Hid & Heq).
  pose proof (find_task_before _ _ _ _ _ Hfind) as Hbefore.
  apply find_task_split in Hfind.
  match goal with |- context [Dict.set "updated_at" ?now (Dict.update ?patch node)] =>
    destruct (patched_node_fields patch node now (claim_keys_nodup _ _ _))
      as (Hnow & Hpatched & Hkept)
  end.
  cbv zeta in Hnow, Hpatched, Hkept.
  pose proof (Hkept "id" ltac:(done) eq_refl) as Hid'. rewrite Hid in Hid'.
  set (node' := Dict.set "updated_at" _ _) in *.
  unfold bind, lift, ret, _to_agent_task at 1, subscript.
  rewrite Hid'.
  intros [= <- <-]. exists listed, task_id, before, node, after. eexists.
  split; [left|]. split; [done|]. split; [done|]. split; [done|]. split; [done|].
  cbn [at_id]. split; [done|].
  split; [reflexivity|]. split.
  { unfold _to_agent_task, subscript. by rewrite Hid'. }
  split; [done|]. split; [done|].
  split; [by apply Hpatched|]. split; [by apply Hpatched|].
  intros k Hk1 Hk2 Hk3 Hk4. apply Hkept; [done|]. cbn [Dict.get].
  destruct (String.eqb_spec "status" k) as [<-|_]; [done|].
  destruct (String.eqb_spec "owner" k) as [<-|_]; [done|].
  by destruct (String.eqb_spec "attempt" k) as [<-|_].
Qed.

(** X16.  [poll_next_task] is all or nothing, in any registry.  When it returns no
    task or raises (a task without id, an attempt counter that is not a
    number), the world is exactly as before.  When it returns a task, the id
    of a PENDING task of the agent's type was looked up and one task of the
    registry has changed: the first one in storage order whose id equals the
    id looked up; no task before it has that id.  It is now IN_PROGRESS and
    owned by the polling agent, the returned task carries its id, which for
    a string id is the very id looked up; its id, type, inputs and metadata
    are kept, and no journal or summary is touched. *)
Theorem poll_next_task_all_or_nothing (rt : AgentRuntime) (w : World)
    (r : result (option AgentTask)) (w' : World) :
  poll_next_task rt w = (r, w') →
  match r with
  | Ok (Some task) =>
      ∃ listed looked_up before node after node',
        listed ∈ registry w
        ∧ eligible (agent_type rt) listed = true
        ∧ Dict.get "id" listed = Some looked_up
        ∧ registry w = (before ++ node :: after)%list
        ∧ Forall (fun t => ∃ j, Dict.get "id" t = Some j ∧ py_eqb j looked_up = false) before
        ∧ py_eqb (at_id task) looked_up = true
        ∧ (∀ s, at_id task = PStr s →
                looked_up = PStr s
                ∧ Forall (fun t => ∃ j, Dict.get "id" t = Some j ∧ j ≠ PStr s) before)
        ∧ registry w' = (before ++ node' :: after)%list
        ∧ journals w' = journals w
        ∧ summaries w' = summaries w
        ∧ Dict.get "id" node = Some (at_id task)
        ∧ Dict.get "id" node' = Some (at_id task)
        ∧ Dict.get "status" node' = Some (PStr "IN_PROGRESS")
        ∧ Dict.get "owner" node' = Some (PStr (agent_id rt))
        ∧ (∀ k, k ≠ "status" → k ≠ "owner" → k ≠ "attempt" → k ≠ "updated_at" →
                Dict.get k node' = Dict.get k node)
  | _ => w' = w
  end.
Proof.
  rewrite poll_next_task_unfold. intros Hrun.
  apply claim_first_outcome in Hrun.
  destruct r as [[task|]|e]; [|done|done].
  destruct Hrun as (listed & looked_up & before & node & after & node'
                    & Hin & Hty & Hlisted & Hsplit & Hbefore & Heq & -> & _ & Hrest).
  exists listed, looked_up, before, node, after, node'.
  apply list_elem_of_In, filter_In in Hin as [Hin Hst]. apply list_elem_of_In in Hin.
  split; [done|]. split; [unfold eligible; by rewrite Hst, Hty|].
  split; [done|]. split; [done|]. split; [done|]. split; [done|].
  split; [|by cbn [registry journals summaries]].
  intros s Hs. rewrite Hs in Heq. apply py_eqb_string in Heq. split; [done|].
  subst looked_up. eapply Forall_impl; [exact Hbefore|].
  intros t (j & Hj & Hne). exists j. split; [done|]. intros ->.
  cbn in Hne. by rewrite String.eqb_refl in Hne.
Qed.

End RuntimeBehaviour.

(** ** One turn of an agent *)

Section AgentBehaviour.

Context `{!PyLib} {disk : FileSystem}.

Lemma bind_ok {A B} (m : M A) (k : A → M B) (w : World) (b : B) (w' : World) :
  bind m k w = (Ok b, w') →
  ∃ a w1, m w = (Ok a, w1) ∧ k a w1 = (Ok b, w').
Proof.
  unfold bind. destruct (m w) as [[a|e] w1]; [|done]. intros Hk. by exists a, w1.
Qed.

Lemma log_then_update_ok (task : AgentTask) (payload patch : pydict) (w : World)
    before node after (i : pyval) (node' : pydict) (w' : World) :
  log_then_update task payload patch w = (Ok node', w') →
  registry w = (before ++ node :: after)%list →
  Forall (fun t => ∃ j, Dict.get "id" t = Some j ∧ py_eqb j (at_id task) = false) before →
  Dict.get "id" node = Some i →
  py_eqb i (at_id task) = true →
  ∃ file entry,
    node' = Dict.set "updated_at" (PStr (isoformat_utc (clock w (S (clock_reads w)))))
                     (Dict.update patch node)
    ∧ registry w' = (before ++ node' :: after)%list
    ∧ journal w' file = (journal w file ++ [entry])%list
    ∧ Dict.get "type" entry = Some (PStr "AGENT_RESULT")
    ∧ Dict.get "payload" entry = Some (PDict payload).
Proof.
  intros Hrun Hsplit Hbefore Hid Heq.
  assert (∃ conv file, conversation_id task = Ok conv ∧ py_truthy conv = true
                       ∧ log_file (py_str conv) = Opens file)
    as (conv & file & Hconv & Htruthy & Hfile).
  { unfold log_then_update in Hrun. apply bind_ok in Hrun as (u & w1 & Hlog & _).
    by eapply _append_event_returns. }
  rewrite (log_then_update_found _ _ _ _ conv file before node after i) in Hrun by done.
  cbv zeta in Hrun. injection Hrun as <- <-.
  eexists file, _. split; [reflexivity|]. split; [reflexivity|].
  split; [unfold journal at 1; cbn [journals]; by rewrite lookup_insert_eq|].
  pose proof (agent_event_entry conv "AGENT_RESULT" payload
                (uuid_hex w (uuid_draws w)) (clock w (clock_reads w))) as (Ht & Hp & _).
  done.
Qed.

(** X17.  With no PENDING task of the agent's type in the registry, [execute_once]
    returns nothing and is invisible: neither the handler nor any hook runs,
    and registry, journals, clock and runtime are as before. *)
Theorem execute_once_idle (agent : BaseAgent) (rt : AgentRuntime) (w : World) :
  Forall (fun t => eligible (agent_type rt) t = false) (registry w) →
  execute_once agent rt w = (Ok (None, rt), w).
Proof.
  intros Hnone. unfold execute_once, bind. by rewrite poll_none.
Qed.

(** X18.  A turn that returns has settled the task it claimed.  In a registry of
    distinct string ids, for an agent whose handler and hooks update no task:
    if [execute_once] returns a result, the first PENDING task of the agent's
    type is now COMPLETED with the result's payload as [outputs.result]; if it
    returns nothing, that task is FAILED with the error's payload as
    [outputs.error].  Either way the task keeps its id and its place, is owned
    by the agent, and the last entry of some journal is the AGENT_RESULT event
    with that payload. *)
Theorem execute_once_settles_claimed_task (agent : BaseAgent) (rt : AgentRuntime)
    (w : World) before node after (outcome : option AgentResult) (rt' : AgentRuntime)
    (w' : World) :
  registry_ok (registry w) →
  registry w = (before ++ node :: after)%list →
  Forall (fun t => eligible (agent_type rt) t = false) before →
  eligible (agent_type rt) node = true →
  updates_no_task agent →
  execute_once agent rt w = (Ok (outcome, rt'), w') →
  ∃ node' new file earlier entry,
    registry w' = (before ++ node' :: after ++ new)%list
    ∧ Dict.get "id" node' = Dict.get "id" node
    ∧ Dict.get "owner" node' = Some (PStr (agent_id rt))
    ∧ journal w' file = (earlier ++ [entry])%list
    ∧ Dict.get "type" entry = Some (PStr "AGENT_RESULT")
    ∧ match outcome with
      | Some result =>
          Dict.get "status" node' = Some (PStr "COMPLETED")
          ∧ Dict.get "outputs" node'
            = Some (PDict [("result", PDict (result_payload rt' result))])
          ∧ Dict.get "payload" entry = Some (PDict (result_payload rt' result))
      | None =>
          Dict.get "status" node' = Some (PStr "FAILED")
          ∧ ∃ error,
              Dict.get "outputs" node' = Some (PDict [("error", PDict (to_payload error))])
              ∧ Dict.get "payload" entry = Some (PDict (error_payload rt' error))
      end.
Proof.
  intros Hok Hsplit Hbefore Helig (Hhandle & Hassign & Hprogress & Hcomplete & Herror) Hrun.
  destruct (poll_claims_first rt w before node after Hok Hsplit Hbefore Helig)
    as (n & task & _ & Hpoll & _ & Hid & _).
  cbv zeta in Hpoll.
  rewrite Hsplit in Hok.
  destruct (registry_ok_split _ _ _ Hok) as (s & _ & Hs & _ & Hids & _).
  rewrite Hs in Hid. injection Hid as Htask.
  set (claimed := claimed_node rt (isoformat_utc (clock w (clock_reads w))) (n + 1) node) in *.
  assert (Hcid : Dict.get "id" claimed = Some (PStr s)).
  { unfold claimed. by rewrite claimed_node_id. }
  assert (Hown : Dict.get "owner" claimed = Some (PStr (agent_id rt))).
  { apply claimed_node_fields. }
  assert (Hids' : Forall (fun t => ∃ j, Dict.get "id" t = Some j
                                        ∧ py_eqb j (at_id task) = false) before).
  { eapply Forall_impl; [exact Hids|]. intros t (s' & Hs' & Hne).
    exists (PStr s'). split; [done|]. rewrite Htask. cbn.
    by destruct (String.eqb_spec s' s). }
  assert (Hself : py_eqb (PStr s) (at_id task) = true).
  { rewrite Htask. cbn. apply String.eqb_refl. }
  unfold execute_once in Hrun.
  apply bind_ok in Hrun as (polled & w1 & Hpolled & Hrun).
  rewrite Hpoll in Hpolled. injection Hpolled as <- <-.
  apply bind_ok in Hrun as (rt2 & w2 & Hrun2 & Hrun).
  destruct (Hassign _ _ _ _ _ Hrun2) as [new2 Hreg2]. cbn [registry] in Hreg2.
  apply bind_ok in Hrun as (rt3 & w3 & Hrun3 & Hrun).
  destruct (Hprogress _ _ _ _ _ Hrun3) as [new3 Hreg3]. rewrite Hreg2 in Hreg3.
  apply bind_ok in Hrun as ([ended rt4] & w4 & Hrun4 & Hrun).
  destruct (Hhandle _ _ _ _ _ Hrun4) as [new4 Hreg4]. rewrite Hreg3 in Hreg4.
  destruct ended as [result|error].
  - apply bind_ok in Hrun as (rt5 & w5 & Hrun5 & Hrun).
    destruct (Hcomplete _ _ _ _ _ _ Hrun5) as [new5 Hreg5]. rewrite Hreg4 in Hreg5.
    rewrite <- !app_assoc in Hreg5. cbn [app] in Hreg5.
    apply bind_ok in Hrun as (node' & w6 & Hrun6 & Hrun).
    injection Hrun as <- <- <-.
    rewrite complete_task_shape in Hrun6.
    destruct (log_then_update_ok _ _ _ _ _ _ _ _ _ _ Hrun6 Hreg5 Hids' Hcid Hself)
      as (file & entry & Hnode' & Hreg6 & Hjournal & Htype & Hpayload).
    destruct (patched_node_fields
                [("status", PStr "COMPLETED");
                 ("outputs", PDict [("result", PDict (result_payload rt5 result))])]
                claimed (PStr (isoformat_utc (clock w5 (S (clock_reads w5)))))
                (status_outputs_nodup _ _)) as (_ & Hpatched & Hkept).
    cbv zeta in Hpatched, Hkept. rewrite <- Hnode' in Hpatched, Hkept.
    exists node', (new2 ++ new3 ++ new4 ++ new5)%list, file, (journal w5 file), entry.
    split; [by rewrite Hreg6, !app_assoc|].
    split; [rewrite Hkept by done; by rewrite Hcid|].
    split; [by rewrite Hkept|].
    split; [done|]. split; [done|].
    split; [by apply Hpatched|]. split; [by apply Hpatched|done].
  - apply bind_ok in Hrun as (rt5 & w5 & Hrun5 & Hrun).
    destruct (Herror _ _ _ _ _ _ Hrun5) as [new5 Hreg5]. rewrite Hreg4 in Hreg5.
    rewrite <- !app_assoc in Hreg5. cbn [app] in Hreg5.
    apply bind_ok in Hrun as (node' & w6 & Hrun6 & Hrun).
    injection Hrun as <- <- <-.
    rewrite fail_task_shape in Hrun6.
    destruct (log_then_update_ok _ _ _ _ _ _ _ _ _ _ Hrun6 Hreg5 Hids' Hcid Hself)
      as (file & entry & Hnode' & Hreg6 & Hjournal & Htype & Hpayload).
    destruct (patched_node_fields
                [("status", PStr "FAILED");
                 ("outputs", PDict [("error", PDict (to_payload error))])]
                claimed (PStr (isoformat_utc (clock w5 (S (clock_reads w5)))))
                (status_outputs_nodup _ _)) as (_ & Hpatched & Hkept).
    cbv zeta in Hpatched, Hkept. rewrite <- Hnode' in Hpatched, Hkept.
    exists node', (new2 ++ new3 ++ new4 ++ new5)%list, file, (journal w5 file), entry.
    split; [by rewrite Hreg6, !app_assoc|].
    split; [rewrite Hkept by done; by rewrite Hcid|].
    split; [by rewrite Hkept|].
    split; [done|]. split; [done|].
    split; [by apply Hpatched|]. exists error. split; [by apply Hpatched|done].
Qed.

End AgentBehaviour.

(** ** Summaries, the window and the controller *)

Section SummaryBehaviour.

Context `{!PyLib} {disk : FileSystem}.

Lemma group_append_keys (group item : string) (groups : list (string * list string)) :
  (group_append group item groups).*1
  = if bool_decide (group ∈ groups.*1) then groups.*1 else (groups.*1 ++ [group])%list.
Proof.
  induction groups as [|[g items] rest IH]; cbn [group_append]; [done|].
  destruct (String.eqb_spec g group) as [->|Hne].
  - cbn. rewrite bool_decide_eq_true_2; [done|]. left.
  - cbn [fmap list_fmap fst] in *. change (list_fmap _ _ fst ?l) with (l.*1) in *.
    rewrite IH. destruct (bool_decide (group ∈ rest.*1)) eqn:Hin.
    + apply bool_decide_eq_true in Hin. rewrite bool_decide_eq_true_2; [done|by right].
    + apply bool_decide_eq_false in Hin. rewrite bool_decide_eq_false_2; [done|].
      rewrite not_elem_of_cons. split; congruence.
Qed.

Lemma group_items_absent (group : string) (groups : list (string * list string)) :
  group ∉ groups.*1 → group_items group groups = [].
Proof.
  induction groups as [|[g items] rest IH]; cbn; [done|]. intros Hnot.
  apply not_elem_of_cons in Hnot as [Hne Hnot].
  destruct (String.eqb_spec g group) as [->|_]; [done|]. by apply IH.
Qed.

Lemma group_append_items (group item group' : string) (groups : list (string * list string)) :
  group_items group' (group_append group item groups)
  = if String.eqb group group' then (group_items group' groups ++ [item])%list
    else group_items group' groups.
Proof.
  induction groups as [|[g items] rest IH]; cbn [group_append group_items].
  - by destruct (String.eqb group group').
  - destruct (String.eqb_spec g group) as [->|Hne]; cbn [group_items].
    + by destruct (String.eqb group group').
    + destruct (String.eqb_spec g group') as [->|Hne'].
      * by destruct (String.eqb_spec group group') as [->|_].
      * apply IH.
Qed.

Lemma summary_groups (events : list pydict) (acc : list (string * list string)) :
  let groups :=
    fold_left (fun acc event => group_append (event_group event) (_stringify_event event) acc)
              events acc in
  (NoDup acc.*1 → NoDup groups.*1)
  ∧ (∀ g, g ∈ groups.*1 ↔ g ∈ acc.*1 ∨ ∃ e, e ∈ events ∧ event_group e = g)
  ∧ (∀ g, group_items g groups
          = (group_items g acc
             ++ List.map _stringify_event
                  (List.filter (fun e => String.eqb (event_group e) g) events))%list).
Proof.
  revert acc. induction events as [|event events IH]; intros acc; cbn [fold_left].
  { split; [done|]. split.
    - intros g. split; [by left|]. intros [Hg|(e & He & _)]; [done|]. by apply elem_of_nil in He.
    - intros g. by rewrite app_nil_r. }
  destruct (IH (group_append (event_group event) (_stringify_event event) acc))
    as (Hnodup & Hkeys & Hitems).
  cbv zeta. split; [|split].
  - intros Hacc. apply Hnodup. rewrite group_append_keys.
    destruct (bool_decide (event_group event ∈ acc.*1)) eqn:Hin; [done|].
    apply bool_decide_eq_false in Hin. apply NoDup_app. split; [done|].
    split; [|apply NoDup_singleton].
    intros g Hg Hg'. apply list_elem_of_singleton in Hg'. by subst g.
  - intros g. rewrite Hkeys, group_append_keys. split.
    + intros [Hg|(e & He & Heq)].
      * destruct (bool_decide (event_group event ∈ acc.*1)); [by left|].
        apply elem_of_app in Hg as [Hg|Hg]; [by left|].
        apply list_elem_of_singleton in Hg. right. exists event. split; [left|done].
      * right. exists e. split; [by right|done].
    + intros [Hg|(e & He & Heq)].
      * left. destruct (bool_decide (event_group event ∈ acc.*1)); [done|].
        apply elem_of_app. by left.
      * apply elem_of_cons in He as [->|He]; [|right; by exists e].
        left. destruct (bool_decide (event_group event ∈ acc.*1)) eqn:Hin.
        -- apply bool_decide_eq_true in Hin. by rewrite <- Heq.
        -- apply elem_of_app. right. rewrite Heq. apply list_elem_of_singleton. done.
  - intros g. rewrite Hitems, group_append_items. cbn [List.filter].
    destruct (String.eqb (event_group event) g); [|done].
    cbn [List.map]. by rewrite <- app_assoc.
Qed.

Lemma insert_sorted_perm (s : string) (l : list string) : insert_sorted s l ≡ₚ s :: l.
Proof.
  induction l as [|t rest IH]; cbn; [done|].
  destruct (String.leb s t); [done|]. rewrite IH. apply Permutation_swap.
Qed.

Lemma sorted_strings_perm (l : list string) : sorted_strings l ≡ₚ l.
Proof.
  unfold sorted_strings. induction l as [|s rest IH]; cbn; [done|].
  by rewrite insert_sorted_perm, IH.
Qed.

Lemma insert_sorted_sorted (s : string) (l : list string) :
  StronglySorted String.le l → StronglySorted String.le (insert_sorted s l).
Proof.
  induction 1 as [|t rest Hsorted IH Hall]; cbn.
  - repeat constructor.
  - destruct (String.leb s t) eqn:Hst.
    + assert (Hle : String.le s t) by (unfold String.le; by rewrite Hst).
      constructor; [by constructor|]. constructor; [done|].
      eapply Forall_impl; [exact Hall|]. intros u Hu. by etransitivity.
    + constructor; [done|]. rewrite insert_sorted_perm. constructor; [|done].
      destruct (total String.le s t) as [Hle|Hle]; [|done].
      unfold String.le in Hle. by rewrite Hst in Hle.
Qed.

Lemma sorted_strings_sorted (l : list string) : StronglySorted String.le (sorted_strings l).
Proof.
  unfold sorted_strings. induction l as [|s rest IH]; cbn; [constructor|].
  by apply insert_sorted_sorted.
Qed.

Lemma flat_map_ext_elem {A B} (f g : A → list B) (l : list A) :
  (∀ x, x ∈ l → f x = g x) → flat_map f l = flat_map g l.
Proof.
  induction l as [|x l IH]; intros Hext; cbn; [done|].
  rewrite (Hext x) by left. rewrite IH; [done|]. intros y Hy. apply Hext. by right.
Qed.

(** X19.  The lines of a summary, read off the events: one section per event type
    that occurs, the sections in ascending order of the type and no type
    twice; a section is its header followed by one item per event of that
    type, in the order of the events.  So every event is rendered exactly
    once. *)
Theorem summary_lines_by_type (events : list pydict) :
  ∃ headers : list string,
    summary_lines events
    = flat_map (fun group =>
                  ("### " ++ group)
                  :: List.map (fun e => "- " ++ _stringify_event e)
                       (List.filter (fun e => String.eqb (event_group e) group) events))
               headers
    ∧ StronglySorted String.le headers
    ∧ NoDup headers
    ∧ (∀ group, group ∈ headers ↔ ∃ e, e ∈ events ∧ event_group e = group)
    ∧ length (summary_lines events) = (length headers + length events)%nat.
Proof.
  destruct (summary_groups events []) as (Hnodup & Hkeys & Hitems).
  cbv zeta in Hnodup, Hkeys, Hitems.
  set (groups := fold_left _ events []) in *.
  exists (sorted_strings groups.*1).
  assert (Hlines : summary_lines events
    = flat_map (fun group =>
                  ("### " ++ group)
                  :: List.map (fun e => "- " ++ _stringify_event e)
                       (List.filter (fun e => String.eqb (event_group e) group) events))
               (sorted_strings groups.*1)).
  { unfold summary_lines. cbv zeta. fold groups.
    change (List.map fst groups) with groups.*1.
    apply flat_map_ext. intros g. f_equal. rewrite Hitems. cbn [group_items app].
    by rewrite List.map_map. }
  assert (Hmem : ∀ group, group ∈ sorted_strings groups.*1
                          ↔ ∃ e, e ∈ events ∧ event_group e = group).
  { intros g. rewrite sorted_strings_perm, Hkeys. split; [|by right].
    intros [Hg|Hg]; [by apply elem_of_nil in Hg|done]. }
  assert (Hnd : NoDup (sorted_strings groups.*1)).
  { rewrite sorted_strings_perm. apply Hnodup. constructor. }
  split; [exact Hlines|]. split; [apply sorted_strings_sorted|].
  split; [exact Hnd|]. split; [exact Hmem|].
  rewrite Hlines. clear Hlines.
  assert (Hcover : ∀ e, e ∈ events → event_group e ∈ sorted_strings groups.*1).
  { intros e He. apply Hmem. by exists e. }
  clear Hmem Hnodup Hkeys Hitems.
  revert Hnd Hcover. generalize (sorted_strings groups.*1) as headers. clear groups.
  intros headers. revert events.
  induction headers as [|g headers IH]; intros events Hnd Hcover.
  - destruct events as [|e events]; [done|].
    exfalso. eapply elem_of_nil, (Hcover e). left.
  - apply NoDup_cons in Hnd as [Hfresh Hnd].
    cbn [flat_map]. rewrite length_app. cbn [length]. rewrite length_map.
    set (rest := List.filter (fun e => negb (String.eqb (event_group e) g)) events).
    assert (Hrest : flat_map (fun group =>
                  ("### " ++ group)
                  :: List.map (fun e => "- " ++ _stringify_event e)
                       (List.filter (fun e => String.eqb (event_group e) group) events))
               headers
            = flat_map (fun group =>
                  ("### " ++ group)
                  :: List.map (fun e => "- " ++ _stringify_event e)
                       (List.filter (fun e => String.eqb (event_group e) group) rest))
               headers).
    { apply flat_map_ext_elem. intros h Hh. do 2 f_equal. unfold rest.
      clear -Hh Hfresh. induction events as [|e events IHe]; [done|]. cbn [List.filter].
      destruct (String.eqb_spec (event_group e) h) as [Heq|Hne].
      - destruct (String.eqb_spec (event_group e) g) as [Heg|_].
        + exfalso. apply Hfresh. by rewrite <- Heg, Heq.
        + cbn [negb List.filter]. rewrite Heq, String.eqb_refl. by rewrite IHe.
      - destruct (String.eqb (event_group e) g); cbn [negb List.filter]; [done|].
        destruct (String.eqb_spec (event_group e) h); [done|]. exact IHe. }
    rewrite Hrest, (IH rest Hnd).
    + assert (Hsplit : (length (List.filter (fun e => String.eqb (event_group e) g) events)
                        + length rest = length events)%nat).
      { unfold rest. clear. induction events as [|e events IHe]; [done|]. cbn [List.filter].
        destruct (String.eqb (event_group e) g); cbn [negb length]; lia. }
      lia.
    + intros e He. unfold rest in He.
      apply list_elem_of_In, filter_In in He as [He Hneq]. apply list_elem_of_In in He.
      specialize (Hcover e He). apply elem_of_cons in Hcover as [Heq|Hin]; [|done].
      rewrite Heq, String.eqb_refl in Hneq. done.
Qed.

(** X20.  Rebuilding the window over the same events is not silent.  For a
    conversation id that is a plain file name and not empty, the second
    call returns the same text and writes the same summary artifact over the
    first, but it appends a second SUMMARY_REFRESH event carrying the same
    [summary_ref]: the journal grows by one entry on every build that
    overflows. *)
Theorem context_slice_rebuild (conv : string) (events : list pydict) (max_events : Z)
    (w : World) :
  plain_id conv = true →
  conv ≠ "" →
  0 < max_events →
  max_events < Z.of_nat (length events) →
  ∃ text w1 w2 first second,
    build_context_slice conv events max_events w = (Ok text, w1)
    ∧ build_context_slice conv events max_events w1 = (Ok text, w2)
    ∧ summaries w2 = summaries w1
    ∧ journal w2 conv = (journal w conv ++ [first; second])%list
    ∧ Dict.get "type" first = Some (PStr "SUMMARY_REFRESH")
    ∧ Dict.get "type" second = Some (PStr "SUMMARY_REFRESH")
    ∧ Dict.get "payload" second = Dict.get "payload" first
    ∧ Dict.get "timestamp" first = Some (PStr (isoformat_utc (clock w (clock_reads w))))
    ∧ Dict.get "timestamp" second
      = Some (PStr (isoformat_utc (clock w (S (clock_reads w))))).
Proof.
  intros Hplain Hconv Hpos Hlen.
  pose proof (context_slice_overflow conv events max_events w Hplain Hconv Hpos Hlen)
    as Hfirst.
  cbv zeta in Hfirst.
  eexists _, _, _, _, _. split; [exact Hfirst|].
  split.
  { rewrite (context_slice_overflow conv events max_events _ Hplain Hconv Hpos Hlen).
    cbv zeta. reflexivity. }
  cbn [summaries journals clock clock_reads uuid_hex uuid_draws].
  split; [by rewrite insert_insert_eq|].
  split.
  { unfold journal at 1. cbn [journals]. rewrite lookup_insert_eq. cbn [from_option id].
    unfold journal at 1. cbn [journals]. rewrite lookup_insert_eq. cbn [from_option id].
    by rewrite <- app_assoc. }
  rewrite !stamped_entry_get by done.
  split; [done|]. split; [done|]. split; [done|].
  unfold stamped_entry. by rewrite !get_set_eq.
Qed.

Lemma slice_from_recent {A} (k : Z) (older recent : list A) :
  0 < k → (Z.to_nat k ≤ length recent)%nat →
  slice_from (- k) (older ++ recent) = slice_from (- k) recent.
Proof.
  intros Hk Hlen. rewrite !slice_from_neg by done. rewrite length_app.
  rewrite drop_app_ge by lia. f_equal. lia.
Qed.

Lemma slice_from_nested {A} (j k : Z) (l : list A) :
  0 < j → j ≤ k →
  slice_from (- j) (slice_from (- k) l) = slice_from (- j) l.
Proof.
  intros Hj Hjk. rewrite !slice_from_neg by lia. rewrite drop_drop, length_drop.
  destruct (Nat.le_gt_cases (length l) (Z.to_nat k)) as [Hle|Hgt].
  - replace (length l - Z.to_nat k)%nat with 0%nat by lia.
    cbn [Nat.add]. f_equal. lia.
  - f_equal. lia.
Qed.

(** X21.  [decide] looks at nothing but the last five events: the decision on a
    list of events is the decision on its last five, gate, recorded types and
    all; whatever precedes five recent events never changes it. *)
Theorem decide_reads_last_five (hints : option (list string)) (events : list pydict) :
  decide hints events = decide hints (slice_from (-5) events)
  ∧ ∀ older recent,
      events = (older ++ recent)%list →
      (5 ≤ length recent)%nat →
      decide hints events = decide hints recent.
Proof.
  assert (Hlocal : ∀ l, decide hints l = decide hints (slice_from (-5) l)).
  { intros l. unfold decide, speak_gate.
    rewrite (slice_from_nested 5 5) by lia. by rewrite (slice_from_nested 3 5) by lia. }
  split; [apply Hlocal|].
  intros older recent -> Hlen.
  rewrite (Hlocal (older ++ recent)%list), (Hlocal recent).
  by rewrite (slice_from_recent 5) by (simpl; lia).
Qed.

Section NarratorBehaviour.

Variable json_dumps : pyval → string.

(** X22.  [build_narrator_prompt] writes to the log only when it stays silent.
    With [speak_now] true it returns a prompt and touches nothing.  With
    [speak_now] false and a conversation id that is not empty, all depends on
    the journal the id names: if it opens, as it does for every plain file
    name, no prompt is returned and that journal gains one internal
    NARRATION_SUPPRESSED entry recording the actions, every other journal
    staying as it was; if it cannot be opened, the error of the file system
    is raised and no journal, task or summary has changed.  For an empty
    conversation id the append is refused with [ValueError] and nothing is
    written. *)
Theorem narrator_silence_is_logged (self : ControllerRunner) (actions : list pyval)
    (context_markdown : string) (conv : string) (w : World) :
  (∃ prompt,
      build_narrator_prompt json_dumps self actions context_markdown true conv w
      = (Ok (Some prompt), w))
  ∧ (conv ≠ "" →
     match log_file conv with
     | Opens file =>
         ∃ entry w',
           build_narrator_prompt json_dumps self actions context_markdown false conv w
           = (Ok None, w')
           ∧ journal w' file = (journal w file ++ [entry])%list
           ∧ (∀ other, other ≠ file → journals w' !! other = journals w !! other)
           ∧ registry w' = registry w
           ∧ summaries w' = summaries w
           ∧ Dict.get "type" entry = Some (PStr "NARRATION_SUPPRESSED")
           ∧ Dict.get "visibility" entry = Some (PStr "internal")
           ∧ Dict.get "payload" entry
             = Some (PDict [("reason", PStr "speak_now=false"); ("actions", PList actions)])
     | Missing e | Unusable e =>
         ∃ w',
           build_narrator_prompt json_dumps self actions context_markdown false conv w
           = (Raise e, w')
           ∧ journals w' = journals w
           ∧ registry w' = registry w
           ∧ summaries w' = summaries w
     end)
  ∧ (plain_id conv = true → log_file conv = Opens conv)
  ∧ (conv = "" →
     build_narrator_prompt json_dumps self actions context_markdown false conv w
     = (Raise (ValueError "conversation_id is required"), w)).
Proof.
  split; [by eexists|]. split; [|split; [apply log_file_plain|by intros ->]].
  intros Hconv. unfold build_narrator_prompt. cbn [negb]. unfold bind.
  rewrite append_event_unfold.
  change (Dict.get_or "conversation_id" PNone (suppressed_event conv actions))
    with (PStr conv).
  cbv zeta. cbn [py_truthy py_str].
  destruct (String.eqb_spec conv "") as [->|_]; [done|]. cbn [negb].
  destruct (log_file conv) as [file|e|e]; [|by eexists|by eexists].
  destruct (stamped_entry_id (suppressed_event conv actions)
              (uuid_hex w (uuid_draws w)) (clock w (clock_reads w))) as [id Hid].
  rewrite Hid. unfold ret. eexists _, _. split; [reflexivity|].
  split; [unfold journal at 1; cbn [journals]; by rewrite lookup_insert_eq|].
  split; [intros other Hother; cbn [journals]; by rewrite lookup_insert_ne|].
  split; [done|]. split; [done|].
  by rewrite !stamped_entry_get by done.
Qed.

End NarratorBehaviour.

End SummaryBehaviour.

(** * The properties at concrete inputs *)

Section Instances.

#[local] Existing Instance demo_lib.
#[local] Existing Instance demo_fs.


Lemma one_task_world_ok : registry_ok (registry one_task_world).
Proof.
  split.
  - exists ["task-1"]. split; [reflexivity|]. apply NoDup_singleton.
  - repeat constructor. by exists 0.
Qed.

Lemma three_task_world_ok : registry_ok (registry three_task_world).
Proof.
  split.
  - exists ["task-1"; "task-2"; "task-3"]. split; [reflexivity|].
    by apply (bool_decide_unpack _).
  - repeat constructor; by exists 0.
Qed.

(** C1, the failing input: one PENDING coder task and two coder workers whose
    listings both precede the updates.  Both claims return [task-1]. *)
Lemma interleaved_claims_collide_witness :
  ∃ (t1 t2 : AgentTask) (w' : World),
    run_schedule [0; 1; 0; 1]%nat [(coder_1, Polling); (coder_2, Polling)] one_task_world
    = ([(coder_1, Claimed (Ok (Some t1))); (coder_2, Claimed (Ok (Some t2)))], w')
    ∧ Some (at_id t1) = Some (PStr "task-1")
    ∧ at_id t2 = at_id t1
    ∧ at_owner t1 = PStr "coder-1"
    ∧ at_owner t2 = PStr "coder-2".
Proof.
  apply (interleaved_claims_collide coder_1 coder_2 one_task_world []
           (default [] (head (registry one_task_world))) []).
  - reflexivity.
  - apply one_task_world_ok.
  - reflexivity.
  - constructor.
  - reflexivity.
Defined.

(** Run one after the other on the same world, the second claim finds
    nothing. *)
Lemma sequential_claims_example :
  claimed_id (poll_next_task coder_1 one_task_world) = Some (PStr "task-1")
  ∧ claimed_id (poll_next_task coder_2 (poll_next_task coder_1 one_task_world).2) = None.
Proof. split; reflexivity. Qed.

(** C2 at the payload of the runtime's own test. *)
Lemma policy_guard_rejects_witness :
  run_op coder_1 held_task
         (EmitUpdate "nope" None (Some [("render_to_user", PBool true)])) one_task_world
  = (Raise (PolicyViolation "Agent events cannot add user-visible output; narrator only."),
     one_task_world).
Proof. apply policy_guard_rejects. reflexivity. Defined.

(** A flag that is present but false is dropped from the payload, and the
    event is appended without it. *)
Lemma false_flag_is_dropped :
  ∃ entry,
    journal (run_op coder_1 held_task
               (EmitUpdate "ok" None (Some [("render_to_user", PBool false)]))
               one_task_world).2 "conv-1" = [entry]
    ∧ Dict.get "payload" entry
      = Some (PDict [ ("task_id", PStr "task-1"); ("agent_id", PStr "coder-1");
                      ("agent_type", PStr "coder"); ("message", PStr "ok") ]).
Proof. eexists. split; reflexivity. Qed.

(** C3 on a registry that holds a search task before two coder tasks: the
    first coder task is the one claimed. *)
Lemma claim_next_storage_order_witness :
  ∃ (task : AgentTask) (w' : World),
    poll_next_task coder_1 three_task_world = (Ok (Some task), w')
    ∧ at_id task = PStr "task-2"
    ∧ at_status task = PStr "IN_PROGRESS"
    ∧ at_owner task = PStr "coder-1"
    ∧ at_attempt task = PInt 1.
Proof.
  destruct (proj2 (claim_next_storage_order coder_1 three_task_world)
              (take 1 (registry three_task_world))
              (default [] (registry three_task_world !! 1%nat))
              (drop 2 (registry three_task_world)))
    as (n & task & Hatt & Hrun & _ & Hid & Hst & How & Hat).
  - apply three_task_world_ok.
  - reflexivity.
  - repeat constructor.
  - reflexivity.
  - assert (Hn : n = 0).
    { change (PInt 0 = PInt n) in Hatt. by injection Hatt. }
    assert (Hid' : at_id task = PStr "task-2").
    { change (Some (at_id task) = Some (PStr "task-2")) in Hid. by injection Hid. }
    rewrite Hn in Hat. exists task. eexists. split; [exact Hrun|].
    repeat split; assumption.
Defined.

(** C3, the counterexample: of two eligible tasks the one stored first is
    claimed, although the other was created earlier; and when both carry the
    same creation instant, the one stored first is claimed whichever way their
    ids compare. *)
Lemma claim_not_by_creation_then_id :
  (claimed_id (poll_next_task coder_1 late_first_world) = Some (PStr "task-late")
   ∧ Dict.get "id" <$> spec_choice "coder" (registry late_first_world)
     = Some (Some (PStr "task-early")))
  ∧ (claimed_id (poll_next_task coder_1 tie_world) = Some (PStr "task-b")
     ∧ Dict.get "id" <$> spec_choice "coder" (registry tie_world)
       = Some (Some (PStr "task-a")))
  ∧ claimed_id (poll_next_task coder_1 tie_world_swapped) = Some (PStr "task-a").
Proof. repeat split; reflexivity. Qed.

(** C4 on three messages, summarised once as drafts and once as the journal
    returns them, with the id and the timestamp [append_event] added. *)
Lemma rolling_summary_pure_witness :
  let drafts := [user_message "Hello"; user_message "Status?"; user_message "Thanks"] in
  let stored := List.map (fun draft => stamped_entry draft (demo_uuid 0) (demo_clock 0)) drafts in
  summary_ref (rolling_summary "alpha" stored) = summary_ref (rolling_summary "alpha" drafts)
  ∧ summary_ref (rolling_summary "alpha" drafts)
    = sha256_hexdigest (content (rolling_summary "alpha" drafts)).
Proof.
  intros drafts stored.
  destruct (rolling_summary_pure "alpha" "alpha" drafts empty_world empty_world)
    as (Href & _ & _ & Hext & _).
  split; [by apply Hext|exact Href].
Defined.

(** C5 on the events of the controller's own test. *)
Lemma decide_gate_witness :
  let user := [("type", PStr "USER_MESSAGE"); ("payload", PDict [("text", PStr "hi")])] in
  let update := [("type", PStr "AGENT_UPDATE"); ("payload", PDict [("state", PStr "working")])] in
  let outcome := [("type", PStr "AGENT_RESULT"); ("payload", PDict [("summary", PStr "done")])] in
  Dict.get "speak_now" (decide (Some []) [user; update]) = Some (PBool false)
  ∧ Dict.get "speak_now" (decide (Some ["user_waiting"]) [user; update]) = Some (PBool true)
  ∧ Dict.get "speak_now" (decide (Some []) ([user; update] ++ [outcome])) = Some (PBool true).
Proof.
  intros user update outcome.
  destruct (decide_gate (Some []) [user; update]) as (_ & Ha & _ & Hc).
  destruct (decide_gate (Some ["user_waiting"]) [user; update]) as (_ & _ & Hb & _).
  split; [by apply Ha|]. split; [exact Hb|]. by apply Hc.
Defined.

(** C6 on the input of the controller's own test: forty events and a budget
    of thirty.  The last thirty are rendered, the first ten summarised, one
    event appended. *)
Lemma context_window_witness :
  let summary := rolling_summary "conv-1" (take 10 forty_events) in
  length (drop 10 forty_events) = 30%nat
  ∧ ∃ (w' : World),
      build_context_slice "conv-1" forty_events 30 empty_world
      = (Ok (String.concat nl (List.map render_event (drop 10 forty_events))
             ++ summary_section "conv-1" summary), w')
      ∧ summaries w' !! "conv-1" = Some (artifact summary)
      ∧ List.map (Dict.get "type") (journal w' "conv-1") = [Some (PStr "SUMMARY_REFRESH")].
Proof.
  intros summary.
  pose proof (proj2 (context_window "conv-1" forty_events 30 empty_world)) as Hwin.
  cbv zeta in Hwin.
  destruct Hwin as (Hlen & _ & Hrun & _); [reflexivity|done|lia|simpl; lia|].
  split; [exact Hlen|]. eexists. split; [exact Hrun|].
  split; [apply lookup_insert_eq|].
  unfold journal at 1. cbn [journals]. rewrite lookup_insert_eq.
  change (journal empty_world "conv-1") with (@nil pydict).
  reflexivity.
Defined.

(** C6, the counterexample.  With [max_events = 0] a list of one event is
    longer than the budget, yet the event is rendered, nothing is summarised
    and nothing is appended: [events[-0:]] is the whole list and [events[:-0]]
    is empty.  And with an empty conversation id an overflow is summarised and
    persisted, after which [append_event] refuses the SUMMARY_REFRESH event:
    no text is returned and no event is appended.  And with the conversation
    id [a/b], which names a file in a directory that does not exist, the
    summary cannot be written: the call raises before anything is persisted
    or appended. *)
Lemma context_window_counterexample :
  (0 < Z.of_nat (length [status_event 7])
   ∧ build_context_slice "conv-1" [status_event 7] 0 empty_world
     = (Ok (render_event (status_event 7)), empty_world))
  ∧ (1 < Z.of_nat (length [status_event 0; status_event 1])
     ∧ (build_context_slice "" [status_event 0; status_event 1] 1 empty_world).1
       = Raise (ValueError "conversation_id is required")
     ∧ journals (build_context_slice "" [status_event 0; status_event 1] 1 empty_world).2
       = ∅)
  ∧ (1 < Z.of_nat (length [status_event 0; status_event 1])
     ∧ build_context_slice "a/b" [status_event 0; status_event 1] 1 empty_world
       = (Raise (OSError "[Errno 2] No such file or directory"), empty_world)).
Proof. repeat split; solve [simpl; lia | reflexivity]. Qed.



(** C8 on the draft of the store's own test. *)
Lemma create_task_id_and_timestamps_witness :
  ∃ (node : pydict) (w' : World),
    create_task analysis_draft empty_world = (Ok node, w')
    ∧ Dict.get "id" node = Some (PStr "task-9f1c2b7e4a6d4c3f8e5a0b1d2c3e4f50")
    ∧ Dict.get "updated_at" node = Some (PStr "2023-11-14T22:13:20Z")
    ∧ Dict.get "created_at" node = Some (PStr "2023-11-14T22:13:20Z")
    ∧ (Dict.get "created_at" analysis_draft = None →
       Dict.get "created_at" node = Dict.get "updated_at" node)
    ∧ registry w' = [node].
Proof.
  exact (create_task_id_and_timestamps analysis_draft empty_world
           (PStr "analysis") (PStr "PENDING") eq_refl eq_refl).
Defined.

(** C8, the counterexample: a draft that brings its own [created_at] keeps
    it, while [updated_at] is the instant of the call. *)
Lemma create_task_keeps_supplied_created_at :
  returned_field "created_at" (create_task backdated_draft empty_world)
  = Some (PStr "2020-01-01T00:00:00Z")
  ∧ returned_field "updated_at" (create_task backdated_draft empty_world)
    = Some (PStr "2023-11-14T22:13:20Z").
Proof. split; reflexivity. Qed.

(** C9 on a claim-like patch. *)
Lemma store_keeps_ids_witness :
  task_ids (registry (update_task (PStr "task-1") [("status", PStr "IN_PROGRESS")]
                                  one_task_world).2)
  = task_ids (registry one_task_world).
Proof.
  apply (proj1 (store_keeps_ids one_task_world)
           (PStr "task-1") [("status", PStr "IN_PROGRESS")]
           (update_task (PStr "task-1") [("status", PStr "IN_PROGRESS")] one_task_world).1).
  - reflexivity.
  - by destruct (update_task _ _ _).
Defined.

(** C9, the counterexample: a patch may carry the key ["id"], and then the
    task's id is overwritten like any other field. *)
Lemma update_task_rewrites_id :
  task_ids (registry one_task_world) = [Some (PStr "task-1")]
  ∧ task_ids (registry (update_task (PStr "task-1") [("id", PStr "task-2")]
                                    one_task_world).2)
    = [Some (PStr "task-2")].
Proof. split; reflexivity. Qed.

End Instances.

(** * The further properties at concrete inputs *)

Section MoreInstances.

#[local] Existing Instance demo_lib.
#[local] Existing Instance demo_fs.

Lemma emit_update_keeps_tasks rt task message progress extra :
  keeps_tasks (emit_update rt task message progress extra).
Proof.
  intros w r w' Hrun. exists []. rewrite app_nil_r.
  unfold emit_update, bind at 1, lift in Hrun.
  destruct (_enforce_policy _) as [payload|e]; [|by injection Hrun as _ <-].
  unfold bind at 1 in Hrun. rewrite _append_event_unfold in Hrun.
  destruct (conversation_id task) as [conv|e]; [|by injection Hrun as _ <-].
  destruct (py_truthy conv); [|by injection Hrun as _ <-].
  destruct (log_file (py_str conv)) as [file|e|e]; [|by injection Hrun as _ <-..].
  unfold bind, read_clock, ret in Hrun. by injection Hrun as _ <-.
Qed.

Lemma keeps_tasks_ret {A} (a : A) : keeps_tasks (ret a).
Proof. intros w r w' Hrun. exists []. rewrite app_nil_r. by injection Hrun as _ <-. Qed.

Lemma default_agent_updates_no_task handle :
  (∀ task runtime, keeps_tasks (handle task runtime)) →
  updates_no_task (default_agent handle).
Proof.
  intros Hhandle. split; [exact Hhandle|].
  repeat split; intros; apply keeps_tasks_ret.
Qed.

Lemma echo_agent_updates_no_task : updates_no_task echo_agent.
Proof.
  apply default_agent_updates_no_task. intros task runtime w r w' Hrun.
  unfold bind in Hrun.
  destruct (emit_update runtime task "working" (Some [("step", PInt 1)]) None w)
    as [[rt1|e] w1] eqn:Hemit.
  - injection Hrun as _ <-. by eapply emit_update_keeps_tasks.
  - injection Hrun as _ <-. by eapply emit_update_keeps_tasks.
Qed.

(** An owner is set on the second of three tasks: the patch lands there and
    the status is kept. *)
Lemma update_task_patches_first_match_witness :
  ∃ node',
    (update_task (PStr "task-2") [("owner", PStr "planner")] three_task_world).1 = Ok node'
    ∧ Dict.get "owner" node' = Some (PStr "planner")
    ∧ Dict.get "status" node' = Some (PStr "PENDING").
Proof.
  destruct (update_task_patches_first_match (PStr "task-2") [("owner", PStr "planner")]
              three_task_world
              (take 1 (registry three_task_world))
              (default [] (registry three_task_world !! 1%nat))
              (drop 2 (registry three_task_world)) (PStr "task-2"))
    as (node' & Hrun & _ & Hpatch & Hkeep).
  - reflexivity.
  - repeat constructor. by exists (PStr "task-1").
  - reflexivity.
  - reflexivity.
  - apply NoDup_singleton.
  - exists node'. split; [by rewrite Hrun|]. split; [by apply Hpatch|].
    rewrite Hkeep by done. reflexivity.
Defined.

(** A draft with a type and no status. *)
Lemma create_task_rejects_incomplete_draft_witness :
  ∃ w',
    create_task [("type", PStr "coder")] empty_world = (Raise (KeyError "status"), w')
    ∧ registry w' = [].
Proof.
  destruct (create_task_rejects_incomplete_draft [("type", PStr "coder")] empty_world)
    as (missing & w' & Hrun & Hmissing & Hreg & _).
  - by right.
  - exists w'. split; [by rewrite Hrun, Hmissing|exact Hreg].
Defined.

(** The draft of the store's own test, created in the empty world and then
    listed. *)
Lemma create_task_then_list_active_witness :
  ∃ node w' listed,
    create_task analysis_draft empty_world = (Ok node, w')
    ∧ list_active ["PENDING"] empty_world = (Ok listed, empty_world)
    ∧ list_active ["PENDING"] w' = (Ok (listed ++ [node])%list, w')
    ∧ list_active [] w' = (Ok ([] ++ [node])%list, w').
Proof.
  exact (create_task_then_list_active analysis_draft empty_world (PStr "analysis") "PENDING"
           eq_refl eq_refl).
Defined.

(** A draft with its own id and timestamp: the id is kept and returned, the
    timestamp is replaced. *)
Lemma append_event_stamps_witness :
  ∃ entry before,
    journal (append_event labelled_message empty_world).2 "alpha" = (before ++ [entry])%list
    ∧ Dict.get "id" entry = Some (PStr "evt-mine")
    ∧ Dict.get "timestamp" entry = Some (PStr "2023-11-14T22:13:20Z")
    ∧ Dict.get "type" entry = Some (PStr "USER_MESSAGE").
Proof.
  destruct (append_event_stamps labelled_message empty_world (PStr "evt-mine")
              (append_event labelled_message empty_world).2)
    as (entry & before & file & Hfile & Hjournal & Hid & _ & Hts & Hkeys).
  - reflexivity.
  - change (Opens "alpha" = Opens file) in Hfile. injection Hfile as <-.
    exists entry, before. split; [exact Hjournal|]. split; [exact Hid|].
    split; [exact Hts|]. by rewrite Hkeys.
Defined.

(** The last two of three messages. *)
Lemma tail_limits_witness :
  ∃ entries,
    tail "alpha" 2 alpha_world = (Ok entries, alpha_world)
    ∧ length entries = 2%nat
    ∧ (tail "alpha" 0 alpha_world).1 = Ok (journal alpha_world "alpha").
Proof.
  destruct (tail_limits "alpha" 2 alpha_world "alpha" (journal alpha_world "alpha"))
    as (entries & Hrun & Hpos & _); [reflexivity..|].
  destruct (tail_limits "alpha" 0 alpha_world "alpha" (journal alpha_world "alpha"))
    as (all & Hrun0 & _ & Hzero & _); [reflexivity..|].
  exists entries. split; [exact Hrun|]. split; [apply Hpos; lia|].
  rewrite Hrun0. cbn [fst]. f_equal. by apply Hzero.
Defined.

(** The results of two journals, found in the order of their timestamps:
    the two entries of [beta], and not the message logged to [alpha] between
    them. *)
Lemma by_type_selects_sorted_witness :
  let found := found_entries (by_type ["AGENT_RESULT"] None two_journal_world) in
  length found = 2%nat
  ∧ StronglySorted timestamp_le found
  ∧ found ≡ₚ journal two_journal_world "beta"
  ∧ ∀ entry, entry ∈ found → Dict.get "type" entry = Some (PStr "AGENT_RESULT").
Proof.
  intros found.
  destruct (by_type_selects_sorted ["AGENT_RESULT"] None two_journal_world found
              two_journal_world)
    as (_ & Hperm & Hmem & Hsorted); [reflexivity|].
  split; [reflexivity|]. split.
  { apply Hsorted. repeat constructor; by eexists. }
  split; [exact Hperm|].
  intros entry Hin. apply Hmem in Hin as [Hty _].
  unfold type_matches, Dict.get_or in Hty. apply andb_prop in Hty as [Hty _].
  destruct (Dict.get "type" entry) as [[| | |s| |]|]; try discriminate Hty.
  change (bool_decide (s ∈ ["AGENT_RESULT"]) = true) in Hty.
  apply bool_decide_eq_true, list_elem_of_singleton in Hty. by rewrite Hty.
Defined.

(** An [extra] that names another task: the logged payload names that one. *)
Lemma emit_update_extra_overrides_witness :
  Dict.get "task_id"
    (update_payload coder_1 held_task "working" None (Some [("task_id", PStr "task-9")]))
  = Some (PStr "task-9").
Proof.
  apply (proj1 (emit_update_extra_overrides coder_1 held_task "working" None
                  [("task_id", PStr "task-9")] (NoDup_singleton _))).
  reflexivity.
Defined.

(** The claimed task of [coder-1] is completed. *)
Lemma complete_task_logs_then_closes_witness :
  ∃ node' entry w',
    complete_task coder_1 held_task (note_result "task-1") claimed_world = (Ok node', w')
    ∧ registry w' = [node']
    ∧ Dict.get "status" node' = Some (PStr "COMPLETED")
    ∧ Dict.get "owner" node' = Some (PStr "coder-1")
    ∧ journal w' "conv-1" = [entry]
    ∧ Dict.get "type" entry = Some (PStr "AGENT_RESULT").
Proof.
  destruct (complete_task_logs_then_closes coder_1 held_task (note_result "task-1")
              claimed_world (PStr "conv-1") "conv-1" []
              (default [] (head (registry claimed_world))) [] (PStr "task-1"))
    as (node' & entry & w' & Hrun & Hreg & Hst & _ & _ & Hkeep & Hjournal & _ & Hty & _).
  - reflexivity.
  - reflexivity.
  - reflexivity.
  - reflexivity.
  - constructor.
  - reflexivity.
  - reflexivity.
  - exists node', entry, w'. split; [exact Hrun|]. split; [exact Hreg|].
    split; [exact Hst|]. split; [by rewrite Hkeep|]. split; [exact Hjournal|exact Hty].
Defined.

(** The claimed task of [coder-1] fails on a timeout. *)
Lemma fail_task_logs_then_fails_witness :
  ∃ node' entry w',
    fail_task coder_1 held_task timeout_error claimed_world = (Ok node', w')
    ∧ Dict.get "status" node' = Some (PStr "FAILED")
    ∧ Dict.get "owner" node' = Some (PStr "coder-1")
    ∧ Dict.get "attempt" node' = Some (PInt 1)
    ∧ journal w' "conv-1" = [entry]
    ∧ Dict.get "type" entry = Some (PStr "AGENT_RESULT").
Proof.
  destruct (fail_task_logs_then_fails coder_1 held_task timeout_error
              claimed_world (PStr "conv-1") "conv-1" []
              (default [] (head (registry claimed_world))) [] (PStr "task-1"))
    as (node' & entry & w' & Hrun & _ & Hst & _ & Hkeep & Hjournal & Hty & _).
  - reflexivity.
  - reflexivity.
  - reflexivity.
  - reflexivity.
  - constructor.
  - reflexivity.
  - reflexivity.
  - exists node', entry, w'. split; [exact Hrun|]. split; [exact Hst|].
    split; [by rewrite Hkeep|]. split; [by rewrite Hkeep|].
    split; [exact Hjournal|exact Hty].
Defined.

(** A result reported for a task the registry does not hold. *)
Lemma result_logged_for_unknown_task_witness :
  ∃ entry w',
    complete_task coder_1 ghost_task (note_result "ghost") one_task_world
    = (Raise (KeyError "task ghost not found"), w')
    ∧ registry w' = registry one_task_world
    ∧ journal w' "conv-1" = [entry]
    ∧ Dict.get "type" entry = Some (PStr "AGENT_RESULT").
Proof.
  destruct (result_logged_for_unknown_task coder_1 ghost_task one_task_world
              (PStr "conv-1") "conv-1") as [Hcomplete _].
  - reflexivity.
  - reflexivity.
  - reflexivity.
  - repeat constructor. by exists (PStr "task-1").
  - destruct (Hcomplete (note_result "ghost"))
      as (entry & w' & Hrun & Hreg & Hjournal & Hty & _).
    exists entry, w'. split; [exact Hrun|]. split; [exact Hreg|].
    split; [exact Hjournal|exact Hty].
Defined.

(** A claim among three tasks: the second one changes, the others stay, and
    no task before it has its id. *)
Lemma poll_next_task_all_or_nothing_witness :
  ∃ before node after node',
    registry three_task_world = (before ++ node :: after)%list
    ∧ Forall (fun t => ∃ j, Dict.get "id" t = Some j ∧ j ≠ PStr "task-2") before
    ∧ registry (poll_next_task coder_1 three_task_world).2 = (before ++ node' :: after)%list
    ∧ journals (poll_next_task coder_1 three_task_world).2 = journals three_task_world
    ∧ Dict.get "id" node' = Some (PStr "task-2")
    ∧ Dict.get "status" node' = Some (PStr "IN_PROGRESS")
    ∧ Dict.get "owner" node' = Some (PStr "coder-1").
Proof.
  pose proof (poll_next_task_all_or_nothing coder_1 three_task_world
                (poll_next_task coder_1 three_task_world).1
                (poll_next_task coder_1 three_task_world).2
                (surjective_pairing _)) as Hpoll.
  destruct Hpoll as (listed & looked_up & before & node & after & node' & _ & _ & _ & Hreg
                     & _ & _ & Hfirst & Hreg' & Hj & _ & _ & Hid & Hst & How & _).
  exists before, node, after, node'.
  split; [exact Hreg|]. split; [exact (proj2 (Hfirst "task-2" eq_refl))|].
  split; [exact Hreg'|]. split; [exact Hj|].
  split; [exact Hid|]. split; [exact Hst|exact How].
Defined.

(** A search worker finds no search task among the coder tasks. *)
Lemma execute_once_idle_witness :
  execute_once echo_agent searcher one_task_world = (Ok (None, searcher), one_task_world).
Proof. apply execute_once_idle. repeat constructor. Defined.

(** The lifecycle of the runtime's own test: the echo agent completes the one
    task. *)
Lemma execute_once_settles_claimed_task_witness :
  ∃ node' new,
    registry (execute_once echo_agent coder_1 one_task_world).2 = node' :: new
    ∧ Dict.get "status" node' = Some (PStr "COMPLETED")
    ∧ Dict.get "owner" node' = Some (PStr "coder-1")
    ∧ List.map (Dict.get "type") (journal (execute_once echo_agent coder_1 one_task_world).2 "conv-1")
      = [Some (PStr "AGENT_UPDATE"); Some (PStr "AGENT_RESULT")].
Proof.
  destruct (execute_once_settles_claimed_task echo_agent coder_1 one_task_world []
              (default [] (head (registry one_task_world))) []
              (Some (note_result "task-1"))
              (mkAgentRuntime "coder-1" "coder" 15 (Some (demo_clock 3)))
              (execute_once echo_agent coder_1 one_task_world).2)
    as (node' & new & file & earlier & entry & Hreg & _ & How & _ & _ & Hst & _).
  - apply one_task_world_ok.
  - reflexivity.
  - constructor.
  - reflexivity.
  - apply echo_agent_updates_no_task.
  - assert (Hresult : (execute_once echo_agent coder_1 one_task_world).1
                      = Ok (Some (note_result "task-1"),
                            mkAgentRuntime "coder-1" "coder" 15 (Some (demo_clock 3))))
      by (by vm_compute).
    rewrite <- Hresult. apply surjective_pairing.
  - exists node', new. split; [exact Hreg|]. split; [exact Hst|]. split; [exact How|].
    by vm_compute.
Defined.

(** The window of the controller's own test, built twice. *)
Lemma context_slice_rebuild_witness :
  ∃ text w1 w2 first second,
    build_context_slice "conv-1" forty_events 30 empty_world = (Ok text, w1)
    ∧ build_context_slice "conv-1" forty_events 30 w1 = (Ok text, w2)
    ∧ summaries w2 = summaries w1
    ∧ journal w2 "conv-1" = [first; second]
    ∧ Dict.get "payload" second = Dict.get "payload" first.
Proof.
  destruct (context_slice_rebuild "conv-1" forty_events 30 empty_world)
    as (text & w1 & w2 & first & second & H1 & H2 & Hsum & Hjournal & _ & _ & Hpay & _).
  - reflexivity.
  - done.
  - lia.
  - simpl. lia.
  - exists text, w1, w2, first, second.
    split; [exact H1|]. split; [exact H2|]. split; [exact Hsum|].
    split; [exact Hjournal|exact Hpay].
Defined.

End MoreInstances.
